(** * Panel discussion engine ([agents/panel_discussion_strands_v2.py])

    A shallow embedding of the discussion orchestration engine: the
    respondent wrapper [ExpertAgent], the transcript log, the vote and
    routing decoders, the score aggregator and the [start_discussion]
    state machine; and of what the storage adapter
    ([agents/rds_storage.py]) reads of a result. The properties of the
    specification follow, then further properties of the code.

    Modelling conventions.
    - Python [str] is [string]; the text is taken to be ASCII, so that
      [lower], [strip] and [isdigit] act on the ASCII letters, the ASCII
      white space and the digits 0-9 only.
    - Python [int] is [Z]; Python [float] is idealised as an exact
      rational [Q] (no rounding, no infinities), compared with [==].
      The score aggregator and the percentage of the voting
      statement, where rounding changes what is returned, are also
      given on IEEE 754 binary64 numbers, which is what a Python
      [float] is.
    - Exceptions are explicit: pure fallible code returns [result], code
      that mutates [self] lives in the state-and-exception monad [M],
      which keeps the state reached when an exception escapes.
    - [print] calls are not modelled. *)

From Stdlib Require Import String Ascii List ZArith QArith Lia Lqa Bool.
From Stdlib Require Import DecimalString.
From Stdlib Require PrimFloat Uint63 FloatOps SpecFloat.
From Equations Require Import Equations.
Import ListNotations.

Local Open Scope string_scope.
Local Open Scope Z_scope.

(** ** Exceptions *)

Inductive exn : Type :=
| IndexError
| KeyError (key : string)
| ValueError
| BackendError (msg : string).

Inductive result (A : Type) : Type :=
| Ok (a : A)
| Raise (e : exn).

Arguments Ok {A} a.
Arguments Raise {A} e.

Definition result_bind {A B} (r : result A) (k : A -> result B) : result B :=
  match r with
  | Ok a => k a
  | Raise e => Raise e
  end.

Declare Scope result_scope.
Delimit Scope result_scope with result.
Notation "'let?' x ':=' r 'in' k" := (result_bind r (fun x => k))
  (at level 10, x pattern, r at level 100, k at level 200) : result_scope.

(** ** The fragment of Python's [str] and built-ins used by the engine *)

Module Py.

Definition chr (n : nat) : string := String (ascii_of_nat n) EmptyString.

(** ["\n"] and the double quote, which cannot be written in a literal. *)
Definition nl_char : ascii := ascii_of_nat 10.
Definition nl : string := chr 10.
Definition dquote : string := chr 34.

Definition in_range (lo hi : nat) (c : ascii) : bool :=
  let n := nat_of_ascii c in
  (Nat.leb lo n && Nat.leb n hi)%bool.

(** [str.isspace] on ASCII: TAB..CR, FS..US and the blank. *)
Definition isspace (c : ascii) : bool :=
  (in_range 9 13 c || in_range 28 32 c)%bool.

Definition isdigit (c : ascii) : bool := in_range 48 57 c.

Definition lower_char (c : ascii) : ascii :=
  if in_range 65 90 c then ascii_of_nat (nat_of_ascii c + 32) else c.

Definition upper_char (c : ascii) : ascii :=
  if in_range 97 122 c then ascii_of_nat (nat_of_ascii c - 32) else c.

Fixpoint map_chars (f : ascii -> ascii) (s : string) : string :=
  match s with
  | EmptyString => EmptyString
  | String c s' => String (f c) (map_chars f s')
  end.

Definition lower : string -> string := map_chars lower_char.
Definition upper : string -> string := map_chars upper_char.

Fixpoint filter_chars (f : ascii -> bool) (s : string) : string :=
  match s with
  | EmptyString => EmptyString
  | String c s' =>
      if f c then String c (filter_chars f s') else filter_chars f s'
  end.

Definition is_empty (s : string) : bool :=
  match s with EmptyString => true | _ => false end.

Fixpoint lstrip (s : string) : string :=
  match s with
  | EmptyString => EmptyString
  | String c s' => if isspace c then lstrip s' else s
  end.

Fixpoint rstrip (s : string) : string :=
  match s with
  | EmptyString => EmptyString
  | String c s' =>
      let r := rstrip s' in
      if (isspace c && is_empty r)%bool then EmptyString else String c r
  end.

Definition strip (s : string) : string := rstrip (lstrip s).

(** [s.startswith(p)] *)
Definition startswith (p s : string) : bool := String.prefix p s.

(** [sub in s] *)
Fixpoint contains (sub s : string) : bool :=
  match s with
  | EmptyString => is_empty sub
  | String _ s' => (String.prefix sub s || contains sub s')%bool
  end.

(** [s.split(sep)] for a one-character separator. *)
Fixpoint split (sep : ascii) (s : string) : list string :=
  match s with
  | EmptyString => [EmptyString]
  | String c s' =>
      if Ascii.eqb c sep then EmptyString :: split sep s'
      else match split sep s' with
           | h :: t => String c h :: t
           | [] => [String c EmptyString]
           end
  end.

(** [s.split(sep, 1)]: cut at the first separator only. *)
Fixpoint split1 (sep : ascii) (s : string) : list string :=
  match s with
  | EmptyString => [EmptyString]
  | String c s' =>
      if Ascii.eqb c sep then [EmptyString; s']
      else match split1 sep s' with
           | h :: t => String c h :: t
           | [] => [String c EmptyString]
           end
  end.

(** [l[i]] *)
Definition item {A} (l : list A) (i : nat) : result A :=
  match nth_error l i with
  | Some x => Ok x
  | None => Raise IndexError
  end.

(** [sep.join(l)] *)
Fixpoint join (sep : string) (l : list string) : string :=
  match l with
  | [] => EmptyString
  | [x] => x
  | x :: l' => x ++ sep ++ join sep l'
  end.

(** [x in l] for a list of strings. *)
Definition mem (x : string) (l : list string) : bool :=
  existsb (String.eqb x) l.

(** [str(n)] for an [int]. *)
Definition str_of_int (n : Z) : string :=
  NilZero.string_of_int (Z.to_int n).

(** [l[-n:]] for [n >= 0]: the last [n] elements, and the whole list
    for [n = 0], since [-0] is [0]. *)
Definition slice_last {A} (n : nat) (l : list A) : list A :=
  match n with
  | O => l
  | S _ => skipn (List.length l - n) l
  end.

(** [l[-n:] if len(l) > n else l] *)
Definition last_n {A} (n : nat) (l : list A) : list A :=
  if Nat.ltb n (List.length l) then slice_last n l else l.

Definition digit_val (c : ascii) : Z := Z.of_nat (nat_of_ascii c - 48).

Fixpoint digits_value (acc : Z) (s : string) : Z :=
  match s with
  | EmptyString => acc
  | String c s' => digits_value (10 * acc + digit_val c) s'
  end.

Fixpoint all_digits (s : string) : bool :=
  match s with
  | EmptyString => true
  | String c s' => (isdigit c && all_digits s')%bool
  end.

(** [float(s)] on the strings [_parse_vote] passes to it, which hold
    digits and periods only: a decimal numeral has at least one digit
    and at most one period; anything else is a [ValueError]. *)
Definition float (s : string) : result Q :=
  match split1 "." s with
  | [ip] =>
      if (negb (is_empty ip) && all_digits ip)%bool
      then Ok (inject_Z (digits_value 0 ip))
      else Raise ValueError
  | [ip; fp] =>
      if (all_digits ip && all_digits fp
          && negb (is_empty ip && is_empty fp))%bool
      then Ok (Qmake (digits_value 0 (ip ++ fp))
                     (Z.to_pos (10 ^ Z.of_nat (String.length fp))))
      else Raise ValueError
  | _ => Raise ValueError
  end.

(** [max(a, b)] and [min(a, b)]: the first argument wins ties. *)
Definition max (a b : Q) : Q :=
  match Qcompare b a with Gt => b | _ => a end.
Definition min (a b : Q) : Q :=
  match Qcompare b a with Lt => b | _ => a end.

(** [int(x)]: truncation toward zero. *)
Definition int (x : Q) : Z := Z.quot (Qnum x) (Zpos (Qden x)).

(** [f"{x:.1f}"]: one decimal, the nearest tenth, ties to even. *)
Definition round_half_even (x : Q) : Z :=
  let n := Qnum x in
  let d := Zpos (Qden x) in
  let q := Z.div n d in
  let r := Z.modulo n d in
  match Z.compare (2 * r) d with
  | Lt => q
  | Gt => q + 1
  | Eq => if Z.even q then q else q + 1
  end.

Definition format_1f (x : Q) : string :=
  let t := round_half_even (x * inject_Z 10) in
  let a := Z.abs t in
  ((if Z.ltb t 0 then "-" else "")
   ++ str_of_int (Z.div a 10) ++ "." ++ str_of_int (Z.modulo a 10))%string.

End Py.

(** ** Data classes *)

Record ExpertAnalysis : Type := {
  ea_expert_role : string;
  analysis_text : string;
  ea_round_number : Z
}.

Record Vote : Type := {
  expert_role : string;
  vote_mood : string;
  confidence : Q;
  reasoning : string
}.

Record Transcript : Type := {
  speaker : string;
  content : string;
  round_number : option Z;
  turn_order : Z
}.

Record PanelResult : Type := {
  country_code : string;
  topic : string;
  final_mood : string;
  final_score : Q;
  introduction : string;
  conclusion : string;
  discussion_date : string;
  total_turns : Z;
  debate_rounds : Z;
  analyses : list ExpertAnalysis;
  votes : list Vote;
  transcripts : list Transcript
}.

(** ** Vote decoder: [_parse_vote] *)

Local Open Scope result_scope.

(** The three locals [mood], [confidence], [reasoning] of [_parse_vote]. *)
Record VoteLocals : Type := {
  l_mood : string;
  l_confidence : Q;
  l_reasoning : string
}.

Definition vote_defaults : VoteLocals :=
  {| l_mood := "neutral"; l_confidence := 0.5%Q; l_reasoning := "" |}.

(** [line.split(':', 1)[1]] *)
Definition after_colon (line : string) : result string :=
  Py.item (Py.split1 ":" line) 1.

(** The [if]/[elif] chain on the mood text. *)
Definition mood_of_text (mood_text : string) : string :=
  if Py.contains "happy" mood_text then "happy"
  else if Py.contains "sad" mood_text then "sad"
  else "neutral".

(** One iteration of the [for line in lines] loop of [_parse_vote]; a
    [Raise] leaves the loop for the [except] clause. *)
Definition parse_vote_line (st : VoteLocals) (line : string)
  : result VoteLocals :=
  let line_lower := Py.strip (Py.lower line) in
  if Py.startswith "vote:" line_lower then
    let? v := after_colon line in
    let mood_text := Py.lower (Py.strip v) in
    Ok {| l_mood := mood_of_text mood_text;
          l_confidence := l_confidence st;
          l_reasoning := l_reasoning st |}
  else if Py.startswith "confidence:" line_lower then
    let? v := after_colon line in
    let conf_text := Py.strip v in
    let? conf_num :=
      Py.float
        (Py.filter_chars
           (fun c => (Py.isdigit c || Ascii.eqb c ".")%bool) conf_text) in
    Ok {| l_mood := l_mood st;
          l_confidence :=
            (Py.min 100 (Py.max 0 conf_num) / 100)%Q;
          l_reasoning := l_reasoning st |}
  else if Py.startswith "reasoning:" line_lower then
    let? v := after_colon line in
    Ok {| l_mood := l_mood st;
          l_confidence := l_confidence st;
          l_reasoning := Py.strip v |}
  else Ok st.

(** The loop; the locals keep the values assigned before an exception,
    which is what the [except] clause sees. *)
Fixpoint parse_vote_lines (st : VoteLocals) (lines : list string)
  : VoteLocals * option exn :=
  match lines with
  | [] => (st, None)
  | line :: rest =>
      match parse_vote_line st line with
      | Ok st' => parse_vote_lines st' rest
      | Raise e => (st, Some e)
      end
  end.

Definition _parse_vote (role response : string) : Vote :=
  let '(st, raised) :=
    parse_vote_lines vote_defaults (Py.split Py.nl_char response) in
  let reasoning :=
    match raised with
    | Some _ => response
    | None => l_reasoning st
    end in
  {| expert_role := role;
     vote_mood := l_mood st;
     confidence := l_confidence st;
     reasoning := if Py.is_empty reasoning then response else reasoning |}.

(** ** Score aggregator: [_calculate_final_mood] *)

(** The dictionary [mood_values]; a missing key is a [KeyError]. *)
Definition mood_values (key : string) : result Z :=
  if String.eqb key "happy" then Ok 100
  else if String.eqb key "neutral" then Ok 50
  else if String.eqb key "sad" then Ok 0
  else Raise (KeyError key).

(** The [for vote in votes] loop with its two accumulators. *)
Fixpoint tally_votes (total_score total_weight : Q) (votes : list Vote)
  : result (Q * Q) :=
  match votes with
  | [] => Ok (total_score, total_weight)
  | vote :: rest =>
      let? mood_value := mood_values (vote_mood vote) in
      let weighted_score := (inject_Z mood_value * confidence vote)%Q in
      tally_votes (total_score + weighted_score)%Q
                  (total_weight + confidence vote)%Q rest
  end.

Definition _calculate_final_mood (votes : list Vote) : result (string * Q) :=
  let? (total_score, total_weight) := tally_votes 0 0 votes in
  if Qeq_bool total_weight 0 then Ok ("neutral", 50%Q)
  else
    let final_score := (total_score / total_weight)%Q in
    if Qle_bool 67 final_score then Ok ("happy", final_score)
    else if Qle_bool 34 final_score then Ok ("neutral", final_score)
    else Ok ("sad", final_score).

(** The same method on binary64 numbers. It reads two fields of a vote,
    its mood and its confidence; [int * float], [float + float],
    [float / float] and the comparisons are those of the format, with
    rounding to nearest. *)
Definition float_of_int (n : Z) : PrimFloat.float :=
  PrimFloat.of_uint63 (Uint63.of_Z n).

Fixpoint tally_votes_binary64 (total_score total_weight : PrimFloat.float)
    (votes : list (string * PrimFloat.float))
  : result (PrimFloat.float * PrimFloat.float) :=
  match votes with
  | [] => Ok (total_score, total_weight)
  | (mood, conf) :: rest =>
      let? mood_value := mood_values mood in
      let weighted_score := PrimFloat.mul (float_of_int mood_value) conf in
      tally_votes_binary64 (PrimFloat.add total_score weighted_score)
                           (PrimFloat.add total_weight conf) rest
  end.

Definition _calculate_final_mood_binary64
    (votes : list (string * PrimFloat.float))
  : result (string * PrimFloat.float) :=
  let? (total_score, total_weight) :=
    tally_votes_binary64 (float_of_int 0) (float_of_int 0) votes in
  if PrimFloat.eqb total_weight (float_of_int 0)
  then Ok ("neutral", float_of_int 50)
  else
    let final_score := PrimFloat.div total_score total_weight in
    if PrimFloat.leb (float_of_int 67) final_score
    then Ok ("happy", final_score)
    else if PrimFloat.leb (float_of_int 34) final_score
    then Ok ("neutral", final_score)
    else Ok ("sad", final_score).

(** The confidence of a vote and its percentage in the voting
    statement on binary64 numbers:
    [min(100.0, max(0.0, conf_num)) / 100.0] of [_parse_vote] and
    [int(vote.confidence * 100)] of [_conduct_voting]. [max] and [min]
    return their second argument only when it is strictly greater or
    smaller; [int] truncates toward zero and raises on an infinity or
    a NaN ([None]). *)
Definition max_binary64 (a b : PrimFloat.float) : PrimFloat.float :=
  if PrimFloat.ltb a b then b else a.

Definition min_binary64 (a b : PrimFloat.float) : PrimFloat.float :=
  if PrimFloat.ltb b a then b else a.

Definition confidence_binary64 (conf_num : PrimFloat.float)
  : PrimFloat.float :=
  PrimFloat.div
    (min_binary64 (float_of_int 100) (max_binary64 (float_of_int 0) conf_num))
    (float_of_int 100).

Definition int_binary64 (x : PrimFloat.float) : option Z :=
  match FloatOps.Prim2SF x with
  | SpecFloat.S754_zero _ => Some 0
  | SpecFloat.S754_finite sign m e =>
      let magnitude :=
        if 0 <=? e then Z.shiftl (Zpos m) e else Z.shiftr (Zpos m) (- e) in
      Some (if sign then - magnitude else magnitude)
  | SpecFloat.S754_infinity _ => None
  | SpecFloat.S754_nan => None
  end.

Definition vote_percent_binary64 (confidence : PrimFloat.float) : option Z :=
  int_binary64 (PrimFloat.mul confidence (float_of_int 100)).

(** ** Routing decoder: the [try] block of [_moderator_decide_followup] *)

(** The locals [should_continue] and [target_experts]. *)
Record RoutingLocals : Type := {
  should_continue : bool;
  target_experts : list string
}.

Definition routing_defaults : RoutingLocals :=
  {| should_continue := false; target_experts := [] |}.

(** [mentioned.lower() in expert.lower() or
     expert.lower() in mentioned.lower()] *)
Definition mention_matches (expert mentioned : string) : bool :=
  (Py.contains (Py.lower mentioned) (Py.lower expert)
   || Py.contains (Py.lower expert) (Py.lower mentioned))%bool.

(** The inner [for mentioned in mentioned_experts] loop, left by [break]
    at the first match. *)
Fixpoint match_mentioned (expert : string) (mentioned_experts : list string)
    (targets : list string) : list string :=
  match mentioned_experts with
  | [] => targets
  | mentioned :: rest =>
      if mention_matches expert mentioned then
        if Py.mem expert targets then targets else targets ++ [expert]
      else match_mentioned expert rest targets
  end.

(** The outer [for expert in self.expert_roles] loop. *)
Fixpoint match_roster (roster mentioned_experts targets : list string)
  : list string :=
  match roster with
  | [] => targets
  | expert :: rest =>
      match_roster rest mentioned_experts
                   (match_mentioned expert mentioned_experts targets)
  end.

(** One iteration of the [for line in lines] loop. *)
Definition routing_line (expert_roles : list string) (st : RoutingLocals)
    (line : string) : result RoutingLocals :=
  let line_lower := Py.strip (Py.lower line) in
  if Py.startswith "continue:" line_lower then
    let? v := after_colon line in
    let continue_text := Py.lower (Py.strip v) in
    Ok {| should_continue := Py.contains "yes" continue_text;
          target_experts := target_experts st |}
  else if Py.startswith "target experts:" line_lower then
    let? v := after_colon line in
    let experts_text := Py.strip v in
    if Py.contains "none" (Py.lower experts_text) then
      Ok {| should_continue := false; target_experts := [] |}
    else if Py.contains "all" (Py.lower experts_text) then
      Ok {| should_continue := should_continue st;
            target_experts := expert_roles |}
    else
      let mentioned_experts := map Py.strip (Py.split "," experts_text) in
      Ok {| should_continue := should_continue st;
            target_experts :=
              match_roster expert_roles mentioned_experts
                           (target_experts st) |}
  else if Py.startswith "reason:" line_lower then
    let? _ := after_colon line in
    Ok st
  else Ok st.

Fixpoint routing_lines (expert_roles : list string) (st : RoutingLocals)
    (lines : list string) : result RoutingLocals :=
  match lines with
  | [] => Ok st
  | line :: rest =>
      let? st' := routing_line expert_roles st line in
      routing_lines expert_roles st' rest
  end.

(** The [try]/[except] around the loop: any exception falls back to
    "continue with all experts". *)
Definition parse_followup (expert_roles : list string) (response : string)
  : bool * list string :=
  match routing_lines expert_roles routing_defaults
                      (Py.split Py.nl_char response) with
  | Ok st => (should_continue st, target_experts st)
  | Raise _ => (true, expert_roles)
  end.

(** ** The respondent wrapper: [ExpertAgent] *)

(** One invocation of a completion capability, as seen from outside. *)
Record Call : Type := {
  call_role : string;
  call_prompt : string
}.

Record BedrockModel : Type := {
  bm_model_id : string;
  temperature : Q;
  streaming : bool
}.

(** A [strands.Agent]: an opaque text-completion capability bound to a
    system prompt. Its answer may depend on everything asked so far
    ([completion] receives the calls already made, latest first) and it
    may raise; the answer stands for the text the wrapper obtains from
    it, conversion with [str] included. *)
Record Agent : Type := {
  model : BedrockModel;
  system_prompt : string;
  completion : list Call -> string -> result string
}.

(** The completion service behind [Agent(...)]: given the model and the
    persona, the behaviour of the agent. *)
Definition Backend : Type :=
  BedrockModel -> string -> list Call -> string -> result string.

Record ExpertAgent : Type := {
  role : string;
  agent : Agent
}.

Definition default_model_id : string :=
  "anthropic.claude-3-haiku-20240307-v1:0".

(** [ExpertAgent.__init__] *)
Definition ExpertAgent_init (backend : Backend)
    (role instruction model_id : string) : ExpertAgent :=
  let m := {| bm_model_id := model_id;
              temperature := 0.7%Q;
              streaming := false |} in
  {| role := role;
     agent := {| model := m;
                 system_prompt := instruction;
                 completion := backend m instruction |} |}.

(** ** The orchestrator: [PanelDiscussionStrandsV2] *)

(** The attributes of [self]; [history] is ghost state, the log of the
    completion calls made so far (latest first). *)
Record PanelDiscussionStrandsV2 : Type := {
  self_model_id : string;
  self_transcripts : list Transcript;
  self_analyses : list ExpertAnalysis;
  self_turn_order : Z;
  self_expert_roles : list string;
  self_agents : list (string * ExpertAgent);
  history : list Call
}.

Definition M (A : Type) : Type :=
  PanelDiscussionStrandsV2 -> result A * PanelDiscussionStrandsV2.

Definition ret {A} (a : A) : M A := fun self => (Ok a, self).

Definition raise {A} (e : exn) : M A := fun self => (Raise e, self).

Definition bind {A B} (m : M A) (k : A -> M B) : M B :=
  fun self =>
    match m self with
    | (Ok a, self') => k a self'
    | (Raise e, self') => (Raise e, self')
    end.

Definition lift {A} (r : result A) : M A := fun self => (r, self).

Definition gets {A} (f : PanelDiscussionStrandsV2 -> A) : M A :=
  fun self => (Ok (f self), self).

Definition modify (f : PanelDiscussionStrandsV2 -> PanelDiscussionStrandsV2)
  : M unit :=
  fun self => (Ok tt, f self).

Declare Scope monad_scope.
Delimit Scope monad_scope with monad.
Notation "x <- m ;; k" := (bind m (fun x => k))
  (at level 61, m at next level, right associativity) : monad_scope.
Notation "' pat <- m ;; k" := (bind m (fun x => match x with pat => k end))
  (at level 61, pat pattern, m at next level, right associativity)
  : monad_scope.
Notation "m ;; k" := (bind m (fun _ => k))
  (at level 61, right associativity) : monad_scope.

Local Open Scope monad_scope.

(** [for x in l: body(x)] *)
Fixpoint for_each {A} (l : list A) (body : A -> M unit) : M unit :=
  match l with
  | [] => ret tt
  | x :: rest => body x ;; for_each rest body
  end.

Definition set_transcripts (ts : list Transcript)
    (self : PanelDiscussionStrandsV2) : PanelDiscussionStrandsV2 :=
  {| self_model_id := self_model_id self;
     self_transcripts := ts;
     self_analyses := self_analyses self;
     self_turn_order := self_turn_order self;
     self_expert_roles := self_expert_roles self;
     self_agents := self_agents self;
     history := history self |}.

Definition set_analyses (an : list ExpertAnalysis)
    (self : PanelDiscussionStrandsV2) : PanelDiscussionStrandsV2 :=
  {| self_model_id := self_model_id self;
     self_transcripts := self_transcripts self;
     self_analyses := an;
     self_turn_order := self_turn_order self;
     self_expert_roles := self_expert_roles self;
     self_agents := self_agents self;
     history := history self |}.

Definition set_turn_order (n : Z)
    (self : PanelDiscussionStrandsV2) : PanelDiscussionStrandsV2 :=
  {| self_model_id := self_model_id self;
     self_transcripts := self_transcripts self;
     self_analyses := self_analyses self;
     self_turn_order := n;
     self_expert_roles := self_expert_roles self;
     self_agents := self_agents self;
     history := history self |}.

Definition log_call (c : Call)
    (self : PanelDiscussionStrandsV2) : PanelDiscussionStrandsV2 :=
  {| self_model_id := self_model_id self;
     self_transcripts := self_transcripts self;
     self_analyses := self_analyses self;
     self_turn_order := self_turn_order self;
     self_expert_roles := self_expert_roles self;
     self_agents := self_agents self;
     history := c :: history self |}.

(** The marker returned in place of a failed completion. *)
Definition error_sentinel (role : string) : string :=
  "[Error from " ++ role ++ "]".

(** [ExpertAgent.respond]: the [try] calls the agent, the [except]
    turns any exception into the marker. *)
Definition respond (self : ExpertAgent) (prompt : string) : M string :=
  fun world =>
    let text :=
      match completion (agent self) (history world) prompt with
      | Ok response => response
      | Raise _ => error_sentinel (role self)
      end in
    (Ok text,
     log_call {| call_role := role self; call_prompt := prompt |} world).

(** [self.agents[key]] *)
Fixpoint dict_get {A} (d : list (string * A)) (key : string) : result A :=
  match d with
  | [] => Raise (KeyError key)
  | (k, v) :: rest => if String.eqb k key then Ok v else dict_get rest key
  end.

Definition agent_of (key : string) : M ExpertAgent :=
  d <- gets self_agents ;; lift (dict_get d key).

(** Several lines joined by newlines, for the triple-quoted prompts. *)
Definition text (lines : list string) : string := Py.join Py.nl lines.

(** *** [__init__] *)

Definition moderator_instruction : string :=
  text [ "You are a professional panel discussion moderator. Your role is to:";
         "- Introduce topics clearly and engagingly";
         "- Ask probing questions to experts";
         "- Guide the discussion flow";
         "- Synthesize different viewpoints";
         "- Provide balanced conclusions";
         "Keep your responses concise but insightful." ].

Definition expert_instructions : list (string * string) :=
  [ ("Economic Analyst",
     text [ "You are an Economic Analyst expert. Analyze:";
            "- GDP growth, employment, inflation";
            "- Trade, exports, industrial sectors";
            "- Economic policies and reforms";
            "- Infrastructure development";
            "Provide data-driven insights with specific numbers when possible." ]);
    ("Social Welfare Specialist",
     text [ "You are a Social Welfare Specialist. Analyze:";
            "- Quality of life, healthcare, education";
            "- Work-life balance, social programs";
            "- Inequality, social mobility";
            "- Cultural trends and public sentiment";
            "Focus on human well-being and social cohesion." ]);
    ("Environmental Scientist",
     text [ "You are an Environmental Scientist. Analyze:";
            "- Climate change impacts and policies";
            "- Pollution levels, renewable energy";
            "- Resource management, sustainability";
            "- Environmental regulations";
            "Assess environmental health and future risks." ]) ].

(** [self.agents[k] = v]: replace the value of an existing key, else
    add the key last. *)
Fixpoint dict_set {A} (d : list (string * A)) (key : string) (v : A)
  : list (string * A) :=
  match d with
  | [] => [(key, v)]
  | (k, w) :: rest =>
      if String.eqb k key then (k, v) :: rest
      else (k, w) :: dict_set rest key v
  end.

Definition PanelDiscussionStrandsV2_init (backend : Backend)
    (model_id : string) : PanelDiscussionStrandsV2 :=
  let agents0 :=
    [ ("moderator",
       ExpertAgent_init backend "Moderator" moderator_instruction model_id) ] in
  {| self_model_id := model_id;
     self_transcripts := [];
     self_analyses := [];
     self_turn_order := 0;
     self_expert_roles :=
       [ "Economic Analyst"; "Social Welfare Specialist";
         "Environmental Scientist" ];
     self_agents :=
       fold_left
         (fun d '(role, instruction) =>
            dict_set d role (ExpertAgent_init backend role instruction model_id))
         expert_instructions agents0;
     history := [] |}.

(** [create_panel_discussion_strands_v2] *)
Definition create_panel_discussion_strands_v2 (backend : Backend)
    (model_id : string) : PanelDiscussionStrandsV2 :=
  PanelDiscussionStrandsV2_init backend model_id.

(** *** [_build_context] *)

(** The shape of [country_data] the method reads: an optional ['news']
    list of items with an optional ['title'], an optional ['weather']
    with optional ['description'] and ['temp'] (already rendered as
    text), and whatever other keys the dictionary holds. *)
Record NewsItem : Type := { title : option string }.

Record Weather : Type := {
  description : option string;
  temp : option string
}.

Record CountryData : Type := {
  news : option (list NewsItem);
  weather : option Weather;
  other_keys : list string
}.

(** [d.get(k, 'N/A')] *)
Definition get_or_na (v : option string) : string :=
  match v with Some s => s | None => "N/A" end.

(** [not country_data]: [None] or the empty dictionary. *)
Definition country_data_falsy (country_data : option CountryData) : bool :=
  match country_data with
  | None => true
  | Some d =>
      match news d, weather d, other_keys d with
      | None, None, [] => true
      | _, _, _ => false
      end
  end.

Definition _build_context (country_code : string)
    (country_data : option CountryData) : string :=
  match country_data with
  | Some d =>
      if country_data_falsy country_data then
        "Analyze the current state of " ++ country_code
        ++ " based on recent developments."
      else
        let context_parts : list string := [] in
        let context_parts : list string :=
          match news d with
          | Some items =>
              let news_items := firstn 5 items in
              ((context_parts ++ ["Recent News Headlines:"])
               ++ map (fun item => ("- " ++ get_or_na (title item))%string)
                      news_items)%list
          | None => context_parts
          end in
        let context_parts : list string :=
          match weather d with
          | Some w =>
              (context_parts
               ++ [ (Py.nl ++ "Current Conditions: "
                     ++ get_or_na (description w) ++ ", "
                     ++ get_or_na (temp w) ++ Py.chr 176 ++ "C")%string ])%list
          | None => context_parts
          end in
        match context_parts with
        | [] => "Current analysis of " ++ country_code
        | _ => Py.join Py.nl context_parts
        end
  | None =>
      "Analyze the current state of " ++ country_code
      ++ " based on recent developments."
  end.

(** *** The transcript log: [_add_transcript], [_get_recent_discussion] *)

Definition _add_transcript (speaker content : string)
    (round_number : option Z) : M unit :=
  n <- gets self_turn_order ;;
  modify (set_turn_order (n + 1)) ;;
  ts <- gets self_transcripts ;;
  n' <- gets self_turn_order ;;
  modify (set_transcripts
            (ts ++ [ {| speaker := speaker;
                        content := content;
                        round_number := round_number;
                        turn_order := n' |} ])).

Definition _get_recent_discussion (num_turns : nat) : M string :=
  ts <- gets self_transcripts ;;
  let recent := Py.last_n num_turns ts in
  ret (Py.join (Py.nl ++ Py.nl)
         (map (fun t => speaker t ++ ": " ++ content t) recent)).

(** [self.analyses.append(...)] *)
Definition append_analysis (a : ExpertAnalysis) : M unit :=
  an <- gets self_analyses ;;
  modify (set_analyses (an ++ [a])).

(** *** [_moderator_introduce] *)

Definition _moderator_introduce (country_code topic context : string)
  : M string :=
  let prompt :=
    text [ "Welcome everyone to today's expert panel discussion.";
           "";
           "Topic: " ++ topic;
           "Country: " ++ country_code;
           "";
           context;
           "";
           "As moderator, introduce this panel discussion in 2-3 sentences. Explain what we'll be examining and why it matters. Make it engaging and set the stage for expert analysis." ] in
  moderator <- agent_of "moderator" ;;
  introduction <- respond moderator prompt ;;
  _add_transcript "Moderator" introduction None ;;
  ret introduction.

(** *** [_collect_round_analyses] *)

Definition _collect_round_analyses (country_code topic context : string)
    (round_number : Z) (is_first : bool) : M unit :=
  expert_roles <- gets self_expert_roles ;;
  moderator_q <-
    (if is_first then
       first_role <- lift (Py.item expert_roles 0) ;;
       ret ("Let's begin with our expert analyses. " ++ first_role
            ++ ", what's your assessment of " ++ country_code
            ++ "'s situation?")
     else
       _ <- _get_recent_discussion 5 ;;
       ret "Let's continue our analysis. What are your updated perspectives based on our discussion?") ;;
  _add_transcript "Moderator" moderator_q (Some round_number) ;;
  for_each expert_roles (fun role =>
    prompt <-
      (if is_first then
         ret (text [ "As the " ++ role
                     ++ " on this panel, provide your opening analysis of "
                     ++ country_code ++ ".";
                     "";
                     "Context:";
                     context;
                     "";
                     "Topic: " ++ topic;
                     "";
                     "Give your expert perspective in 2-4 sentences. Be specific with data or examples where possible." ])
       else
         recent_discussion <- _get_recent_discussion 8 ;;
         ret (text [ "Round " ++ Py.str_of_int round_number
                     ++ " of our discussion about " ++ country_code ++ ".";
                     "";
                     "Previous discussion:";
                     recent_discussion;
                     "";
                     "As the " ++ role ++ ", provide your analysis addressing:";
                     "- New insights based on what other experts said";
                     "- Your perspective on the key issues raised";
                     "- Specific evidence or examples";
                     "";
                     "Keep it focused (2-4 sentences)." ])) ;;
    expert <- agent_of role ;;
    analysis_text <- respond expert prompt ;;
    append_analysis {| ea_expert_role := role;
                       analysis_text := analysis_text;
                       ea_round_number := round_number |} ;;
    _add_transcript role analysis_text (Some round_number)).

(** *** [_moderator_decide_followup] *)

Definition _moderator_decide_followup (country_code topic : string)
    (round_number : Z) : M (bool * list string) :=
  recent_discussion <- _get_recent_discussion 12 ;;
  expert_roles <- gets self_expert_roles ;;
  let prompt :=
    text [ "You are the moderator of an expert panel discussing "
           ++ country_code ++ ".";
           "";
           "Recent discussion:";
           recent_discussion;
           "";
           "Analyze the discussion and decide:";
           "1. Have the experts provided sufficient diverse perspectives?";
           "2. Are there any unresolved questions or contradictions?";
           "3. Do we need to hear more from specific experts?";
           "";
           "Available experts: " ++ Py.join ", " expert_roles;
           "";
           "Respond in this exact format:";
           "Continue: [Yes/No]";
           "Target Experts: [comma-separated list of expert roles to follow up with, or "
           ++ Py.dquote ++ "All" ++ Py.dquote
           ++ " if everyone should respond, or "
           ++ Py.dquote ++ "None" ++ Py.dquote
           ++ " if discussion is complete]";
           "Reason: [Brief explanation in 1 sentence]" ] in
  moderator <- agent_of "moderator" ;;
  response <- respond moderator prompt ;;
  ret (parse_followup expert_roles response).

(** *** [_conduct_dynamic_debate_round] *)

Definition _conduct_dynamic_debate_round (country_code topic : string)
    (round_number : Z) (target_experts : list string) : M unit :=
  expert_roles <- gets self_expert_roles ;;
  let target_experts :=
    match target_experts with
    | [] => expert_roles
    | _ => target_experts
    end in
  recent <- _get_recent_discussion 10 ;;
  let moderator_prompt :=
    if Nat.eqb (List.length target_experts) (List.length expert_roles) then
      text [ "Based on our discussion about " ++ country_code ++ ":";
             "";
             recent;
             "";
             "As moderator, pose a follow-up question or raise an important point that needs clarification. Be specific (1-2 sentences)." ]
    else
      let expert_names := Py.join ", " target_experts in
      text [ "Based on our discussion about " ++ country_code ++ ":";
             "";
             recent;
             "";
             "As moderator, pose a targeted follow-up question specifically for "
             ++ expert_names
             ++ ". Focus on their area of expertise and ask for deeper insights (1-2 sentences)." ] in
  moderator <- agent_of "moderator" ;;
  moderator_question <- respond moderator moderator_prompt ;;
  _add_transcript "Moderator" moderator_question (Some round_number) ;;
  for_each target_experts (fun role =>
    recent_context <- _get_recent_discussion 8 ;;
    let prompt :=
      text [ "Round " ++ Py.str_of_int round_number
             ++ " - Follow-up question for you as " ++ role ++ ":";
             "";
             "Moderator's question: " ++ moderator_question;
             "";
             "Recent discussion context:";
             recent_context;
             "";
             "Provide your expert response addressing the moderator's question. Be specific with evidence or examples (2-4 sentences)." ] in
    expert <- agent_of role ;;
    analysis_text <- respond expert prompt ;;
    append_analysis {| ea_expert_role := role;
                       analysis_text := analysis_text;
                       ea_round_number := round_number |} ;;
    _add_transcript role analysis_text (Some round_number)).

(** *** [_conduct_voting] *)

(** [for x in l] with a local accumulator. *)
Fixpoint for_fold {A B} (l : list A) (acc : B) (body : B -> A -> M B)
  : M B :=
  match l with
  | [] => ret acc
  | x :: rest => acc' <- body acc x ;; for_fold rest acc' body
  end.

Definition _conduct_voting (country_code : string) : M (list Vote) :=
  let moderator_call :=
    "Let's move to our final assessments. I'd like each expert to cast their vote on the overall outlook." in
  _add_transcript "Moderator" moderator_call None ;;
  recent_discussion <- _get_recent_discussion 15 ;;
  expert_roles <- gets self_expert_roles ;;
  for_fold expert_roles ([] : list Vote) (fun votes role =>
    let prompt :=
      text [ "Based on our complete discussion about " ++ country_code ++ ":";
             "";
             recent_discussion;
             "";
             "Cast your final vote on the overall outlook/mood.";
             "";
             "Respond in this exact format:";
             "Vote: [Happy/Neutral/Sad]";
             "Confidence: [0-100]";
             "Reasoning: [Your explanation in 1-2 sentences based on your expertise]" ] in
    expert <- agent_of role ;;
    response <- respond expert prompt ;;
    let vote := _parse_vote role response in
    let vote_statement :=
      "I vote " ++ vote_mood vote ++ " with "
      ++ Py.str_of_int (Py.int (confidence vote * 100)%Q)
      ++ "% confidence. " ++ reasoning vote in
    _add_transcript role vote_statement None ;;
    ret (votes ++ [vote])%list).

(** *** [_moderator_conclude] *)

Definition _moderator_conclude (country_code final_mood : string)
    (final_score : Q) : M string :=
  recent_discussion <- _get_recent_discussion 12 ;;
  let prompt :=
    text [ "Our expert panel has completed their analysis of "
           ++ country_code ++ ".";
           "";
           "Discussion highlights:";
           recent_discussion;
           "";
           "Final assessment: " ++ Py.upper final_mood ++ " (Score: "
           ++ Py.format_1f final_score ++ "/100)";
           "";
           "As moderator, provide a concluding statement that:";
           "1. Summarizes the key findings from all experts";
           "2. Explains the final verdict and what it means";
           "3. Provides balanced perspective on strengths and challenges";
           "4. Ends with an insightful closing thought";
           "";
           "Keep it comprehensive but concise (4-5 sentences)." ] in
  moderator <- agent_of "moderator" ;;
  conclusion <- respond moderator prompt ;;
  _add_transcript "Moderator" conclusion None ;;
  ret conclusion.

(** *** [start_discussion] *)

(** One pass through the body of [while round_num <= max_rounds]:
    [false] when the body ends with [break], [true] when it runs to its
    end (and [round_num += 1] follows). *)
Definition debate_body (country_code topic : string) (round_num : Z)
  : M bool :=
  '(should_continue, target_experts) <-
    _moderator_decide_followup country_code topic round_num ;;
  if negb should_continue then ret false
  else
    _conduct_dynamic_debate_round country_code topic round_num target_experts ;;
    ret true.

(** The [while] loop, returning the value of [round_num] it ends with.
    It terminates because [max_rounds + 1 - round_num] decreases. *)
Equations? debate_loop (country_code topic : string) (max_rounds round_num : Z)
    (self : PanelDiscussionStrandsV2)
  : result Z * PanelDiscussionStrandsV2
  by wf (Z.to_nat (max_rounds + 1 - round_num)) lt :=
  debate_loop country_code topic max_rounds round_num self
    with Logic.inspect (round_num <=? max_rounds) := {
    | exist _ true Hle
        with debate_body country_code topic round_num self := {
        | (Ok true, self') =>
            debate_loop country_code topic max_rounds (round_num + 1) self'
        | (Ok false, self') => (Ok round_num, self')
        | (Raise e, self') => (Raise e, self') }
    | exist _ false _ => (Ok round_num, self) }.
Proof.
  apply Z.leb_le in Hle. lia.
Qed.

(** [start_discussion]; [today] stands for [date.today().isoformat()].
    The default [max_rounds=5] of the signature is left to the caller. *)
Definition start_discussion (today : string) (country_code topic : string)
    (country_data : option CountryData) (max_rounds : Z) : M PanelResult :=
  modify (set_transcripts []) ;;
  modify (set_analyses []) ;;
  modify (set_turn_order 0) ;;
  let context := _build_context country_code country_data in
  introduction <- _moderator_introduce country_code topic context ;;
  _collect_round_analyses country_code topic context 1 true ;;
  round_num <- debate_loop country_code topic max_rounds 2 ;;
  let actual_rounds := round_num - 1 in
  votes <- _conduct_voting country_code ;;
  '(final_mood, final_score) <- lift (_calculate_final_mood votes) ;;
  conclusion <- _moderator_conclude country_code final_mood final_score ;;
  ts <- gets self_transcripts ;;
  an <- gets self_analyses ;;
  ret {| country_code := country_code;
         topic := topic;
         final_mood := final_mood;
         final_score := final_score;
         introduction := introduction;
         conclusion := conclusion;
         discussion_date := today;
         total_turns := Z.of_nat (List.length ts);
         debate_rounds := actual_rounds;
         analyses := an;
         votes := votes;
         transcripts := ts |}.

(** * The storage adapter ([agents/rds_storage.py]): what it reads of a result

    [save_panel_result] turns the result into a dictionary with
    [dataclasses.asdict] and hands it to six writers. Modelled here are
    the dictionary and, for each writer, the values it reads from the
    dictionary and passes on: the parameters of its SQL statements, or
    the S3 object it puts. The connections, the statements themselves
    and the S3 client are not modelled.

    A Python value is a [value]. An operation on a value whose type
    does not support it raises, and so does [d[key]] on a missing key:
    both are [None] here, since no caller looks at the class of the
    exception. What Python makes of a value in cases the result never
    produces is left to three functions that the model takes as given
    ([Python]): the [repr] of a float, a list or a dictionary, and
    [float] and [int] of a string. *)

Module Rds.

#[warnings="-register-all"] Inductive value : Type :=
| VNone
| VStr (s : string)
| VInt (n : Z)
| VFloat (x : Q)
| VList (l : list value)
| VDict (d : list (string * value)).

Record Python : Type := {
  repr : value -> string;
  float_of_str : string -> option Q;
  int_of_str : string -> option Z
}.

Definition option_bind {A B} (m : option A) (k : A -> option B) : option B :=
  match m with
  | Some a => k a
  | None => None
  end.

Notation "'let*' x ':=' m 'in' k" := (option_bind m (fun x => k))
  (at level 10, x pattern, m at level 100, k at level 200) : result_scope.

Local Open Scope result_scope.

(** [for x in l] with an accumulator, any iteration of which may
    raise. *)
Fixpoint fold_option {A B} (f : B -> A -> option B) (l : list A) (acc : B)
  : option B :=
  match l with
  | [] => Some acc
  | x :: rest => let* acc' := f acc x in fold_option f rest acc'
  end.

(** ** Dictionaries *)

Fixpoint lookup (d : list (string * value)) (key : string) : option value :=
  match d with
  | [] => None
  | (k, v) :: rest => if String.eqb k key then Some v else lookup rest key
  end.

(** [d[key]] *)
Definition getitem (d : list (string * value)) (key : string)
  : option value :=
  lookup d key.

(** [d.get(key, default)]; [d.get(key)] is [get d key VNone]. *)
Definition get (d : list (string * value)) (key : string) (default : value)
  : value :=
  match lookup d key with
  | Some v => v
  | None => default
  end.

(** [v.get(key, default)] on a value: only a dictionary has [get]. *)
Definition method_get (v : value) (key : string) (default : value)
  : option value :=
  match v with
  | VDict d => Some (get d key default)
  | _ => None
  end.

(** [v.items()] *)
Definition items (v : value) : option (list (string * value)) :=
  match v with
  | VDict d => Some d
  | _ => None
  end.

Fixpoint chars (s : string) : list value :=
  match s with
  | EmptyString => []
  | String c rest => VStr (String c EmptyString) :: chars rest
  end.

(** [for x in v]: the elements of a list, the keys of a dictionary,
    the characters of a string. *)
Definition iter (v : value) : option (list value) :=
  match v with
  | VList l => Some l
  | VDict d => Some (map (fun kv => VStr (fst kv)) d)
  | VStr s => Some (chars s)
  | _ => None
  end.

(** ** Conversions and formatting *)

(** [str(v)], which is also [{v}] in an f-string. *)
Definition str (py : Python) (v : value) : string :=
  match v with
  | VStr s => s
  | VNone => "None"
  | VInt n => Py.str_of_int n
  | _ => repr py v
  end.

(** [float(v)] *)
Definition float (py : Python) (v : value) : option Q :=
  match v with
  | VFloat x => Some x
  | VInt n => Some (inject_Z n)
  | VStr s => float_of_str py s
  | _ => None
  end.

(** [int(v)] *)
Definition int (py : Python) (v : value) : option Z :=
  match v with
  | VInt n => Some n
  | VFloat x => Some (Py.int x)
  | VStr s => int_of_str py s
  | _ => None
  end.

(** [v.upper()] *)
Definition upper (v : value) : option string :=
  match v with
  | VStr s => Some (Py.upper s)
  | _ => None
  end.

(** [{v:.1f}] *)
Definition format_1f (v : value) : option string :=
  match v with
  | VFloat x => Some (Py.format_1f x)
  | VInt n => Some (Py.format_1f (inject_Z n))
  | _ => None
  end.

(** [s.replace(a, b)] for one-character [a] and [b]. *)
Definition replace_char (a b : ascii) : string -> string :=
  Py.map_chars (fun c => if Ascii.eqb c a then b else c).

Definition is_letter (c : ascii) : bool :=
  (Py.in_range 65 90 c || Py.in_range 97 122 c)%bool.

(** [s.title()]: a letter after a letter in lower case, any other
    letter in upper case. *)
Fixpoint title_from (after_letter : bool) (s : string) : string :=
  match s with
  | EmptyString => EmptyString
  | String c rest =>
      let c' :=
        if is_letter c
        then if after_letter then Py.lower_char c else Py.upper_char c
        else c in
      String c' (title_from (is_letter c) rest)
  end.

Definition title : string -> string := title_from false.

(** ** [dataclasses.asdict] *)

Definition asdict_analysis (a : ExpertAnalysis) : value :=
  VDict [ ("expert_role", VStr (ea_expert_role a));
          ("analysis_text", VStr (analysis_text a));
          ("round_number", VInt (ea_round_number a)) ].

Definition asdict_vote (v : Vote) : value :=
  VDict [ ("expert_role", VStr (expert_role v));
          ("vote_mood", VStr (vote_mood v));
          ("confidence", VFloat (confidence v));
          ("reasoning", VStr (reasoning v)) ].

Definition asdict_transcript (t : Transcript) : value :=
  VDict [ ("speaker", VStr (speaker t));
          ("content", VStr (content t));
          ("round_number",
           match round_number t with
           | Some n => VInt n
           | None => VNone
           end);
          ("turn_order", VInt (turn_order t)) ].

Definition asdict (res : PanelResult) : list (string * value) :=
  [ ("country_code", VStr (country_code res));
    ("topic", VStr (topic res));
    ("final_mood", VStr (final_mood res));
    ("final_score", VFloat (final_score res));
    ("introduction", VStr (introduction res));
    ("conclusion", VStr (conclusion res));
    ("discussion_date", VStr (discussion_date res));
    ("total_turns", VInt (total_turns res));
    ("debate_rounds", VInt (debate_rounds res));
    ("analyses", VList (map asdict_analysis (analyses res)));
    ("votes", VList (map asdict_vote (votes res)));
    ("transcripts", VList (map asdict_transcript (transcripts res))) ].

(** ** The writers *)

(** [_save_discussion]: the parameters of its INSERT; [today] stands
    for [date.today().isoformat()]. *)
Definition _save_discussion (py : Python) (today : string)
    (result_dict : list (string * value)) (country_code : string)
  : option (list value) :=
  let* mood := getitem result_dict "final_mood" in
  let* score_value := getitem result_dict "final_score" in
  let* score := float py score_value in
  Some [ VStr country_code;
         get result_dict "topic" (VStr "Mood Analysis");
         mood;
         VFloat score;
         get result_dict "introduction" (VStr "");
         get result_dict "conclusion" (VStr "");
         get result_dict "discussion_date" (VStr today);
         get result_dict "total_turns" (VInt 0);
         get result_dict "debate_rounds" (VInt 3) ].

(** [_save_expert_analyses] with [_insert_analysis]: the parameters of
    its INSERTs, one per analysis. Each INSERT is committed on its own:
    when an analysis makes the loop raise, the rows before it are
    already saved, which [None] does not show. *)
Definition _save_expert_analyses (py : Python) (discussion_id : Z)
    (result_dict : list (string * value)) : option (list (list value)) :=
  let* analyses := iter (get result_dict "analyses" (VList [])) in
  fold_option
    (fun rows analysis =>
       let* expert_role := method_get analysis "expert_role" (VStr "Unknown") in
       let* analysis_text := method_get analysis "analysis_text" (VStr "") in
       let* round_number := method_get analysis "round_number" (VInt 1) in
       Some (rows ++ [[ VInt discussion_id; expert_role;
                        VStr (str py analysis_text); round_number ]])%list)
    analyses [].

(** [_save_votes]: the parameters of its INSERTs, committed together
    after the loop, so that nothing is saved when the loop raises. *)
Definition _save_votes (py : Python) (discussion_id : Z)
    (result_dict : list (string * value)) : option (list (list value)) :=
  let* votes := iter (get result_dict "votes" (VList [])) in
  fold_option
    (fun rows vote =>
       let* expert_role := method_get vote "expert_role" (VStr "Unknown") in
       let* vote_mood := method_get vote "vote_mood" (VStr "neutral") in
       let* confidence_value := method_get vote "confidence" (VFloat 0.5) in
       let* confidence := float py confidence_value in
       let* reasoning := method_get vote "reasoning" (VStr "") in
       Some (rows ++ [[ VInt discussion_id; expert_role; vote_mood;
                        VFloat confidence; reasoning ]])%list)
    votes [].

(** [_save_transcript]: as [_save_votes]. *)
Definition _save_transcript (discussion_id : Z)
    (result_dict : list (string * value)) : option (list (list value)) :=
  let* transcripts := iter (get result_dict "transcripts" (VList [])) in
  fold_option
    (fun rows transcript =>
       let* speaker := method_get transcript "speaker" (VStr "unknown") in
       let* content := method_get transcript "content" (VStr "") in
       let* round_number := method_get transcript "round_number" VNone in
       let* turn_order := method_get transcript "turn_order" (VInt 0) in
       Some (rows ++ [[ VInt discussion_id; speaker; content; round_number;
                        turn_order ]])%list)
    transcripts [].


(** The object [_save_to_s3_for_kb] puts. *)
Record S3Object : Type := {
  Bucket : string;
  Key : string;
  Body : string;
  ContentType : string;
  Metadata : list (string * string)
}.

(** [_save_to_s3_for_kb]; [today] stands for [str(date.today())].
    Where the metadata are built [mood] is a string, [upper] having
    been applied to it. *)
Definition _save_to_s3_for_kb (py : Python) (today s3_bucket : string)
    (result_dict : list (string * value)) (country_code : string)
  : option S3Object :=
  let* mood := getitem result_dict "final_mood" in
  let* mood_upper := upper mood in
  let* score := getitem result_dict "final_score" in
  let* score_1f := format_1f score in
  let* introduction :=
    method_get (get result_dict "moderator_introduction" (VDict []))
               "introduction" (VStr "N/A") in
  let kb_document :=
    "# Country Analysis: " ++ country_code ++ Py.nl
    ++ "Date: " ++ today ++ Py.nl
    ++ "Overall Mood: " ++ mood_upper ++ " (" ++ score_1f ++ "/100)" ++ Py.nl
    ++ Py.nl
    ++ "## Introduction" ++ Py.nl
    ++ str py introduction ++ Py.nl
    ++ Py.nl
    ++ "## Expert Analyses" ++ Py.nl in
  let* expert_analyses :=
    items (get result_dict "expert_analyses" (VDict [])) in
  let kb_document :=
    fold_left
      (fun doc '(role, analysis) =>
         doc ++ Py.nl ++ "### " ++ title (replace_char "_" " " role) ++ Py.nl
         ++ str py analysis ++ Py.nl)
      expert_analyses kb_document in
  let* summary :=
    method_get (get result_dict "moderator_conclusion" (VDict []))
               "summary" (VStr "N/A") in
  let kb_document :=
    kb_document ++ Py.nl ++ "## Conclusion" ++ Py.nl ++ str py summary
    ++ Py.nl in
  let kb_document := kb_document ++ Py.nl ++ "## Voting Results" ++ Py.nl in
  let* votes := iter (get result_dict "votes" (VList [])) in
  let* kb_document :=
    fold_option
      (fun doc vote =>
         let* expert := method_get vote "expert" VNone in
         let* vote_mood := method_get vote "mood" VNone in
         let* vote_score := method_get vote "score" VNone in
         let doc :=
           doc ++ "- **" ++ str py expert ++ "**: " ++ str py vote_mood
           ++ " (confidence: " ++ str py vote_score ++ "%)" ++ Py.nl in
         let* vote_reasoning := method_get vote "reasoning" (VStr "N/A") in
         Some (doc ++ "  Reasoning: " ++ str py vote_reasoning ++ Py.nl))
      votes kb_document in
  let file_key :=
    "panel-discussions/" ++ country_code ++ "/" ++ today ++ ".md" in
  Some {| Bucket := s3_bucket;
          Key := file_key;
          Body := kb_document;
          ContentType := "text/markdown";
          Metadata := [ ("country", country_code);
                        ("mood", str py mood);
                        ("score", str py score);
                        ("date", today);
                        ("type", "panel_discussion") ] |}.

End Rds.



(** * Specification-side definitions

    The notions the specification speaks in, written from its words, and
    the sample inputs the statements below are instantiated at. *)

(** ** The score aggregator *)

(** The specification's reading of the aggregator: numeric anchors and
    the two sums of the weighted average. *)
Definition anchor (mood : string) : Q :=
  if String.eqb mood "happy" then 100
  else if String.eqb mood "neutral" then 50
  else 0.

Definition sum_confidence (votes : list Vote) : Q :=
  fold_right (fun v acc => (confidence v + acc)%Q) 0%Q votes.

Definition sum_weighted (votes : list Vote) : Q :=
  fold_right (fun v acc => (anchor (vote_mood v) * confidence v + acc)%Q)
             0%Q votes.

Definition valid_vote (v : Vote) : Prop :=
  In (vote_mood v) ["happy"; "neutral"; "sad"]
  /\ (0 <= confidence v <= 1)%Q.

Definition two_votes : list Vote :=
  [ {| expert_role := "Economic Analyst"; vote_mood := "happy";
       confidence := 1; reasoning := "growth" |};
    {| expert_role := "Environmental Scientist"; vote_mood := "sad";
       confidence := 1; reasoning := "emissions" |} ].

(** Boundary scores, reached with a happy and a sad vote whose
    confidences add up to one. *)
Definition split_vote (happy_share : Q) : list Vote :=
  [ {| expert_role := "Economic Analyst"; vote_mood := "happy";
       confidence := happy_share; reasoning := "" |};
    {| expert_role := "Environmental Scientist"; vote_mood := "sad";
       confidence := 1 - happy_share; reasoning := "" |} ].


Definition mood_and_score_is (r : result (string * Q)) (mood : string)
    (score : Q) : Prop :=
  match r with
  | Ok (m, s) => m = mood /\ (s == score)%Q
  | Raise _ => False
  end.

(** ** The decoders: labelled lines *)

(** A line carries [label] when, lowered and stripped, it starts with
    it; its value is the text after its first colon, stripped. *)
Definition has_label (label line : string) : bool :=
  Py.startswith label (Py.strip (Py.lower line)).

Definition line_value (line : string) : string :=
  match after_colon line with
  | Ok v => Py.strip v
  | Raise _ => ""
  end.

Fixpoint has_char (c : ascii) (s : string) : bool :=
  match s with
  | EmptyString => false
  | String c' s' => (Ascii.eqb c' c || has_char c s')%bool
  end.

(** The last element of a list that satisfies [f]. *)
Definition last_where {A} (f : A -> bool) (l : list A) : option A :=
  find f (rev l).

(** ** The vote decoder *)

Definition is_vote_line : string -> bool := has_label "vote:".
Definition is_confidence_line : string -> bool := has_label "confidence:".
Definition is_reasoning_line : string -> bool := has_label "reasoning:".

(** The mood a value names: happy is looked for before sad. *)
Definition mood_of_value (v : string) : string :=
  if Py.contains "happy" (Py.lower v) then "happy"
  else if Py.contains "sad" (Py.lower v) then "sad"
  else "neutral".

Definition digit_or_period (c : ascii) : bool :=
  (Py.isdigit c || Ascii.eqb c ".")%bool.

Definition clamp (lo hi x : Q) : Q :=
  if Qle_bool x lo then lo else if Qle_bool hi x then hi else x.

(** The confidence a value states: every character but digits and
    periods removed, the rest read as a number, clamped to [0,100] and
    divided by 100; [None] when the rest is not a number. *)
Definition confidence_of_value (v : string) : option Q :=
  match Py.float (Py.filter_chars digit_or_period v) with
  | Ok x => Some (clamp 0 100 x / 100)%Q
  | Raise _ => None
  end.

(** A Confidence line whose value is not a number: the line on which
    the decoder's loop raises. *)
Definition unparseable_line (line : string) : bool :=
  (is_confidence_line line
   && match confidence_of_value (line_value line) with
      | Some _ => false
      | None => true
      end)%bool.

(** The lines the loop gets through: those before the first
    unparseable Confidence line. *)
Fixpoint parsed_prefix (lines : list string) : list string :=
  match lines with
  | [] => []
  | line :: rest =>
      if unparseable_line line then [] else line :: parsed_prefix rest
  end.

Definition vote_lines (response : string) : list string :=
  Py.split Py.nl_char response.

(** The mood and the confidence the decoder is to return: those of the
    last Vote line and of the last Confidence line among the lines it
    gets through, the defaults when there is none. *)
Definition decoded_mood (response : string) : string :=
  match last_where is_vote_line (parsed_prefix (vote_lines response)) with
  | Some line => mood_of_value (line_value line)
  | None => "neutral"
  end.

Definition decoded_confidence (response : string) : Q :=
  match last_where is_confidence_line
                   (parsed_prefix (vote_lines response)) with
  | Some line =>
      match confidence_of_value (line_value line) with
      | Some c => c
      | None => 0.5%Q
      end
  | None => 0.5%Q
  end.

(** Sample responses. *)
Definition two_vote_lines : string :=
  "Vote: Happy" ++ Py.nl ++ "Vote: Sad".

Definition vote_then_bad_confidence : string :=
  "Vote: Happy" ++ Py.nl ++ "Confidence: high".

Definition well_formed_vote : string :=
  "Vote: Happy" ++ Py.nl ++ "Confidence: 85" ++ Py.nl
  ++ "Reasoning: strong growth".

(** The confidence a Confidence line states, the default when its
    value is not a number. *)
Definition stated_confidence (line : string) : Q :=
  match confidence_of_value (line_value line) with
  | Some c => c
  | None => 0.5%Q
  end.

(** The exception the [try] block of the vote decoder ends with, if any. *)
Definition parse_vote_raises (response : string) : option exn :=
  snd (parse_vote_lines vote_defaults (vote_lines response)).

(** ** The routing decoder *)

Definition is_continue_line : string -> bool := has_label "continue:".
Definition is_target_line : string -> bool := has_label "target experts:".

Definition routing_lines_of (response : string) : list string :=
  Py.split Py.nl_char response.

(** What a Continue line says. *)
Definition says_yes (line : string) : bool :=
  Py.contains "yes" (Py.lower (line_value line)).

(** The decision of the Continue lines of a block of lines: that of the
    last one, [default] when there is none. *)
Definition continue_of (default : bool) (lines : list string) : bool :=
  match last_where is_continue_line lines with
  | Some line => says_yes line
  | None => default
  end.

(** The tokens of a value: split on commas, each one trimmed. *)
Definition tokens_of (value : string) : list string :=
  map Py.strip (Py.split "," value).


Definition mentioned (tokens : list string) (role : string) : bool :=
  existsb (mention_matches role) tokens.

(** Duplicates removed, first occurrences kept. *)
Definition add_once (acc : list string) (x : string) : list string :=
  if Py.mem x acc then acc else acc ++ [x].



Definition names_none (value : string) : bool :=
  Py.contains "none" (Py.lower value).
Definition names_all (value : string) : bool :=
  Py.contains "all" (Py.lower value).

(** One line of the routing decoder as a pure step. *)
Definition routing_step (roster : list string) (st : RoutingLocals)
    (line : string) : RoutingLocals :=
  if is_continue_line line then
    {| should_continue := says_yes line;
       target_experts := target_experts st |}
  else if is_target_line line then
    if names_none (line_value line) then
      {| should_continue := false; target_experts := [] |}
    else if names_all (line_value line) then
      {| should_continue := should_continue st; target_experts := roster |}
    else
      {| should_continue := should_continue st;
         target_experts :=
           fold_left add_once
             (filter (mentioned (tokens_of (line_value line))) roster)
             (target_experts st) |}
  else st.

(** Sample roster and routing texts. *)
Definition sample_roster : list string :=
  [ "Economic Analyst"; "Social Welfare Specialist";
    "Environmental Scientist" ].


Definition routing_stop : string :=
  "Continue: No" ++ Py.nl ++ "Target Experts: None" ++ Py.nl
  ++ "Reason: consensus reached".

Definition routing_yes_then_none : string :=
  "Continue: Yes" ++ Py.nl ++ "Target Experts: None".

Definition routing_no_target_line : string := "Continue: Yes".

Definition routing_unknown_expert : string :=
  "Continue: Yes" ++ Py.nl ++ "Target Experts: Historian".

(** ** The orchestrator *)

(** Hoare triples for [M]: from a state in [P], the computation either
    returns [a] in a state with [Q a], or raises [e] in a state with
    [E e]. *)
Definition triple {A} (P : PanelDiscussionStrandsV2 -> Prop) (m : M A)
    (Q : A -> PanelDiscussionStrandsV2 -> Prop)
    (E : exn -> PanelDiscussionStrandsV2 -> Prop) : Prop :=
  forall s, P s ->
    match m s with
    | (Ok a, s') => Q a s'
    | (Raise e, s') => E e s'
    end.

(** The configuration of a panel: its roster and its agents. *)
Definition config (roster : list string) (agents : list (string * ExpertAgent))
    (s : PanelDiscussionStrandsV2) : Prop :=
  self_expert_roles s = roster /\ self_agents s = agents.

(** A usable configuration: a roster that is not empty, an agent for
    the moderator and one for every role of the roster. *)
Definition well_formed (roster : list string)
    (agents : list (string * ExpertAgent)) : Prop :=
  roster <> []
  /\ (exists m, dict_get agents "moderator" = Ok m)
  /\ (forall role, In role roster -> exists a, dict_get agents role = Ok a).

(** A state property that the three ways of changing the state keep:
    appending a turn, appending an analysis, logging a call. *)
Definition stable (I : PanelDiscussionStrandsV2 -> Prop) : Prop :=
  (forall speaker content round_number s,
      I s -> I (snd (_add_transcript speaker content round_number s)))
  /\ (forall a s, I s -> I (snd (append_analysis a s)))
  /\ (forall c s, I s -> I (log_call c s)).

Definition inv (I : PanelDiscussionStrandsV2 -> Prop) (roster : list string)
    (agents : list (string * ExpertAgent)) (s : PanelDiscussionStrandsV2)
  : Prop :=
  I s /\ config roster agents s.

(** An exception escapes only from a configuration that is not usable. *)
Definition exc (I : PanelDiscussionStrandsV2 -> Prop) (roster : list string)
    (agents : list (string * ExpertAgent)) (e : exn)
    (s : PanelDiscussionStrandsV2) : Prop :=
  inv I roster agents s /\ ~ well_formed roster agents.

(** The state [start_discussion] starts from, once it has reset the
    transcript, the analyses and the turn counter. *)
Definition reset (s : PanelDiscussionStrandsV2) : PanelDiscussionStrandsV2 :=
  set_turn_order 0 (set_analyses [] (set_transcripts [] s)).

Definition valid_mood (mood : string) : Prop :=
  In mood ["happy"; "neutral"; "sad"].

(** The invariant of the transcript log: the counter is the number of
    turns, and the turns are numbered 1, 2, ... in order. *)
Definition turn_orders (ts : list Transcript) : list Z := map turn_order ts.

Definition one_to (n : nat) : list Z := map Z.of_nat (seq 1 n).

Definition log_inv (s : PanelDiscussionStrandsV2) : Prop :=
  self_turn_order s = Z.of_nat (List.length (self_transcripts s))
  /\ turn_orders (self_transcripts s)
     = one_to (List.length (self_transcripts s)).

Definition no_inv (s : PanelDiscussionStrandsV2) : Prop := True.

(** The state right after the resets of [start_discussion]. *)
Definition fresh (s : PanelDiscussionStrandsV2) : Prop :=
  self_transcripts s = [] /\ self_analyses s = [] /\ self_turn_order s = 0.

Definition holds_when_fresh (I : PanelDiscussionStrandsV2 -> Prop) : Prop :=
  forall s, fresh s -> I s.

(** What [start_discussion] promises about its result, in the state it
    ends in. *)
Definition result_post (max_rounds : Z) (res : PanelResult)
    (s : PanelDiscussionStrandsV2) : Prop :=
  transcripts res = self_transcripts s
  /\ analyses res = self_analyses s
  /\ total_turns res = Z.of_nat (List.length (self_transcripts s))
  /\ self_transcripts s <> []
  /\ 1 <= debate_rounds res <= Z.max 1 max_rounds.

(** A scripted completion service for the sample runs. The moderator
    asks for a follow-up from the economist as long as fewer than 8
    calls have been made and then stops, every expert votes happy at
    85, and the third completion call of a run fails. *)
Definition scripted_backend : Backend :=
  fun _ _ calls prompt =>
    if Py.contains "Respond in this exact format:" prompt then
      if Py.contains "Continue: [Yes/No]" prompt then
        if Nat.ltb (List.length calls) 8
        then Ok ("Continue: Yes" ++ Py.nl ++ "Target Experts: economic")
        else Ok routing_stop
      else Ok well_formed_vote
    else if Nat.eqb (List.length calls) 2 then Raise (BackendError "timeout")
    else Ok "Noted.".

(** A moderator that always asks to go on and names nobody. *)
Definition eager_backend : Backend :=
  fun _ _ calls prompt =>
    if Py.contains "Continue: [Yes/No]" prompt then Ok routing_no_target_line
    else Ok well_formed_vote.

Definition sample_panel : PanelDiscussionStrandsV2 :=
  create_panel_discussion_strands_v2 scripted_backend default_model_id.

Definition eager_panel : PanelDiscussionStrandsV2 :=
  create_panel_discussion_strands_v2 eager_backend default_model_id.

(** The sample panel with its roster emptied. *)
Definition empty_roster_panel : PanelDiscussionStrandsV2 :=
  {| self_model_id := self_model_id sample_panel;
     self_transcripts := self_transcripts sample_panel;
     self_analyses := self_analyses sample_panel;
     self_turn_order := self_turn_order sample_panel;
     self_expert_roles := [];
     self_agents := self_agents sample_panel;
     history := history sample_panel |}.

Definition empty_result : PanelResult :=
  {| country_code := ""; topic := ""; final_mood := ""; final_score := 0;
     introduction := ""; conclusion := ""; discussion_date := "";
     total_turns := 0; debate_rounds := 0;
     analyses := []; votes := []; transcripts := [] |}.

Definition result_of (run : result PanelResult * PanelDiscussionStrandsV2)
  : PanelResult :=
  match fst run with
  | Ok res => res
  | Raise _ => empty_result
  end.

Abbreviation sample_run max_rounds :=
  (start_discussion "2025-06-01" "JP" "Economic outlook" None max_rounds
                    sample_panel).

(** The turn [_add_transcript] appends. *)
Definition next_turn (speaker content : string) (round_number : option Z)
    (s : PanelDiscussionStrandsV2) : Transcript :=
  {| speaker := speaker;
     content := content;
     round_number := round_number;
     turn_order := self_turn_order s + 1 |}.

Definition economist : ExpertAgent :=
  ExpertAgent_init (fun _ _ _ _ => Raise (BackendError "timeout"))
                   "Economic Analyst" "You are an Economic Analyst expert."
                   default_model_id.

(** Who spoke, and who analysed, in order. *)
Definition speakers (s : PanelDiscussionStrandsV2) : list string :=
  map speaker (self_transcripts s).

Definition analysts (s : PanelDiscussionStrandsV2) : list string :=
  map ea_expert_role (self_analyses s).

(** A completion service that is down. *)
Definition failing_backend : Backend :=
  fun _ _ _ _ => Raise (BackendError "connection refused").

Definition failing_panel : PanelDiscussionStrandsV2 :=
  create_panel_discussion_strands_v2 failing_backend default_model_id.

Abbreviation eager_decision :=
  (_moderator_decide_followup "JP" "Economic outlook" 2 eager_panel).

(** ** Further notions *)

(** How a turn is shown in a prompt. *)
Definition render_turn (t : Transcript) : string :=
  speaker t ++ ": " ++ content t.

Definition moods_valid (votes : list Vote) : Prop :=
  Forall (fun v => valid_mood (vote_mood v)) votes.

Definition sample_turns : list Transcript :=
  [ {| speaker := "Moderator"; content := "Welcome.";
       round_number := None; turn_order := 1 |};
    {| speaker := "Economic Analyst"; content := "Growth is steady.";
       round_number := Some 1; turn_order := 2 |};
    {| speaker := "Environmental Scientist"; content := "Emissions rise.";
       round_number := Some 1; turn_order := 3 |} ].

Definition unknown_mood_votes : list Vote :=
  [ {| expert_role := "Economic Analyst"; vote_mood := "happy";
       confidence := 1; reasoning := "growth" |};
    {| expert_role := "Social Welfare Specialist"; vote_mood := "angry";
       confidence := 0; reasoning := "strikes" |};
    {| expert_role := "Environmental Scientist"; vote_mood := "sad";
       confidence := 1; reasoning := "emissions" |} ].


(** A vote written in the format the voting prompt asks for. *)
Definition format_vote (mood_word digits reason : string) : string :=
  text [ "Vote: " ++ mood_word;
         "Confidence: " ++ digits;
         "Reasoning: " ++ reason ].

Definition mood_words : list string := ["Happy"; "Neutral"; "Sad"].

(** ** Counting turns and analyses *)

(** A state of the configuration with [t] turns and [a] analyses that
    also satisfies [I]. *)
Definition accounts (I : PanelDiscussionStrandsV2 -> Prop)
    (roster : list string) (agents : list (string * ExpertAgent))
    (t a : nat) (s : PanelDiscussionStrandsV2) : Prop :=
  inv I roster agents s
  /\ List.length (self_transcripts s) = t
  /\ List.length (self_analyses s) = a.

Definition any_exit (e : exn) (s : PanelDiscussionStrandsV2) : Prop := True.

(** The first turn of the transcript is [h]. *)
Definition first_turn_is (h : Transcript) (s : PanelDiscussionStrandsV2)
  : Prop :=
  hd_error (self_transcripts s) = Some h.

(** The last turn of the transcript is [h]. *)
Definition last_turn_is (h : Transcript) (ts : list Transcript) : Prop :=
  exists older, ts = (older ++ [h])%list.

(** The turn of a moderator's phase-level statement. *)
Definition moderator_turn (content : string) (order : Z) : Transcript :=
  {| speaker := "Moderator"; content := content;
     round_number := None; turn_order := order |}.

Definition log_with_first (h : Transcript) (s : PanelDiscussionStrandsV2)
  : Prop :=
  log_inv s /\ first_turn_is h s.

(** The number of debate rounds after round 1. *)
Definition later_rounds (res : PanelResult) : nat :=
  Z.to_nat (debate_rounds res - 1).

(** The account of a run, read off its result: one valid vote per role
    in roster order, the verdict of the aggregator on these votes, the
    numbers of turns and analyses against the rounds, and the turns
    that open and close the transcript. *)
Definition run_account (roster : list string) (res : PanelResult) : Prop :=
  map expert_role (votes res) = roster
  /\ Forall valid_vote (votes res)
  /\ _calculate_final_mood (votes res) = Ok (final_mood res, final_score res)
  /\ 1 <= debate_rounds res
  /\ total_turns res = Z.of_nat (List.length (transcripts res))
  /\ (exists k,
        (later_rounds res <= k <= List.length roster * later_rounds res)%nat
        /\ List.length (transcripts res)
           = (4 + 2 * List.length roster + later_rounds res + k)%nat
        /\ List.length (analyses res) = (List.length roster + k)%nat)
  /\ hd_error (transcripts res) = Some (moderator_turn (introduction res) 1)
  /\ last_turn_is (moderator_turn (conclusion res) (total_turns res))
                  (transcripts res).

(** A country record with its news list replaced. *)
Definition with_news (items : list NewsItem) (d : CountryData) : CountryData :=
  {| news := Some items; weather := weather d; other_keys := other_keys d |}.

Definition sample_news : list NewsItem :=
  map (fun t => {| title := Some t |}) ["a"; "b"; "c"; "d"; "e"; "f"; "g"].

Definition sample_country : CountryData :=
  {| news := Some sample_news; weather := None; other_keys := [] |}.

(** ** A completion service that is down *)

Definition always_fails (x : ExpertAgent) : Prop :=
  forall calls prompt, exists e, completion (agent x) calls prompt = Raise e.

(** Every agent of the dictionary fails at every call, and no role name
    spans several lines. *)
Definition outage (agents : list (string * ExpertAgent)) : Prop :=
  forall key x,
    dict_get agents key = Ok x ->
    always_fails x /\ has_char Py.nl_char (role x) = false.

(** The vote decoded from the marker of a failed call. *)
Definition abstention (v : Vote) : Prop :=
  vote_mood v = "neutral"
  /\ confidence v = 0.5%Q
  /\ exists r, reasoning v = error_sentinel r.

Abbreviation failing_run :=
  (start_discussion "2025-06-01" "JP" "Economic outlook" None 5
                    failing_panel).

(** ** The entries of the transcript and of the analyses *)

(** A round number between 1 and [bound], when there is one. *)
Definition round_ok (bound : Z) (rn : option Z) : Prop :=
  match rn with
  | None => True
  | Some n => 1 <= n <= bound
  end.

Definition speaker_ok (roster : list string) (sp : string) : Prop :=
  sp = "Moderator" \/ In sp roster.

Definition turn_ok (roster : list string) (bound : Z) (t : Transcript)
  : Prop :=
  speaker_ok roster (speaker t) /\ round_ok bound (round_number t).

Definition analysis_ok (roster : list string) (bound : Z)
    (a : ExpertAnalysis) : Prop :=
  In (ea_expert_role a) roster /\ 1 <= ea_round_number a <= bound.

(** The turn that records an analysis: same role, text and round. *)
Definition recorded (a : ExpertAnalysis) (t : Transcript) : Prop :=
  speaker t = ea_expert_role a
  /\ content t = analysis_text a
  /\ round_number t = Some (ea_round_number a).

Definition entries_ok (roster : list string) (bound : Z)
    (ts : list Transcript) (an : list ExpertAnalysis) : Prop :=
  Forall (turn_ok roster bound) ts
  /\ Forall (analysis_ok roster bound) an
  /\ Forall (fun a => Exists (recorded a) ts) an.

Definition entries (roster : list string)
    (agents : list (string * ExpertAgent)) (bound : Z)
    (s : PanelDiscussionStrandsV2) : Prop :=
  config roster agents s
  /\ entries_ok roster bound (self_transcripts s) (self_analyses s).

(** ** The completion calls of a run *)

(** The state holds [a] analyses and [c] completion calls have been
    made. *)
Definition counts (roster : list string)
    (agents : list (string * ExpertAgent)) (a c : nat)
    (s : PanelDiscussionStrandsV2) : Prop :=
  config roster agents s
  /\ List.length (self_analyses s) = a
  /\ List.length (history s) = c.

(** The call by which the moderator ends the debate before
    [max_rounds] is reached. *)
Definition closing_call (max_rounds rounds : Z) : nat :=
  if rounds <? max_rounds then 1%nat else 0%nat.

(** ** The percentage of a voting statement *)

(** The stated confidences that the voting statement announces one
    lower on binary64 numbers. *)
Definition announced_one_lower : list Z := [29; 57; 58].

Definition announced_percent (n : Z) : Z :=
  if existsb (Z.eqb n) announced_one_lower then n - 1 else n.

(** Both computations of the percentage agree with the expected values
    at [n]. *)
Definition percent_check (n : Z) : bool :=
  (Z.eqb (Py.int (Py.min 100 (Py.max 0 (inject_Z n)) / 100 * 100)%Q) n
   && match vote_percent_binary64 (confidence_binary64 (float_of_int n)) with
      | Some v => Z.eqb v (announced_percent n)
      | None => false
      end)%bool.

(** ** The shape of a run *)

(** The slot of a turn (who speaks, in which round) and of an
    analysis. *)
Definition slots (ts : list Transcript) : list (string * option Z) :=
  map (fun t => (speaker t, round_number t)) ts.

Definition analysis_slots (an : list ExpertAnalysis) : list (string * Z) :=
  map (fun a => (ea_expert_role a, ea_round_number a)) an.

(** The answers of round [rn] by [voices], as turns and as analyses. *)
Definition answer_slots (rn : option Z) (voices : list string)
  : list (string * option Z) :=
  map (fun voice => (voice, rn)) voices.

Definition answer_analyses (rn : Z) (voices : list string)
  : list (string * Z) :=
  map (fun voice => (voice, rn)) voices.

(** A round: the moderator's question, then the answers. *)
Definition round_slots (rn : Z) (voices : list string)
  : list (string * option Z) :=
  ("Moderator", Some rn) :: answer_slots (Some rn) voices.

(** The rounds from [rn] on, one list of voices per round. *)
Fixpoint later_slots (rn : Z) (rounds : list (list string))
  : list (string * option Z) :=
  match rounds with
  | [] => []
  | voices :: rest => round_slots rn voices ++ later_slots (rn + 1) rest
  end.

Fixpoint later_analyses (rn : Z) (rounds : list (list string))
  : list (string * Z) :=
  match rounds with
  | [] => []
  | voices :: rest => answer_analyses rn voices ++ later_analyses (rn + 1) rest
  end.

(** The turns of a whole run: introduction, round 1 by the roster, the
    later rounds, the call for votes, the voting statements, the
    conclusion. *)
Definition run_slots (roster : list string) (rounds : list (list string))
  : list (string * option Z) :=
  [("Moderator", None)]
  ++ round_slots 1 roster
  ++ later_slots 2 rounds
  ++ [("Moderator", None)]
  ++ answer_slots None roster
  ++ [("Moderator", None)].

Definition run_analyses (roster : list string) (rounds : list (list string))
  : list (string * Z) :=
  answer_analyses 1 roster ++ later_analyses 2 rounds.

(** The voices of a later round: some roles of the roster, at least
    one, at most as many as the roster has. *)
Definition voices_ok (roster voices : list string) : Prop :=
  voices <> [] /\ incl voices roster
  /\ (List.length voices <= List.length roster)%nat.

Definition shape (roster : list string)
    (agents : list (string * ExpertAgent))
    (tl : list (string * option Z)) (al : list (string * Z))
    (s : PanelDiscussionStrandsV2) : Prop :=
  config roster agents s
  /\ slots (self_transcripts s) = tl
  /\ analysis_slots (self_analyses s) = al.

(** ** What the storage adapter saves of a result *)

Definition analysis_row (discussion_id : Z) (a : ExpertAnalysis)
  : list Rds.value :=
  [ Rds.VInt discussion_id; Rds.VStr (ea_expert_role a);
    Rds.VStr (analysis_text a); Rds.VInt (ea_round_number a) ].

Definition vote_row (discussion_id : Z) (v : Vote) : list Rds.value :=
  [ Rds.VInt discussion_id; Rds.VStr (expert_role v);
    Rds.VStr (vote_mood v); Rds.VFloat (confidence v);
    Rds.VStr (reasoning v) ].

Definition transcript_row (discussion_id : Z) (t : Transcript)
  : list Rds.value :=
  [ Rds.VInt discussion_id; Rds.VStr (speaker t); Rds.VStr (content t);
    match round_number t with
    | Some n => Rds.VInt n
    | None => Rds.VNone
    end;
    Rds.VInt (turn_order t) ].

Definition discussion_row (country_code : string) (res : PanelResult)
  : list Rds.value :=
  [ Rds.VStr country_code; Rds.VStr (topic res); Rds.VStr (final_mood res);
    Rds.VFloat (final_score res); Rds.VStr (introduction res);
    Rds.VStr (conclusion res); Rds.VStr (discussion_date res);
    Rds.VInt (total_turns res); Rds.VInt (debate_rounds res) ].

Fixpoint join_all (parts : list string) : string :=
  match parts with
  | [] => ""
  | part :: rest => part ++ join_all rest
  end.

(** The two lines of the knowledge-base document for a vote. *)
Definition kb_vote_lines (v : Vote) : string :=
  "- **None**: None (confidence: None%)" ++ Py.nl
  ++ "  Reasoning: " ++ reasoning v ++ Py.nl.

(** The knowledge-base document of a result. *)
Definition kb_document (today country_code : string) (res : PanelResult)
  : string :=
  "# Country Analysis: " ++ country_code ++ Py.nl
  ++ "Date: " ++ today ++ Py.nl
  ++ "Overall Mood: " ++ Py.upper (final_mood res)
  ++ " (" ++ Py.format_1f (final_score res) ++ "/100)" ++ Py.nl
  ++ Py.nl
  ++ "## Introduction" ++ Py.nl
  ++ "N/A" ++ Py.nl
  ++ Py.nl
  ++ "## Expert Analyses" ++ Py.nl
  ++ Py.nl
  ++ "## Conclusion" ++ Py.nl
  ++ "N/A" ++ Py.nl
  ++ Py.nl
  ++ "## Voting Results" ++ Py.nl
  ++ join_all (map kb_vote_lines (votes res)).

(** A Python for the unmodelled conversions of the sample values. *)
Definition sample_python : Rds.Python :=
  {| Rds.repr := fun _ => "?";
     Rds.float_of_str := fun _ => None;
     Rds.int_of_str := fun _ => None |}.

(** ** What a run leaves alone *)

(** The configuration of [p] and its call log as far as it goes: the
    roster, the agents and the model id are those of [p], and the calls
    of [p] are still the oldest of the log. *)
Definition same_panel (p s : PanelDiscussionStrandsV2) : Prop :=
  self_model_id s = self_model_id p
  /\ exists new, history s = (new ++ history p)%list.

(** * Properties *)

(** ** The score aggregator *)

Lemma mood_values_anchor (mood : string) :
  In mood ["happy"; "neutral"; "sad"] ->
  exists a, mood_values mood = Ok a /\ inject_Z a = anchor mood.
Proof.
  simpl. intros [<- | [<- | [<- | []]]].
  - exists 100. split; reflexivity.
  - exists 50. split; reflexivity.
  - exists 0. split; reflexivity.
Qed.


(** The accumulator loop computes the two sums. *)
Lemma tally_votes_sums (votes : list Vote) :
  Forall valid_vote votes ->
  forall total_score total_weight,
  exists s w,
    tally_votes total_score total_weight votes = Ok (s, w)
    /\ (s == total_score + sum_weighted votes)%Q
    /\ (w == total_weight + sum_confidence votes)%Q.
Proof.
  induction 1 as [| v votes [Hmood _] _ IH]; intros ts tw; simpl.
  - exists ts, tw. repeat split; lra.
  - destruct (mood_values_anchor _ Hmood) as (a & -> & Ha). simpl.
    destruct (IH (ts + inject_Z a * confidence v)%Q (tw + confidence v)%Q)
      as (s & w & -> & Hs & Hw).
    exists s, w. rewrite Ha in Hs. repeat split; lra.
Qed.

Lemma sum_confidence_nonneg (votes : list Vote) :
  Forall valid_vote votes -> (0 <= sum_confidence votes)%Q.
Proof.
  induction 1 as [| v votes [_ Hc] _ IH]; simpl; lra.
Qed.


Lemma Qle_bool_false_lt (a b : Q) : Qle_bool a b = false <-> (b < a)%Q.
Proof.
  rewrite <- not_true_iff_false, Qle_bool_iff. split; [apply Qnot_le_lt | apply Qlt_not_le].
Qed.






(** On binary64 numbers too, an even split of a happy and a sad vote
    scores 50, and no vote at all scores the default 50. *)
Example binary64_even_split :
  _calculate_final_mood_binary64
    [("happy", float_of_int 1); ("sad", float_of_int 1)]
  = Ok ("neutral", float_of_int 50)
  /\ _calculate_final_mood_binary64 [] = Ok ("neutral", float_of_int 50).
Proof. split; vm_compute; reflexivity. Qed.

Example score_67_is_happy :
  mood_and_score_is (_calculate_final_mood (split_vote 0.67)) "happy" 67.
Proof. vm_compute. split; reflexivity. Qed.

Example score_66_999_is_neutral :
  mood_and_score_is (_calculate_final_mood (split_vote 0.66999)) "neutral" 66.999.
Proof. vm_compute. split; reflexivity. Qed.

Example score_34_is_neutral :
  mood_and_score_is (_calculate_final_mood (split_vote 0.34)) "neutral" 34.
Proof. vm_compute. split; reflexivity. Qed.

Example score_33_999_is_sad :
  mood_and_score_is (_calculate_final_mood (split_vote 0.33999)) "sad" 33.999.
Proof. vm_compute. split; reflexivity. Qed.

Example no_votes_is_neutral_50 :
  _calculate_final_mood [] = Ok ("neutral", 50%Q).
Proof. reflexivity. Qed.

Example zero_confidence_is_neutral_50 :
  _calculate_final_mood (map (fun v =>
      {| expert_role := expert_role v; vote_mood := vote_mood v;
         confidence := 0; reasoning := reasoning v |}) two_votes)
  = Ok ("neutral", 50%Q).
Proof. reflexivity. Qed.

(** ** Labelled lines *)

Lemma prefix_has_char (c : ascii) (p s : string) :
  String.prefix p s = true -> has_char c p = true -> has_char c s = true.
Proof.
  revert s. induction p as [| a p IH]; intros s Hp Hc; simpl in *.
  - discriminate.
  - destruct s as [| b s]; simpl in Hp; [discriminate |].
    destruct (ascii_dec a b) as [-> | _]; [| discriminate].
    simpl. apply orb_true_iff in Hc. apply orb_true_iff.
    destruct Hc as [Hc | Hc]; [left; exact Hc | right; apply IH; assumption].
Qed.

Lemma lstrip_has_char (c : ascii) (s : string) :
  has_char c (Py.lstrip s) = true -> has_char c s = true.
Proof.
  induction s as [| a s IH]; simpl; [trivial |].
  destruct (Py.isspace a); [| trivial].
  intros H. rewrite (IH H). apply orb_true_r.
Qed.

Lemma rstrip_has_char (c : ascii) (s : string) :
  has_char c (Py.rstrip s) = true -> has_char c s = true.
Proof.
  induction s as [| a s IH]; simpl; [trivial |].
  destruct (Py.isspace a && Py.is_empty (Py.rstrip s))%bool; simpl.
  - discriminate.
  - intros H. apply orb_true_iff in H. apply orb_true_iff.
    destruct H as [H | H]; [left; exact H | right; apply IH; exact H].
Qed.

Lemma strip_has_char (c : ascii) (s : string) :
  has_char c (Py.strip s) = true -> has_char c s = true.
Proof.
  intros H. apply lstrip_has_char, rstrip_has_char. exact H.
Qed.

Lemma lower_char_colon (a : ascii) :
  Ascii.eqb (Py.lower_char a) ":" = true -> Ascii.eqb a ":" = true.
Proof.
  destruct a as [[] [] [] [] [] [] [] []]; vm_compute; trivial.
Qed.

Lemma lower_has_colon (s : string) :
  has_char ":" (Py.lower s) = true -> has_char ":" s = true.
Proof.
  induction s as [| a s IH]; simpl; [trivial |].
  intros H. apply orb_true_iff in H. apply orb_true_iff.
  destruct H as [H | H]; [left; apply lower_char_colon; exact H | right; auto].
Qed.

Lemma split1_has_char (sep : ascii) (s : string) :
  has_char sep s = true -> exists a b, Py.split1 sep s = [a; b].
Proof.
  induction s as [| c s IH]; simpl; [discriminate |].
  destruct (Ascii.eqb c sep); simpl.
  - intros _. eauto.
  - intros H. destruct (IH H) as (a & b & ->). eauto.
Qed.

(** A line that carries a label with a colon has a first colon, so
    [line.split(':', 1)[1]] does not raise. *)
Lemma labelled_after_colon (label line : string) :
  has_char ":" label = true ->
  has_label label line = true ->
  exists v, after_colon line = Ok v.
Proof.
  intros Hc Hl. unfold has_label, Py.startswith in Hl.
  pose proof (prefix_has_char _ _ _ Hl Hc) as H.
  apply strip_has_char, lower_has_colon in H.
  destruct (split1_has_char _ _ H) as (a & b & E).
  exists b. unfold after_colon. rewrite E. reflexivity.
Qed.

Lemma labelled_line_value (label line : string) :
  has_char ":" label = true ->
  has_label label line = true ->
  after_colon line = Ok (match after_colon line with
                         | Ok v => v
                         | Raise _ => ""
                         end)
  /\ line_value line = Py.strip (match after_colon line with
                                 | Ok v => v
                                 | Raise _ => ""
                                 end).
Proof.
  intros Hc Hl. destruct (labelled_after_colon _ _ Hc Hl) as (v & E).
  unfold line_value. rewrite E. split; reflexivity.
Qed.

(** ** The vote decoder *)

Lemma clamp_min_max (x : Q) : Py.min 100 (Py.max 0 x) = clamp 0 100 x.
Proof.
  unfold Py.min, Py.max, clamp.
  destruct (Qle_bool x 0) eqn:H0.
  - apply Qle_bool_iff in H0.
    destruct (x ?= 0)%Q eqn:C; try reflexivity.
    apply Qgt_alt in C. lra.
  - apply Qle_bool_false_lt in H0.
    destruct (x ?= 0)%Q eqn:C.
    + apply Qeq_alt in C. lra.
    + apply Qlt_alt in C. lra.
    + destruct (Qle_bool 100 x) eqn:H1.
      * apply Qle_bool_iff in H1.
        destruct (x ?= 100)%Q eqn:C1; try reflexivity.
        apply Qlt_alt in C1. lra.
      * apply Qle_bool_false_lt in H1.
        destruct (x ?= 100)%Q eqn:C1; try reflexivity.
        -- apply Qeq_alt in C1. lra.
        -- apply Qgt_alt in C1. lra.
Qed.

(** One iteration of the decoder's loop, by the label of the line. *)
Lemma parse_vote_line_cases (st : VoteLocals) (line : string) :
  parse_vote_line st line =
  if is_vote_line line then
    Ok {| l_mood := mood_of_value (line_value line);
          l_confidence := l_confidence st;
          l_reasoning := l_reasoning st |}
  else if is_confidence_line line then
    match confidence_of_value (line_value line) with
    | Some c => Ok {| l_mood := l_mood st;
                      l_confidence := c;
                      l_reasoning := l_reasoning st |}
    | None => Raise ValueError
    end
  else if is_reasoning_line line then
    Ok {| l_mood := l_mood st;
          l_confidence := l_confidence st;
          l_reasoning := line_value line |}
  else Ok st.
Proof.
  unfold parse_vote_line, is_vote_line, is_confidence_line, is_reasoning_line.
  fold (has_label "vote:" line) (has_label "confidence:" line)
       (has_label "reasoning:" line).
  destruct (has_label "vote:" line) eqn:Hv.
  - destruct (labelled_line_value "vote:" line eq_refl Hv) as [-> ->].
    reflexivity.
  - destruct (has_label "confidence:" line) eqn:Hc.
    + destruct (labelled_line_value "confidence:" line eq_refl Hc) as [-> ->].
      simpl. unfold confidence_of_value.
      fold digit_or_period.
      destruct (Py.float _) as [x | e] eqn:Hf; simpl.
      * rewrite clamp_min_max. reflexivity.
      * unfold Py.float in Hf.
        repeat match type of Hf with
               | match ?l with _ => _ end = _ => destruct l
               | (if ?b then _ else _) = _ => destruct b
               end; congruence.
    + destruct (has_label "reasoning:" line) eqn:Hr; [| reflexivity].
      destruct (labelled_line_value "reasoning:" line eq_refl Hr) as [-> ->].
      reflexivity.
Qed.

Lemma find_app {A} (f : A -> bool) (l1 l2 : list A) :
  find f (l1 ++ l2) =
  match find f l1 with
  | Some x => Some x
  | None => find f l2
  end.
Proof.
  induction l1 as [| a l1 IH]; simpl; [reflexivity |].
  destruct (f a); [reflexivity | exact IH].
Qed.

Lemma last_where_cons {A} (f : A -> bool) (x : A) (l : list A) :
  last_where f (x :: l) =
  match last_where f l with
  | Some y => Some y
  | None => if f x then Some x else None
  end.
Proof.
  unfold last_where. simpl. rewrite find_app. reflexivity.
Qed.

Lemma last_where_filter {A} (f : A -> bool) (l : list A) :
  last_where f l = hd_error (rev (filter f l)).
Proof.
  induction l as [| x l IH]; [reflexivity |].
  rewrite last_where_cons, IH. simpl.
  destruct (f x); simpl.
  - destruct (rev (filter f l)); reflexivity.
  - destruct (rev (filter f l)); reflexivity.
Qed.

Lemma vote_line_not_confidence (line : string) :
  is_vote_line line = true -> is_confidence_line line = false.
Proof.
  unfold is_vote_line, is_confidence_line, has_label, Py.startswith.
  destruct (Py.strip (Py.lower line)) as [| a s];
    cbn [String.prefix]; [discriminate |].
  destruct (ascii_dec "v" a) as [<- | _]; [| intros H; discriminate H].
  intros _. destruct (ascii_dec "c" "v") as [E | _]; [discriminate E | reflexivity].
Qed.

Lemma unparseable_is_confidence (line : string) :
  unparseable_line line = true -> is_confidence_line line = true.
Proof.
  unfold unparseable_line. intros H. apply andb_true_iff in H. tauto.
Qed.

(** The loop of the decoder against the specification-side reading:
    mood and confidence come from the last Vote and Confidence lines of
    the parsed prefix, and the loop raises (a [ValueError]) exactly when
    a line is left out of the prefix. *)
Lemma parse_vote_lines_spec (lines : list string) :
  forall st,
    l_mood (fst (parse_vote_lines st lines)) =
      match last_where is_vote_line (parsed_prefix lines) with
      | Some line => mood_of_value (line_value line)
      | None => l_mood st
      end
    /\ l_confidence (fst (parse_vote_lines st lines)) =
      match last_where is_confidence_line (parsed_prefix lines) with
      | Some line =>
          match confidence_of_value (line_value line) with
          | Some c => c
          | None => 0.5%Q
          end
      | None => l_confidence st
      end
    /\ (snd (parse_vote_lines st lines) = None
        \/ snd (parse_vote_lines st lines) = Some ValueError)
    /\ (snd (parse_vote_lines st lines) = None <->
        existsb unparseable_line lines = false).
Proof.
  induction lines as [| line rest IH]; intros st.
  - simpl. repeat split; auto.
  - cbn [parse_vote_lines parsed_prefix existsb].
    rewrite parse_vote_line_cases.
    destruct (unparseable_line line) eqn:Hu.
    + pose proof (unparseable_is_confidence _ Hu) as Hc'.
      unfold unparseable_line in Hu. rewrite Hc' in Hu.
      destruct (is_vote_line line) eqn:Hv.
      { rewrite (vote_line_not_confidence _ Hv) in Hc'. discriminate. }
      rewrite Hc'.
      destruct (confidence_of_value (line_value line)); [discriminate |].
      simpl. repeat split; auto; discriminate.
    + rewrite !last_where_cons.
      assert (Hstep : exists st',
                 (if is_vote_line line
                  then Ok {| l_mood := mood_of_value (line_value line);
                             l_confidence := l_confidence st;
                             l_reasoning := l_reasoning st |}
                  else if is_confidence_line line
                  then match confidence_of_value (line_value line) with
                       | Some c => Ok {| l_mood := l_mood st;
                                         l_confidence := c;
                                         l_reasoning := l_reasoning st |}
                       | None => Raise ValueError
                       end
                  else if is_reasoning_line line
                  then Ok {| l_mood := l_mood st;
                             l_confidence := l_confidence st;
                             l_reasoning := line_value line |}
                  else Ok st) = Ok st'
                 /\ l_mood st' =
                    (if is_vote_line line
                     then mood_of_value (line_value line) else l_mood st)
                 /\ l_confidence st' =
                    (if is_confidence_line line
                     then match confidence_of_value (line_value line) with
                          | Some c => c
                          | None => 0.5%Q
                          end
                     else l_confidence st)).
      { unfold unparseable_line in Hu.
        destruct (is_vote_line line) eqn:Hv.
        - rewrite (vote_line_not_confidence _ Hv). eauto.
        - destruct (is_confidence_line line).
          + destruct (confidence_of_value (line_value line));
              [eauto | discriminate].
          + destruct (is_reasoning_line line); eauto. }
      destruct Hstep as (st' & -> & Hm' & Hc').
      destruct (IH st') as (Hm & Hc & Hr & Hx).
      rewrite Hm, Hc, Hm', Hc'. simpl.
      repeat split; try tauto.
      * destruct (last_where is_vote_line (parsed_prefix rest));
          [reflexivity |].
        destruct (is_vote_line line); reflexivity.
      * destruct (last_where is_confidence_line (parsed_prefix rest));
          [reflexivity |].
        destruct (is_confidence_line line); reflexivity.
Qed.

Lemma parse_vote_mood (role response : string) :
  vote_mood (_parse_vote role response) = decoded_mood response.
Proof.
  unfold _parse_vote, decoded_mood. fold (vote_lines response).
  destruct (parse_vote_lines_spec (vote_lines response) vote_defaults)
    as (Hm & _).
  destruct (parse_vote_lines vote_defaults (vote_lines response)) as [st r].
  simpl in *. exact Hm.
Qed.

Lemma parse_vote_confidence (role response : string) :
  confidence (_parse_vote role response) = decoded_confidence response.
Proof.
  unfold _parse_vote, decoded_confidence. fold (vote_lines response).
  destruct (parse_vote_lines_spec (vote_lines response) vote_defaults)
    as (_ & Hc & _).
  destruct (parse_vote_lines vote_defaults (vote_lines response)) as [st r].
  simpl in *. exact Hc.
Qed.

(** C5 (amended). The mood is the one named by the value of the last
    Vote line among the lines the decoder gets through (those before
    the first Confidence line whose value is not a number), with happy
    looked for before sad; it is neutral when there is no such line. *)
Theorem parse_vote_mood_last_vote_line (role response : string) :
  vote_mood (_parse_vote role response) =
    match last_where is_vote_line (parsed_prefix (vote_lines response)) with
    | Some line => mood_of_value (line_value line)
    | None => "neutral"
    end
  /\ (forall v, Py.contains "happy" (Py.lower v) = true ->
                mood_of_value v = "happy")
  /\ (forall v, Py.contains "happy" (Py.lower v) = false ->
                Py.contains "sad" (Py.lower v) = true ->
                mood_of_value v = "sad")
  /\ (forall v, Py.contains "happy" (Py.lower v) = false ->
                Py.contains "sad" (Py.lower v) = false ->
                mood_of_value v = "neutral").
Proof.
  split; [apply parse_vote_mood |].
  unfold mood_of_value.
  repeat split; intros v; intros; repeat
    match goal with H : _ = _ |- _ => rewrite H; clear H end; reflexivity.
Qed.

(** C5, as stated, fails: with two Vote lines the first one names
    happy, and the decoder answers sad, the mood of the second. *)
Lemma parse_vote_first_vote_line_counterexample :
  find is_vote_line (vote_lines two_vote_lines) = Some "Vote: Happy"
  /\ mood_of_value (line_value "Vote: Happy") = "happy"
  /\ vote_mood (_parse_vote "Economic Analyst" two_vote_lines) = "sad".
Proof.
  vm_compute. repeat split; reflexivity.
Qed.


Lemma clamp_bounds (x : Q) : (0 <= clamp 0 100 x <= 100)%Q.
Proof.
  unfold clamp.
  destruct (Qle_bool x 0) eqn:H0; [lra |].
  apply Qle_bool_false_lt in H0.
  destruct (Qle_bool 100 x) eqn:H1; [lra |].
  apply Qle_bool_false_lt in H1. lra.
Qed.

Lemma stated_confidence_bounds (line : string) :
  (0 <= stated_confidence line <= 1)%Q.
Proof.
  unfold stated_confidence, confidence_of_value.
  destruct (Py.float _); [| lra].
  pose proof (clamp_bounds a) as Hb.
  split.
  - apply Qle_shift_div_l; lra.
  - apply Qle_shift_div_r; lra.
Qed.

Lemma decoded_confidence_bounds (response : string) :
  (0 <= decoded_confidence response <= 1)%Q.
Proof.
  unfold decoded_confidence.
  destruct (last_where _ _) as [line |]; [| lra].
  apply stated_confidence_bounds.
Qed.



(** The decoder's loop raises exactly on a Confidence line whose value
    is not a number, and only ever a [ValueError]. *)
Lemma parse_vote_raises_iff (response : string) :
  (parse_vote_raises response = None
   \/ parse_vote_raises response = Some ValueError)
  /\ (parse_vote_raises response = None <->
      existsb unparseable_line (vote_lines response) = false).
Proof.
  unfold parse_vote_raises.
  destruct (parse_vote_lines_spec (vote_lines response) vote_defaults)
    as (_ & _ & Hr & Hx).
  split; assumption.
Qed.

(** C7 (amended). When parsing raises, the exception stays inside the
    decoder, which returns a vote whose reasoning is the whole raw
    response and whose mood and confidence are those decoded from the
    lines before the failing one (the defaults neutral and 0.5 when
    these lines set none). *)
Theorem parse_vote_exception_contained (role response : string) (e : exn) :
  parse_vote_raises response = Some e ->
  e = ValueError
  /\ existsb unparseable_line (vote_lines response) = true
  /\ _parse_vote role response =
     {| expert_role := role;
        vote_mood := decoded_mood response;
        confidence := decoded_confidence response;
        reasoning := response |}.
Proof.
  intros He.
  destruct (parse_vote_raises_iff response) as ([Hn | Hv] & Hx).
  - congruence.
  - split; [congruence |]. split.
    + destruct (existsb unparseable_line (vote_lines response));
        [reflexivity |].
      destruct Hx as [_ Hx]. rewrite Hx in He by reflexivity. discriminate.
    + pose proof (parse_vote_mood role response) as Hm.
      pose proof (parse_vote_confidence role response) as Hc.
      unfold parse_vote_raises in He.
      unfold _parse_vote in *. fold (vote_lines response) in *.
      destruct (parse_vote_lines vote_defaults (vote_lines response))
        as [st raised].
      simpl in *. subst raised. rewrite Hm, Hc.
      destruct response; reflexivity.
Qed.

Lemma parse_vote_exception_contained_witness :
  parse_vote_raises vote_then_bad_confidence = Some ValueError
  /\ ValueError = ValueError
  /\ existsb unparseable_line (vote_lines vote_then_bad_confidence) = true
  /\ _parse_vote "Economic Analyst" vote_then_bad_confidence =
     {| expert_role := "Economic Analyst";
        vote_mood := decoded_mood vote_then_bad_confidence;
        confidence := decoded_confidence vote_then_bad_confidence;
        reasoning := vote_then_bad_confidence |}.
Proof.
  split.
  - vm_compute. reflexivity.
  - apply (parse_vote_exception_contained
             "Economic Analyst" vote_then_bad_confidence ValueError).
    vm_compute. reflexivity.
Defined.

(** C7, as stated, fails: parsing raises on the Confidence line, and
    the vote returned keeps the mood happy read from the line before
    it, not the default neutral. *)
Lemma parse_vote_default_on_exception_counterexample :
  parse_vote_raises vote_then_bad_confidence = Some ValueError
  /\ vote_mood (_parse_vote "Economic Analyst" vote_then_bad_confidence)
     = "happy"
  /\ vote_mood (_parse_vote "Economic Analyst" vote_then_bad_confidence)
     <> "neutral".
Proof.
  vm_compute. repeat split; try reflexivity. discriminate.
Qed.

Example parse_vote_round_trip :
  vote_mood (_parse_vote "Economic Analyst" well_formed_vote) = "happy"
  /\ (confidence (_parse_vote "Economic Analyst" well_formed_vote) == 0.85)%Q
  /\ reasoning (_parse_vote "Economic Analyst" well_formed_vote)
     = "strong growth".
Proof. vm_compute. repeat split; reflexivity. Qed.

(** ** The routing decoder *)

Lemma match_mentioned_add_once (expert : string) (tokens targets : list string) :
  match_mentioned expert tokens targets =
  if mentioned tokens expert then add_once targets expert else targets.
Proof.
  unfold mentioned.
  induction tokens as [| tok tokens IH]; simpl; [reflexivity |].
  destruct (mention_matches expert tok); simpl; [reflexivity | exact IH].
Qed.

Lemma match_roster_fold (roster tokens targets : list string) :
  match_roster roster tokens targets =
  fold_left add_once (filter (mentioned tokens) roster) targets.
Proof.
  revert targets.
  induction roster as [| expert roster IH]; intros targets; simpl;
    [reflexivity |].
  rewrite IH, match_mentioned_add_once.
  destruct (mentioned tokens expert); reflexivity.
Qed.


(** One iteration of the routing loop never raises, and is the pure
    step. *)
Lemma routing_line_step (roster : list string) (st : RoutingLocals)
    (line : string) :
  routing_line roster st line = Ok (routing_step roster st line).
Proof.
  unfold routing_line, routing_step, is_continue_line, is_target_line,
    says_yes, names_none, names_all.
  fold (has_label "continue:" line) (has_label "target experts:" line)
       (has_label "reason:" line).
  destruct (has_label "continue:" line) eqn:Hc.
  - destruct (labelled_line_value "continue:" line eq_refl Hc) as [-> ->].
    reflexivity.
  - destruct (has_label "target experts:" line) eqn:Ht.
    + destruct (labelled_line_value "target experts:" line eq_refl Ht)
        as [-> ->].
      simpl.
      destruct (Py.contains "none" _); [reflexivity |].
      destruct (Py.contains "all" _); [reflexivity |].
      rewrite match_roster_fold. reflexivity.
    + destruct (has_label "reason:" line) eqn:Hr; [| reflexivity].
      destruct (labelled_line_value "reason:" line eq_refl Hr) as [-> _].
      reflexivity.
Qed.

Lemma routing_lines_fold (roster : list string) (lines : list string) :
  forall st,
    routing_lines roster st lines = Ok (fold_left (routing_step roster) lines st).
Proof.
  induction lines as [| line rest IH]; intros st; simpl; [reflexivity |].
  rewrite routing_line_step. simpl. apply IH.
Qed.

(** The [except] clause of the routing decoder is never entered. *)
Lemma parse_followup_fold (roster : list string) (response : string) :
  parse_followup roster response =
  let st := fold_left (routing_step roster) (routing_lines_of response)
                      routing_defaults in
  (should_continue st, target_experts st).
Proof.
  unfold parse_followup. fold (routing_lines_of response).
  rewrite routing_lines_fold. reflexivity.
Qed.

(** Lines other than Target Experts lines leave the targets alone and
    let the last Continue line decide. *)
Lemma routing_fold_no_target (roster : list string) (lines : list string) :
  existsb is_target_line lines = false ->
  forall st,
    fold_left (routing_step roster) lines st =
    {| should_continue := continue_of (should_continue st) lines;
       target_experts := target_experts st |}.
Proof.
  unfold continue_of.
  induction lines as [| line rest IH]; intros Hno st.
  - destruct st; reflexivity.
  - simpl in Hno. apply orb_false_iff in Hno. destruct Hno as [Hl Hrest].
    cbn [fold_left]. rewrite (IH Hrest), last_where_cons.
    unfold routing_step. rewrite Hl.
    destruct (last_where is_continue_line rest); [
      destruct (is_continue_line line); reflexivity |].
    destruct (is_continue_line line); reflexivity.
Qed.

Lemma mem_true_iff (x : string) (l : list string) :
  Py.mem x l = true <-> In x l.
Proof.
  unfold Py.mem. rewrite existsb_exists. split.
  - intros (y & Hy & E). apply String.eqb_eq in E. subst. exact Hy.
  - intros H. exists x. split; [exact H | apply String.eqb_refl].
Qed.

Lemma fold_add_once_spec (l : list string) :
  forall acc,
    NoDup acc ->
    NoDup (fold_left add_once l acc)
    /\ (forall x, In x (fold_left add_once l acc) <-> In x acc \/ In x l).
Proof.
  induction l as [| y l IH]; intros acc Hnd; simpl.
  - split; [exact Hnd | intros x; tauto].
  - unfold add_once at 2 4. destruct (Py.mem y acc) eqn:Hm.
    + apply mem_true_iff in Hm.
      destruct (IH acc Hnd) as [H1 H2]. split; [exact H1 |].
      intros x. rewrite H2. split; [tauto |].
      intros [H | [<- | H]]; tauto.
    + assert (Hnin : ~ In y acc).
      { intros Hin. apply mem_true_iff in Hin. congruence. }
      assert (Hnd' : NoDup (acc ++ [y])).
      { apply NoDup_app; [exact Hnd | repeat constructor; simpl; tauto |].
        intros a Ha [<- | []]. contradiction. }
      destruct (IH (acc ++ [y])%list Hnd') as [H1 H2]. split; [exact H1 |].
      intros x. rewrite H2, in_app_iff. simpl. tauto.
Qed.





Example routing_none_overrides_yes :
  parse_followup sample_roster routing_yes_then_none = (false, []).
Proof. reflexivity. Qed.

Example routing_stop_example :
  parse_followup sample_roster routing_stop = (false, []).
Proof. reflexivity. Qed.

(** ** A program logic for the orchestrator *)

Lemma triple_ret {A} (P : PanelDiscussionStrandsV2 -> Prop) (a : A)
    (Q : A -> PanelDiscussionStrandsV2 -> Prop) E :
  (forall s, P s -> Q a s) -> triple P (ret a) Q E.
Proof. intros H s Hs. simpl. auto. Qed.

Lemma triple_bind {A B} P (m : M A) (k : A -> M B) R Q E :
  triple P m R E ->
  (forall a, triple (R a) (k a) Q E) ->
  triple P (bind m k) Q E.
Proof.
  intros Hm Hk s Hs. unfold bind. specialize (Hm s Hs).
  destruct (m s) as [[a | e] s1]; [| exact Hm].
  exact (Hk a s1 Hm).
Qed.

Lemma triple_weaken {A} (P P' : PanelDiscussionStrandsV2 -> Prop) (m : M A)
    (Q Q' : A -> PanelDiscussionStrandsV2 -> Prop)
    (E E' : exn -> PanelDiscussionStrandsV2 -> Prop) :
  triple P m Q E ->
  (forall s, P' s -> P s) ->
  (forall a s, Q a s -> Q' a s) ->
  (forall e s, E e s -> E' e s) ->
  triple P' m Q' E'.
Proof.
  intros H HP HQ HE s Hs. specialize (H s (HP s Hs)).
  destruct (m s) as [[a | e] s1]; auto.
Qed.

Lemma triple_pre {A} (P P' : PanelDiscussionStrandsV2 -> Prop) (m : M A) Q E :
  triple P m Q E -> (forall s, P' s -> P s) -> triple P' m Q E.
Proof. intros H HP s Hs. exact (H s (HP s Hs)). Qed.

Lemma triple_assume {A} (fact : Prop) P (m : M A) Q E :
  (fact -> triple P m Q E) ->
  triple (fun s => P s /\ fact) m Q E.
Proof. intros H s [Hs Hf]. exact (H Hf s Hs). Qed.

Lemma triple_gets {A} P (f : PanelDiscussionStrandsV2 -> A) E :
  triple P (gets f) (fun a s => P s /\ a = f s) E.
Proof. intros s Hs. simpl. auto. Qed.

Lemma triple_lift_ok {A} P (r : result A) (a : A) E :
  r = Ok a ->
  triple P (lift r) (fun a' s => P s /\ a' = a) E.
Proof. intros -> s Hs. simpl. auto. Qed.

Lemma triple_for_each {A} (J : PanelDiscussionStrandsV2 -> Prop)
    (l : list A) (body : A -> M unit) E :
  (forall x, In x l -> triple J (body x) (fun _ => J) E) ->
  triple J (for_each l body) (fun _ => J) E.
Proof.
  induction l as [| x l IH]; intros Hbody; simpl.
  - apply triple_ret. auto.
  - eapply triple_bind.
    + apply Hbody. left. reflexivity.
    + intros ?. apply IH. intros y Hy. apply Hbody. right. exact Hy.
Qed.

Lemma triple_for_fold {A B} (J : B -> PanelDiscussionStrandsV2 -> Prop)
    (l : list A) (body : B -> A -> M B) E :
  (forall acc x, In x l -> triple (J acc) (body acc x) J E) ->
  forall acc, triple (J acc) (for_fold l acc body) J E.
Proof.
  induction l as [| x l IH]; intros Hbody acc; simpl.
  - apply triple_ret. auto.
  - eapply triple_bind.
    + apply Hbody. left. reflexivity.
    + intros acc'. apply IH. intros a y Hy. apply Hbody. right. exact Hy.
Qed.

Lemma debate_loop_step (cc tp : string) (max_rounds round_num : Z)
    (self : PanelDiscussionStrandsV2) :
  debate_loop cc tp max_rounds round_num self =
  if round_num <=? max_rounds then
    match debate_body cc tp round_num self with
    | (Ok true, self') => debate_loop cc tp max_rounds (round_num + 1) self'
    | (Ok false, self') => (Ok round_num, self')
    | (Raise e, self') => (Raise e, self')
    end
  else (Ok round_num, self).
Proof.
  funelim (debate_loop cc tp max_rounds round_num self);
    try match goal with
        | H : (_ <=? _) = _ |- _ => rewrite H
        end;
    try match goal with
        | H : debate_body _ _ _ _ = _ |- _ => rewrite H
        end;
    reflexivity.
Qed.

Lemma add_transcript_run (sp c : string) (rn : option Z)
    (s : PanelDiscussionStrandsV2) :
  _add_transcript sp c rn s =
  (Ok tt,
   set_transcripts
     (self_transcripts s
      ++ [ {| speaker := sp; content := c; round_number := rn;
              turn_order := self_turn_order s + 1 |} ])
     (set_turn_order (self_turn_order s + 1) s)).
Proof. reflexivity. Qed.

Lemma append_analysis_run (a : ExpertAnalysis) (s : PanelDiscussionStrandsV2) :
  append_analysis a s = (Ok tt, set_analyses (self_analyses s ++ [a]) s).
Proof. reflexivity. Qed.

Lemma dict_get_key {A} (d : list (string * A)) (key : string) (e : exn) :
  dict_get d key = Raise e -> e = KeyError key.
Proof.
  induction d as [| [k v] d IH]; simpl; [congruence |].
  destruct (String.eqb k key); [discriminate | exact IH].
Qed.

Lemma mood_of_value_valid (v : string) : valid_mood (mood_of_value v).
Proof.
  unfold mood_of_value, valid_mood.
  destruct (Py.contains "happy" _); [simpl; tauto |].
  destruct (Py.contains "sad" _); simpl; tauto.
Qed.

(** Every vote the decoder returns is one the aggregator accepts. *)
Lemma parse_vote_valid (role response : string) :
  valid_vote (_parse_vote role response).
Proof.
  split.
  - rewrite parse_vote_mood. unfold decoded_mood.
    destruct (last_where _ _); [apply mood_of_value_valid | simpl; tauto].
  - rewrite parse_vote_confidence. apply decoded_confidence_bounds.
Qed.

Lemma calculate_final_mood_total (votes : list Vote) :
  Forall valid_vote votes ->
  exists mood score, _calculate_final_mood votes = Ok (mood, score).
Proof.
  intros Hvalid.
  destruct (tally_votes_sums votes Hvalid 0%Q 0%Q) as (s & w & Htally & _).
  unfold _calculate_final_mood. rewrite Htally. simpl.
  destruct (Qeq_bool w 0); [eauto |].
  destruct (Qle_bool 67 (s / w)); [eauto |].
  destruct (Qle_bool 34 (s / w)); eauto.
Qed.

Lemma fold_add_once_incl (roster l acc : list string) :
  incl l roster -> incl acc roster -> incl (fold_left add_once l acc) roster.
Proof.
  revert acc. induction l as [| x l IH]; intros acc Hl Hacc; simpl;
    [exact Hacc |].
  apply IH.
  - intros y Hy. apply Hl. right. exact Hy.
  - unfold add_once. destruct (Py.mem x acc); [exact Hacc |].
    intros y Hy. apply in_app_iff in Hy. destruct Hy as [Hy | [<- | []]].
    + apply Hacc. exact Hy.
    + apply Hl. left. reflexivity.
Qed.

Lemma routing_step_incl (roster : list string) (st : RoutingLocals)
    (line : string) :
  incl (target_experts st) roster ->
  incl (target_experts (routing_step roster st line)) roster.
Proof.
  intros Hst. unfold routing_step.
  destruct (is_continue_line line); [exact Hst |].
  destruct (is_target_line line); [| exact Hst].
  destruct (names_none _); [intros x [] |].
  destruct (names_all _); [apply incl_refl |].
  simpl. apply fold_add_once_incl; [| exact Hst].
  intros x Hx. apply filter_In in Hx. tauto.
Qed.

(** The routing decoder only ever targets roles of the roster. *)
Lemma parse_followup_incl (roster : list string) (response : string) :
  incl (snd (parse_followup roster response)) roster.
Proof.
  rewrite parse_followup_fold. simpl.
  generalize (routing_lines_of response). intros lines.
  assert (H : forall st, incl (target_experts st) roster ->
                         incl (target_experts
                                 (fold_left (routing_step roster) lines st))
                              roster).
  { induction lines as [| line lines IH]; intros st Hst; simpl; [exact Hst |].
    apply IH, routing_step_incl, Hst. }
  apply H. intros x [].
Qed.

Section OrchestratorLogic.

Variable roster : list string.
Variable agents : list (string * ExpertAgent).
Variable I : PanelDiscussionStrandsV2 -> Prop.
Hypothesis I_stable : stable I.

Local Abbreviation Inv := (inv I roster agents).
Local Abbreviation Exc := (exc I roster agents).

Lemma add_transcript_triple (sp c : string) (rn : option Z) :
  triple Inv (_add_transcript sp c rn) (fun _ => Inv) Exc.
Proof.
  intros s [HI Hc]. destruct I_stable as (Hadd & _ & _).
  specialize (Hadd sp c rn s HI).
  rewrite add_transcript_run in *. simpl in *.
  split; [exact Hadd | exact Hc].
Qed.

Lemma append_analysis_triple (a : ExpertAnalysis) :
  triple Inv (append_analysis a) (fun _ => Inv) Exc.
Proof.
  intros s [HI Hc]. destruct I_stable as (_ & Han & _).
  specialize (Han a s HI).
  rewrite append_analysis_run in *. simpl in *.
  split; [exact Han | exact Hc].
Qed.

Lemma get_recent_discussion_triple (n : nat) :
  triple Inv (_get_recent_discussion n) (fun _ => Inv) Exc.
Proof. intros s Hs. simpl. exact Hs. Qed.

Lemma respond_triple (a : ExpertAgent) (prompt : string) :
  triple Inv (respond a prompt) (fun _ => Inv) Exc.
Proof.
  intros s [HI Hc]. destruct I_stable as (_ & _ & Hcall).
  simpl. split; [apply Hcall; exact HI | exact Hc].
Qed.

Lemma agent_of_triple (key : string) :
  key = "moderator" \/ In key roster ->
  triple Inv (agent_of key) (fun _ => Inv) Exc.
Proof.
  intros Hkey s [HI [Hr Ha]]. unfold agent_of, bind, gets, lift.
  rewrite Ha.
  destruct (dict_get agents key) as [a | e] eqn:Hget.
  - split; [exact HI | split; assumption].
  - split; [split; [exact HI | split; assumption] |].
    intros (_ & (m & Hm) & Hroles).
    destruct Hkey as [-> | Hin].
    + congruence.
    + destruct (Hroles key Hin) as (a & Hk). congruence.
Qed.


Lemma gets_roles_triple :
  triple Inv (gets self_expert_roles) (fun a s => Inv s /\ a = roster) Exc.
Proof. intros s Hs. simpl. split; [exact Hs |]. apply Hs. Qed.

Lemma first_role_triple :
  triple Inv (lift (Py.item roster 0)) (fun _ => Inv) Exc.
Proof.
  intros s Hs. unfold lift, Py.item.
  destruct roster as [| role0 rest] eqn:Hr; simpl.
  - split; [exact Hs |]. intros (Hne & _). apply Hne. reflexivity.
  - exact Hs.
Qed.

Ltac prim m :=
  lazymatch m with
  | _add_transcript _ _ _ => apply add_transcript_triple
  | append_analysis _ => apply append_analysis_triple
  | _get_recent_discussion _ => apply get_recent_discussion_triple
  | respond _ _ => apply respond_triple
  | agent_of _ => apply agent_of_triple; solve [auto]
  | lift (Py.item _ 0) => apply first_role_triple
  end.

Ltac mstep :=
  lazymatch goal with
  | |- triple _ (ret _) _ _ => apply triple_ret; solve [auto]
  | |- triple _ (bind ?m _) _ _ => eapply triple_bind; [prim m | intros ?]
  | |- triple _ ?m _ _ => prim m
  end.

Lemma moderator_introduce_triple (cc tp context : string) :
  triple Inv (_moderator_introduce cc tp context) (fun _ => Inv) Exc.
Proof. unfold _moderator_introduce. repeat mstep. Qed.

Lemma moderator_conclude_triple (cc mood : string) (score : Q) :
  triple Inv (_moderator_conclude cc mood score)
         (fun _ s => Inv s /\ self_transcripts s <> []) Exc.
Proof.
  unfold _moderator_conclude. mstep. mstep. mstep.
  apply triple_bind with
    (R := fun _ s => Inv s /\ self_transcripts s <> []).
  - intros s Hs. pose proof (add_transcript_triple "Moderator" a1 None s Hs) as H.
    rewrite add_transcript_run in *. split; [exact H |].
    simpl. intros E. apply app_eq_nil in E. destruct E as [_ E]. discriminate.
  - intros ?. apply triple_ret. auto.
Qed.

Lemma collect_round_analyses_triple (cc tp context : string)
    (round_number : Z) (is_first : bool) :
  triple Inv (_collect_round_analyses cc tp context round_number is_first)
         (fun _ => Inv) Exc.
Proof.
  unfold _collect_round_analyses.
  eapply triple_bind; [apply gets_roles_triple |].
  intros roles. apply triple_assume. intros ->.
  apply triple_bind with (R := fun _ => Inv).
  { destruct is_first; repeat mstep. }
  intros q. mstep.
  apply triple_for_each. intros role Hrole.
  apply triple_bind with (R := fun _ => Inv).
  { destruct is_first; repeat mstep. }
  intros prompt. repeat mstep.
Qed.

Lemma moderator_decide_followup_triple (cc tp : string) (round_number : Z) :
  triple Inv (_moderator_decide_followup cc tp round_number)
         (fun res s => Inv s /\ incl (snd res) roster) Exc.
Proof.
  unfold _moderator_decide_followup. mstep.
  eapply triple_bind; [apply gets_roles_triple |].
  intros roles. apply triple_assume. intros ->.
  mstep. mstep. apply triple_ret.
  intros s Hs. split; [exact Hs | apply parse_followup_incl].
Qed.

Lemma conduct_dynamic_debate_round_triple (cc tp : string)
    (round_number : Z) (targets : list string) :
  incl targets roster ->
  triple Inv (_conduct_dynamic_debate_round cc tp round_number targets)
         (fun _ => Inv) Exc.
Proof.
  intros Hincl. unfold _conduct_dynamic_debate_round.
  eapply triple_bind; [apply gets_roles_triple |].
  intros roles. apply triple_assume. intros ->.
  mstep. mstep. mstep. mstep.
  apply triple_for_each. intros role Hrole.
  assert (Hin : In role roster).
  { destruct targets; [exact Hrole | apply Hincl, Hrole]. }
  repeat mstep.
Qed.

Lemma debate_body_triple (cc tp : string) (round_num : Z) :
  triple Inv (debate_body cc tp round_num) (fun _ => Inv) Exc.
Proof.
  unfold debate_body.
  eapply triple_bind; [apply moderator_decide_followup_triple |].
  intros [should targets]. simpl. apply triple_assume. intros Hincl.
  destruct should; simpl.
  - eapply triple_bind;
      [apply conduct_dynamic_debate_round_triple; exact Hincl |].
    intros ?. apply triple_ret. auto.
  - apply triple_ret. auto.
Qed.

(** The loop ends with [round_num] between its first value and
    [max_rounds + 1]. *)
Lemma debate_loop_triple (cc tp : string) (max_rounds : Z) :
  forall (n : nat) (round_num : Z),
    Z.to_nat (max_rounds + 1 - round_num) = n ->
    triple Inv (debate_loop cc tp max_rounds round_num)
           (fun r s => Inv s
                       /\ round_num <= r <= Z.max round_num (max_rounds + 1))
           Exc.
Proof.
  induction n as [| n IH]; intros round_num Hn s Hs;
    rewrite debate_loop_step;
    destruct (round_num <=? max_rounds) eqn:Hle;
    try (apply Z.leb_le in Hle; lia);
    try (split; [exact Hs | lia]).
  pose proof (debate_body_triple cc tp round_num s Hs) as Hbody.
  destruct (debate_body cc tp round_num s) as [[[|] | e] s1].
  - assert (Hn' : Z.to_nat (max_rounds + 1 - (round_num + 1)) = n)
      by (apply Z.leb_le in Hle; lia).
    pose proof (IH (round_num + 1) Hn' s1 Hbody) as Hrec.
    destruct (debate_loop cc tp max_rounds (round_num + 1) s1)
      as [[r | e] s2]; [| exact Hrec].
    destruct Hrec as [Hinv Hr]. split; [exact Hinv |].
    apply Z.leb_le in Hle. lia.
  - split; [exact Hbody |]. apply Z.leb_le in Hle. lia.
  - exact Hbody.
Qed.

Lemma conduct_voting_triple (cc : string) :
  triple Inv (_conduct_voting cc)
         (fun votes s => Inv s /\ Forall valid_vote votes) Exc.
Proof.
  unfold _conduct_voting. mstep. mstep.
  eapply triple_bind; [apply gets_roles_triple |].
  intros roles. apply triple_assume. intros ->.
  apply triple_pre with (P := fun s => Inv s /\ Forall valid_vote []).
  - apply (triple_for_fold
             (fun votes s => Inv s /\ Forall valid_vote votes)).
    intros votes role Hrole. apply triple_assume. intros Hvotes.
    mstep. mstep. mstep. apply triple_ret. intros s Hs.
    split; [exact Hs |].
    apply Forall_app. split; [exact Hvotes |].
    constructor; [apply parse_vote_valid | constructor].
  - intros s Hs. split; [exact Hs | constructor].
Qed.

Hypothesis I_fresh : holds_when_fresh I.

(** [start_discussion], from any state of the configuration: the
    state it ends in satisfies the invariant, the result reports the
    transcript of that state and a round count between 1 and
    [max_rounds] (1 when [max_rounds] is less); an exception escapes
    only when the configuration is not usable. *)
Lemma start_discussion_triple (today cc tp : string)
    (data : option CountryData) (max_rounds : Z) :
  triple (config roster agents)
         (start_discussion today cc tp data max_rounds)
         (fun res s => Inv s /\ result_post max_rounds res s) Exc.
Proof.
  unfold start_discussion.
  apply triple_bind with
    (R := fun _ s => config roster agents s /\ self_transcripts s = []).
  { intros s Hs. simpl. split; [exact Hs | reflexivity]. }
  intros ?.
  apply triple_bind with
    (R := fun _ s => config roster agents s /\ self_transcripts s = []
                     /\ self_analyses s = []).
  { intros s (Hc & Ht). simpl. repeat split; try apply Hc; assumption. }
  intros ?.
  apply triple_bind with (R := fun _ => Inv).
  { intros s (Hc & Ht & Ha). simpl. split; [| exact Hc].
    apply I_fresh. repeat split; assumption. }
  intros ?.
  eapply triple_bind; [apply moderator_introduce_triple |].
  intros intro.
  eapply triple_bind; [apply collect_round_analyses_triple |].
  intros ?.
  eapply triple_bind; [apply (debate_loop_triple cc tp max_rounds _ 2 eq_refl) |].
  intros round_num. apply triple_assume. intros Hround.
  eapply triple_bind; [apply conduct_voting_triple |].
  intros votes. apply triple_assume. intros Hvotes.
  destruct (calculate_final_mood_total votes Hvotes) as (mood & score & Hcalc).
  eapply triple_bind; [apply (triple_lift_ok _ _ _ _ Hcalc) |].
  intros [mood' score']. apply triple_assume. intros Hms.
  eapply triple_bind; [apply moderator_conclude_triple |].
  intros concl.
  eapply triple_bind; [apply triple_gets |].
  intros ts.
  eapply triple_bind; [apply triple_gets |].
  intros an.
  apply triple_ret.
  intros s (((Hs & Hne) & Hts) & Han). split; [exact Hs |].
  unfold result_post. simpl. subst ts an.
  repeat split; try lia. exact Hne.
Qed.

End OrchestratorLogic.

(** ** The transcript log *)

Lemma one_to_succ (n : nat) :
  one_to (S n) = (one_to n ++ [Z.of_nat n + 1])%list.
Proof.
  unfold one_to. rewrite seq_S, map_app. simpl.
  f_equal. f_equal. lia.
Qed.

Lemma log_inv_stable : stable log_inv.
Proof.
  repeat split.
  - destruct H as [Hn _]. rewrite add_transcript_run. simpl.
    rewrite length_app. simpl. lia.
  - destruct H as [Hn Hts]. rewrite add_transcript_run. simpl.
    unfold turn_orders in *. rewrite map_app, length_app, Hts. simpl.
    rewrite Nat.add_1_r, one_to_succ, Hn. reflexivity.
  - apply H.
  - apply H.
  - apply H.
  - apply H.
Qed.

Lemma log_inv_fresh : holds_when_fresh log_inv.
Proof.
  intros s (Ht & _ & Hn). unfold log_inv. rewrite Ht, Hn. split; reflexivity.
Qed.

Lemma one_to_NoDup (n : nat) : NoDup (one_to n).
Proof.
  unfold one_to. generalize (seq_NoDup n 1).
  induction 1 as [| k l Hk _ IH]; simpl; constructor; [| exact IH].
  rewrite in_map_iff. intros (j & Hj & Hin).
  apply Nat2Z.inj in Hj. subst j. contradiction.
Qed.

(** C2. A run that returns reports as [total_turns] the length of its
    transcript, whose turn orders are exactly 1, 2, ..., [total_turns],
    without duplicate or gap; the number of a turn is set by
    [_add_transcript] alone, which takes no turn number from its caller
    and gives the appended turn the next one. *)
Theorem start_discussion_turn_orders (s s' : PanelDiscussionStrandsV2)
    (today cc tp : string) (data : option CountryData) (max_rounds : Z)
    (res : PanelResult) :
  start_discussion today cc tp data max_rounds s = (Ok res, s') ->
  total_turns res = Z.of_nat (List.length (transcripts res))
  /\ turn_orders (transcripts res) = one_to (Z.to_nat (total_turns res))
  /\ NoDup (turn_orders (transcripts res))
  /\ (forall speaker content round_number p,
        _add_transcript speaker content round_number p =
        (Ok tt,
         set_transcripts
           (self_transcripts p ++ [next_turn speaker content round_number p])
           (set_turn_order (self_turn_order p + 1) p))).
Proof.
  intros Hrun.
  pose proof (start_discussion_triple (self_expert_roles s) (self_agents s)
                log_inv log_inv_stable log_inv_fresh
                today cc tp data max_rounds s (conj eq_refl eq_refl)) as H.
  rewrite Hrun in H.
  destruct H as (((_ & Hlog) & _) & Hts & _ & Htotal & _).
  rewrite Hts, Htotal, Nat2Z.id.
  repeat split.
  - exact Hlog.
  - rewrite Hlog. apply one_to_NoDup.
Qed.

Lemma sample_run_returns :
  sample_run 5 = (Ok (result_of (sample_run 5)), snd (sample_run 5)).
Proof. vm_compute. reflexivity. Qed.

Lemma start_discussion_turn_orders_witness :
  sample_run 5 = (Ok (result_of (sample_run 5)), snd (sample_run 5))
  /\ total_turns (result_of (sample_run 5))
     = Z.of_nat (List.length (transcripts (result_of (sample_run 5))))
  /\ turn_orders (transcripts (result_of (sample_run 5)))
     = one_to (Z.to_nat (total_turns (result_of (sample_run 5))))
  /\ NoDup (turn_orders (transcripts (result_of (sample_run 5)))).
Proof.
  split; [exact sample_run_returns |].
  destruct (start_discussion_turn_orders _ _ _ _ _ _ _ _ sample_run_returns)
    as (H1 & H2 & H3 & _).
  split; [exact H1 |]. split; [exact H2 | exact H3].
Defined.

Example sample_run_turn_orders :
  turn_orders (transcripts (result_of (sample_run 5)))
  = [1; 2; 3; 4; 5; 6; 7; 8; 9; 10; 11; 12; 13; 14]
  /\ total_turns (result_of (sample_run 5)) = 14.
Proof. vm_compute. split; reflexivity. Qed.

(** ** The round count *)

Lemma no_inv_stable : stable no_inv.
Proof. repeat split. Qed.

Lemma no_inv_fresh : holds_when_fresh no_inv.
Proof. intros s _. exact Logic.I. Qed.

Lemma debate_body_stop (cc tp : string) (round_num : Z)
    (s s1 : PanelDiscussionStrandsV2) (targets : list string) :
  _moderator_decide_followup cc tp round_num s = (Ok (false, targets), s1) ->
  debate_body cc tp round_num s = (Ok false, s1).
Proof.
  intros H. unfold debate_body, bind. rewrite H. reflexivity.
Qed.

(** C3. With [max_rounds >= 1], a run that returns reports between 1
    and [max_rounds] rounds: round 1 always counts and the loop, which
    starts at round 2, runs at most up to [max_rounds]. When the
    moderator's decision for a round is continue = false, the loop ends
    there with the round not conducted and not counted. *)
Theorem debate_rounds_bounds (s s' : PanelDiscussionStrandsV2)
    (today cc tp : string) (data : option CountryData) (max_rounds : Z)
    (res : PanelResult) :
  1 <= max_rounds ->
  start_discussion today cc tp data max_rounds s = (Ok res, s') ->
  1 <= debate_rounds res <= max_rounds
  /\ (forall round_num p p1 targets,
        round_num <= max_rounds ->
        _moderator_decide_followup cc tp round_num p
          = (Ok (false, targets), p1) ->
        debate_loop cc tp max_rounds round_num p = (Ok round_num, p1))
  /\ (forall round_num p,
        max_rounds < round_num ->
        debate_loop cc tp max_rounds round_num p = (Ok round_num, p)).
Proof.
  intros Hmax Hrun.
  pose proof (start_discussion_triple (self_expert_roles s) (self_agents s)
                no_inv no_inv_stable no_inv_fresh
                today cc tp data max_rounds s (conj eq_refl eq_refl)) as H.
  rewrite Hrun in H.
  destruct H as (_ & _ & _ & _ & _ & Hrounds).
  split; [lia |]. split.
  - intros round_num p p1 targets Hle Hdecide.
    rewrite debate_loop_step.
    apply Z.leb_le in Hle. rewrite Hle.
    rewrite (debate_body_stop _ _ _ _ _ _ Hdecide). reflexivity.
  - intros round_num p Hlt. rewrite debate_loop_step.
    apply Z.leb_gt in Hlt. rewrite Hlt. reflexivity.
Qed.

Lemma debate_rounds_bounds_witness :
  1 <= 5
  /\ sample_run 5 = (Ok (result_of (sample_run 5)), snd (sample_run 5))
  /\ 1 <= debate_rounds (result_of (sample_run 5)) <= 5.
Proof.
  assert (Hmax : 1 <= 5) by lia.
  split; [exact Hmax |]. split; [exact sample_run_returns |].
  destruct (debate_rounds_bounds _ _ _ _ _ _ _ _ Hmax sample_run_returns)
    as [H _].
  exact H.
Defined.

Example sample_run_rounds :
  debate_rounds (result_of (sample_run 5)) = 3
  /\ debate_rounds (result_of (sample_run 1)) = 1.
Proof. vm_compute. split; reflexivity. Qed.

(** ** Respondent failures *)

Lemma prefix_append (s t : string) : String.prefix s (s ++ t) = true.
Proof.
  induction s as [| c s IH]; simpl.
  - destruct t; reflexivity.
  - destruct (ascii_dec c c) as [_ | Hne]; [exact IH | contradiction].
Qed.

Lemma contains_prefix_append (sub t : string) :
  Py.contains sub (sub ++ t) = true.
Proof.
  destruct (sub ++ t)%string as [| c u] eqn:E.
  - destruct sub; [reflexivity | discriminate].
  - cbn [Py.contains]. rewrite <- E, prefix_append. reflexivity.
Qed.

Lemma contains_append (sub p s : string) :
  Py.contains sub s = true -> Py.contains sub (p ++ s) = true.
Proof.
  intros H. induction p as [| c p IH]; simpl; [exact H |].
  rewrite IH. apply orb_true_r.
Qed.

Lemma sentinel_names_role (role : string) :
  Py.contains role (error_sentinel role) = true.
Proof.
  unfold error_sentinel. apply contains_append, contains_prefix_append.
Qed.

(** [start_discussion] returns from every usable configuration,
    whatever the agents answer and whether or not they fail. *)
Lemma start_discussion_returns (p : PanelDiscussionStrandsV2)
    (today cc tp : string) (data : option CountryData) (max_rounds : Z) :
  well_formed (self_expert_roles p) (self_agents p) ->
  exists res p',
    start_discussion today cc tp data max_rounds p = (Ok res, p')
    /\ result_post max_rounds res p'.
Proof.
  intros Hwf.
  pose proof (start_discussion_triple (self_expert_roles p) (self_agents p)
                no_inv no_inv_stable no_inv_fresh
                today cc tp data max_rounds p (conj eq_refl eq_refl)) as H.
  destruct (start_discussion today cc tp data max_rounds p) as [[res | e] p'].
  - exists res, p'. split; [reflexivity | apply H].
  - destruct H as [_ Hnot]. contradiction.
Qed.

Lemma init_well_formed (backend : Backend) (model_id : string) :
  well_formed
    (self_expert_roles (create_panel_discussion_strands_v2 backend model_id))
    (self_agents (create_panel_discussion_strands_v2 backend model_id)).
Proof.
  split; [discriminate |]. split.
  - eexists. reflexivity.
  - intros role [<- | [<- | [<- | []]]]; eexists; reflexivity.
Qed.

(** C9. When the completion behind a respondent raises, [respond]
    returns the marker naming the role instead of raising; [respond]
    never raises; and a run over a usable configuration returns a
    result whatever the completions do. *)
Theorem respond_isolates_failure (a : ExpertAgent) (prompt : string)
    (s : PanelDiscussionStrandsV2) (e : exn) :
  completion (agent a) (history s) prompt = Raise e ->
  respond a prompt s =
    (Ok (error_sentinel (role a)),
     log_call {| call_role := role a; call_prompt := prompt |} s)
  /\ error_sentinel (role a) = "[Error from " ++ role a ++ "]"
  /\ Py.contains (role a) (error_sentinel (role a)) = true
  /\ (forall a' prompt' p, exists answer p',
        respond a' prompt' p = (Ok answer, p'))
  /\ (forall p today cc tp data max_rounds,
        well_formed (self_expert_roles p) (self_agents p) ->
        exists res p',
          start_discussion today cc tp data max_rounds p = (Ok res, p')).
Proof.
  intros Hfail. split; [| split; [| split; [| split]]].
  - unfold respond. rewrite Hfail. reflexivity.
  - reflexivity.
  - apply sentinel_names_role.
  - intros a' prompt' p. unfold respond. eauto.
  - intros p today cc tp data max_rounds Hwf.
    destruct (start_discussion_returns p today cc tp data max_rounds Hwf)
      as (res & p' & Hrun & _).
    eauto.
Qed.

Lemma respond_isolates_failure_witness :
  completion (agent economist) (history sample_panel) "Your view?"
    = Raise (BackendError "timeout")
  /\ respond economist "Your view?" sample_panel =
     (Ok "[Error from Economic Analyst]",
      log_call {| call_role := "Economic Analyst";
                  call_prompt := "Your view?" |} sample_panel).
Proof.
  split; [reflexivity |].
  apply (respond_isolates_failure economist "Your view?" sample_panel
           (BackendError "timeout")).
  reflexivity.
Defined.

(** With every completion failing, the run still returns: the markers
    decode to the defaults, the moderator's marker stops the debate
    after round 1, and the verdict is neutral at 50. *)
Example failing_panel_run :
  match fst (start_discussion "2025-06-01" "JP" "Economic outlook" None 5
                              failing_panel) with
  | Ok res =>
      final_mood res = "neutral" /\ (final_score res == 50)%Q
      /\ debate_rounds res = 1 /\ total_turns res = 10
  | Raise _ => False
  end.
Proof. vm_compute. repeat split; reflexivity. Qed.

(** ** Configuration *)




Example empty_roster_run :
  fst (start_discussion "2025-06-01" "JP" "Economic outlook" None 5
                        empty_roster_panel) = Raise IndexError
  /\ speakers (snd (start_discussion "2025-06-01" "JP" "Economic outlook"
                                     None 5 empty_roster_panel))
     = ["Moderator"].
Proof. vm_compute. split; reflexivity. Qed.

(** ** Empty target sets *)

Lemma bind_gets {A B} (f : PanelDiscussionStrandsV2 -> A) (k : A -> M B)
    (s : PanelDiscussionStrandsV2) :
  bind (gets f) k s = k (f s) s.
Proof. reflexivity. Qed.

(** An empty target list is replaced by the roster. *)
Lemma conduct_round_empty_targets (cc tp : string) (round_number : Z)
    (s : PanelDiscussionStrandsV2) :
  _conduct_dynamic_debate_round cc tp round_number [] s =
  _conduct_dynamic_debate_round cc tp round_number (self_expert_roles s) s.
Proof.
  unfold _conduct_dynamic_debate_round. rewrite !bind_gets.
  destruct (self_expert_roles s); reflexivity.
Qed.

(** A loop in which each role speaks once and is analysed once. *)
Lemma for_each_appends (roster : list string)
    (agents : list (string * ExpertAgent)) (body : string -> M unit)
    (l : list string) :
  (forall role s,
      In role l -> config roster agents s ->
      exists s',
        body role s = (Ok tt, s')
        /\ config roster agents s'
        /\ speakers s' = (speakers s ++ [role])%list
        /\ analysts s' = (analysts s ++ [role])%list) ->
  forall s,
    config roster agents s ->
    exists s',
      for_each l body s = (Ok tt, s')
      /\ config roster agents s'
      /\ speakers s' = (speakers s ++ l)%list
      /\ analysts s' = (analysts s ++ l)%list.
Proof.
  induction l as [| role l IH]; intros Hbody s Hs.
  - exists s. simpl. rewrite !app_nil_r. auto.
  - destruct (Hbody role s (or_introl eq_refl) Hs)
      as (s1 & Hrun & Hs1 & Hsp & Han).
    destruct (IH (fun r' s' Hin => Hbody r' s' (or_intror Hin)) s1 Hs1)
      as (s2 & Hrest & Hs2 & Hsp2 & Han2).
    exists s2. cbn [for_each]. unfold bind at 1. rewrite Hrun.
    split; [exact Hrest |]. split; [exact Hs2 |].
    rewrite Hsp2, Han2, Hsp, Han, <- !app_assoc. split; reflexivity.
Qed.

(** A round put to the whole roster: the moderator speaks, then every
    role of the roster, in order, speaks and is analysed. *)
Lemma conduct_round_all (roster : list string)
    (agents : list (string * ExpertAgent)) (cc tp : string)
    (round_number : Z) (s : PanelDiscussionStrandsV2) :
  well_formed roster agents ->
  config roster agents s ->
  exists s',
    _conduct_dynamic_debate_round cc tp round_number roster s = (Ok tt, s')
    /\ config roster agents s'
    /\ speakers s' = (speakers s ++ "Moderator" :: roster)%list
    /\ analysts s' = (analysts s ++ roster)%list.
Proof.
  intros (Hne & (m & Hm) & Hroles) Hs.
  destruct s as [mid ts an n roles ags calls].
  destruct Hs as [Hr Ha]. cbn in Hr, Ha. subst roles ags.
  cbv [_conduct_dynamic_debate_round agent_of bind gets lift ret respond
       _get_recent_discussion _add_transcript modify
       set_transcripts set_turn_order log_call
       self_agents self_expert_roles self_transcripts self_turn_order
       self_analyses history].
  rewrite Hm.
  cbv [bind gets lift ret modify
       set_transcripts set_turn_order log_call
       self_agents self_expert_roles self_transcripts self_turn_order
       self_analyses history].
  replace (match roster with [] => roster | _ :: _ => roster end)
    with roster by (destruct roster; reflexivity).
  match goal with
  | |- exists s', for_each ?l ?body ?s1 = _ /\ _ =>
      destruct (for_each_appends roster agents body l) with (s := s1)
        as (s2 & Hrun & Hs2 & Hsp & Han)
  end.
  - intros role p Hrole Hp.
    destruct p as [mid' ts' an' n' roles' ags' calls'].
    destruct Hp as [Hpr Hpa]. cbn in Hpr, Hpa. subst roles' ags'.
    destruct (Hroles role Hrole) as (a & Hget).
    cbv [self_agents]. rewrite Hget.
    eexists. split; [reflexivity |].
    unfold config, speakers, analysts. cbn.
    rewrite !map_app. cbn. auto.
  - split; reflexivity.
  - exists s2. split; [exact Hrun |]. split; [exact Hs2 |].
    rewrite Hsp, Han. unfold speakers, analysts. cbn.
    rewrite map_app, <- app_assoc. cbn. split; reflexivity.
Qed.

Lemma decide_followup_keeps_config (cc tp : string) (round_number : Z)
    (s s1 : PanelDiscussionStrandsV2) (r : result (bool * list string)) :
  _moderator_decide_followup cc tp round_number s = (r, s1) ->
  self_expert_roles s1 = self_expert_roles s
  /\ self_agents s1 = self_agents s.
Proof.
  intros Hrun.
  pose proof (moderator_decide_followup_triple
                (self_expert_roles s) (self_agents s) no_inv no_inv_stable
                cc tp round_number s (conj Logic.I (conj eq_refl eq_refl)))
    as H.
  rewrite Hrun in H. destruct r as [res | e].
  - destruct H as ((_ & Hc) & _). exact Hc.
  - destruct H as ((_ & Hc) & _). exact Hc.
Qed.

(** C10. When the moderator's decision for a round is continue = true
    with no target, the round is conducted, and with the whole roster:
    the moderator's question is followed by one answer and one analysis
    from every role of the roster, in roster order, and the loop goes
    on. An empty target list and the roster are the same request; a
    missing Target Experts line, and a line naming nobody of the
    roster, both give such a decision. *)
Theorem empty_targets_ask_everyone (cc tp : string) (round_num : Z)
    (s s1 : PanelDiscussionStrandsV2) :
  _moderator_decide_followup cc tp round_num s = (Ok (true, []), s1) ->
  well_formed (self_expert_roles s) (self_agents s) ->
  (exists s2,
      debate_body cc tp round_num s = (Ok true, s2)
      /\ _conduct_dynamic_debate_round cc tp round_num
           (self_expert_roles s) s1 = (Ok tt, s2)
      /\ speakers s2
         = (speakers s1 ++ "Moderator" :: self_expert_roles s)%list
      /\ analysts s2 = (analysts s1 ++ self_expert_roles s)%list)
  /\ (forall p,
        _conduct_dynamic_debate_round cc tp round_num [] p =
        _conduct_dynamic_debate_round cc tp round_num (self_expert_roles p) p)
  /\ parse_followup sample_roster routing_no_target_line = (true, [])
  /\ parse_followup sample_roster routing_unknown_expert = (true, []).
Proof.
  intros Hdecide Hwf.
  destruct (decide_followup_keeps_config _ _ _ _ _ _ Hdecide) as [Hr Ha].
  split; [| split; [| split]].
  - destruct (conduct_round_all (self_expert_roles s) (self_agents s)
                cc tp round_num s1 Hwf (conj Hr Ha))
      as (s2 & Hrun & _ & Hsp & Han).
    exists s2. split; [| split; [exact Hrun | split; assumption]].
    unfold debate_body. unfold bind at 1. rewrite Hdecide.
    cbn [negb]. unfold bind at 1.
    rewrite conduct_round_empty_targets, Hr, Hrun. reflexivity.
  - intros p. apply conduct_round_empty_targets.
  - reflexivity.
  - reflexivity.
Qed.

Lemma eager_decision_is_empty :
  eager_decision = (Ok (true, []), snd eager_decision).
Proof. vm_compute. reflexivity. Qed.

Lemma empty_targets_ask_everyone_witness :
  eager_decision = (Ok (true, []), snd eager_decision)
  /\ well_formed (self_expert_roles eager_panel) (self_agents eager_panel)
  /\ exists s2,
       debate_body "JP" "Economic outlook" 2 eager_panel = (Ok true, s2)
       /\ _conduct_dynamic_debate_round "JP" "Economic outlook" 2
            (self_expert_roles eager_panel) (snd eager_decision) = (Ok tt, s2)
       /\ speakers s2
          = (speakers (snd eager_decision)
             ++ "Moderator" :: self_expert_roles eager_panel)%list
       /\ analysts s2
          = (analysts (snd eager_decision)
             ++ self_expert_roles eager_panel)%list.
Proof.
  pose proof (init_well_formed eager_backend default_model_id) as Hwf.
  split; [exact eager_decision_is_empty |].
  split; [exact Hwf |].
  destruct (empty_targets_ask_everyone _ _ _ _ _ eager_decision_is_empty Hwf)
    as [H _].
  exact H.
Defined.

Example eager_round_speakers :
  speakers (snd (debate_body "JP" "Economic outlook" 2 eager_panel))
  = [ "Moderator"; "Economic Analyst"; "Social Welfare Specialist";
      "Environmental Scientist" ].
Proof. vm_compute. reflexivity. Qed.

(** * Further properties *)

(** ** The recent-discussion window *)

Lemma last_n_suffix {A} (n : nat) (l : list A) :
  exists older,
    l = (older ++ Py.last_n n l)%list
    /\ List.length (Py.last_n n l)
       = match n with
         | O => List.length l
         | S _ => Nat.min n (List.length l)
         end.
Proof.
  unfold Py.last_n, Py.slice_last.
  destruct (Nat.ltb n (List.length l)) eqn:Hlt.
  - apply Nat.ltb_lt in Hlt. destruct n as [| k].
    + exists []. split; reflexivity.
    + exists (firstn (List.length l - S k) l). split.
      * symmetry. apply firstn_skipn.
      * rewrite length_skipn. lia.
  - apply Nat.ltb_ge in Hlt. exists []. split; [reflexivity |].
    destruct n; lia.
Qed.

(** The window of [_get_recent_discussion]: it reads the last
    [num_turns] turns of the transcript (all of them when there are
    fewer), leaves the state alone, and with [num_turns = 0] it reads
    the whole transcript, not an empty window. *)
Theorem get_recent_discussion_window (num_turns : nat)
    (s : PanelDiscussionStrandsV2) :
  exists older recent,
    self_transcripts s = (older ++ recent)%list
    /\ List.length recent
       = match num_turns with
         | O => List.length (self_transcripts s)
         | S _ => Nat.min num_turns (List.length (self_transcripts s))
         end
    /\ _get_recent_discussion num_turns s
       = (Ok (Py.join (Py.nl ++ Py.nl) (map render_turn recent)), s).
Proof.
  destruct (last_n_suffix num_turns (self_transcripts s)) as (older & Hl & Hn).
  exists older, (Py.last_n num_turns (self_transcripts s)).
  split; [exact Hl |]. split; [exact Hn | reflexivity].
Qed.

Example recent_discussion_zero_window :
  Py.last_n 0 sample_turns = sample_turns
  /\ Py.last_n 2 sample_turns = skipn 1 sample_turns
  /\ Py.last_n 5 sample_turns = sample_turns.
Proof. repeat split. Qed.

(** ** The routing decoder on any text *)

Lemma fold_add_once_NoDup (l acc : list string) :
  NoDup acc -> NoDup (fold_left add_once l acc).
Proof. intros H. apply (fold_add_once_spec l acc H). Qed.

Lemma routing_step_NoDup (roster : list string) (st : RoutingLocals)
    (line : string) :
  NoDup roster ->
  NoDup (target_experts st) ->
  NoDup (target_experts (routing_step roster st line)).
Proof.
  intros Hr Hst. unfold routing_step.
  destruct (is_continue_line line); [exact Hst |].
  destruct (is_target_line line); [| exact Hst].
  destruct (names_none _); [constructor |].
  destruct (names_all _); [exact Hr |].
  simpl. apply fold_add_once_NoDup, Hst.
Qed.

Lemma parse_followup_NoDup (roster : list string) (response : string) :
  NoDup roster -> NoDup (snd (parse_followup roster response)).
Proof.
  intros Hr. rewrite parse_followup_fold. simpl.
  generalize (routing_lines_of response). intros lines.
  assert (H : forall st, NoDup (target_experts st) ->
                         NoDup (target_experts
                                  (fold_left (routing_step roster) lines st))).
  { induction lines as [| line lines IH]; intros st Hst; simpl; [exact Hst |].
    apply IH, routing_step_NoDup; assumption. }
  apply H. constructor.
Qed.

Lemma fold_add_once_present (l acc : list string) :
  (forall x, In x l -> In x acc) -> fold_left add_once l acc = acc.
Proof.
  induction l as [| y l IH]; intros H; simpl; [reflexivity |].
  unfold add_once at 2.
  assert (Hy : Py.mem y acc = true).
  { apply mem_true_iff, H. left. reflexivity. }
  rewrite Hy. apply IH. intros x Hx. apply H. right. exact Hx.
Qed.

Lemma routing_step_few (roster : list string) (st : RoutingLocals)
    (line : string) :
  NoDup (target_experts st) \/ target_experts st = roster ->
  NoDup (target_experts (routing_step roster st line))
  \/ target_experts (routing_step roster st line) = roster.
Proof.
  intros Hst. unfold routing_step.
  destruct (is_continue_line line); [exact Hst |].
  destruct (is_target_line line); [| exact Hst].
  destruct (names_none _); [left; constructor |].
  destruct (names_all _); [right; reflexivity |].
  simpl. destruct Hst as [Hnd | Heq].
  - left. apply fold_add_once_NoDup, Hnd.
  - right. rewrite Heq. apply fold_add_once_present.
    intros x Hx. apply filter_In in Hx. tauto.
Qed.

(** The routing decoder never returns more targets than the roster has
    entries. *)
Lemma parse_followup_length (roster : list string) (response : string) :
  (List.length (snd (parse_followup roster response))
   <= List.length roster)%nat.
Proof.
  pose proof (parse_followup_incl roster response) as Hincl.
  revert Hincl. rewrite parse_followup_fold. simpl.
  generalize (routing_lines_of response). intros lines.
  assert (H : forall st,
             NoDup (target_experts st) \/ target_experts st = roster ->
             let st' := fold_left (routing_step roster) lines st in
             NoDup (target_experts st') \/ target_experts st' = roster).
  { induction lines as [| line lines IH]; intros st Hst; simpl; [exact Hst |].
    apply IH, routing_step_few, Hst. }
  intros Hincl.
  destruct (H routing_defaults) as [Hnd | Heq]; [left; constructor | |].
  - apply NoDup_incl_length; assumption.
  - cbv zeta in Heq. rewrite Heq. apply Nat.le_refl.
Qed.

(** Whatever the moderator writes, the routing decoder only targets
    roles of the roster, never more of them than the roster has
    entries, and no role twice when the roster names none twice: the
    agents of the targets can always be looked up. *)
Theorem parse_followup_targets_in_roster (roster : list string)
    (response : string) :
  incl (snd (parse_followup roster response)) roster
  /\ (List.length (snd (parse_followup roster response))
      <= List.length roster)%nat
  /\ (NoDup roster -> NoDup (snd (parse_followup roster response))).
Proof.
  split; [apply parse_followup_incl |].
  split; [apply parse_followup_length | apply parse_followup_NoDup].
Qed.

Lemma continue_of_no_continue (default : bool) (lines : list string) :
  existsb is_continue_line lines = false ->
  continue_of default lines = default.
Proof.
  intros H. unfold continue_of. rewrite last_where_filter.
  assert (E : filter is_continue_line lines = []).
  { induction lines as [| l lines IH]; [reflexivity |].
    simpl in *. apply orb_false_iff in H. destruct H as [-> H]. auto. }
  rewrite E. reflexivity.
Qed.

(** The line loop of the routing decoder never raises, so its
    fail-open fallback is never taken; and a text with neither a
    Continue line nor a Target Experts line, such as the marker of a
    failed moderator call, means stop with no target. *)
Theorem parse_followup_never_falls_back (roster : list string)
    (response : string) :
  (exists st,
      routing_lines roster routing_defaults (routing_lines_of response) = Ok st
      /\ parse_followup roster response
         = (should_continue st, target_experts st))
  /\ (existsb is_continue_line (routing_lines_of response) = false ->
      existsb is_target_line (routing_lines_of response) = false ->
      parse_followup roster response = (false, []))
  /\ parse_followup roster (error_sentinel "Moderator") = (false, []).
Proof.
  split; [| split].
  - eexists. split; [apply routing_lines_fold |].
    apply parse_followup_fold.
  - intros Hc Ht. rewrite parse_followup_fold. cbv zeta.
    rewrite (routing_fold_no_target roster _ Ht).
    rewrite (continue_of_no_continue _ _ Hc). reflexivity.
  - reflexivity.
Qed.

(** ** The aggregator on any votes *)

Lemma tally_votes_moods_valid (votes : list Vote) :
  moods_valid votes ->
  forall ts tw, exists s w, tally_votes ts tw votes = Ok (s, w).
Proof.
  induction 1 as [| v votes Hv _ IH]; intros ts tw; simpl; [eauto |].
  destruct (mood_values_anchor _ Hv) as (a & -> & _). simpl. apply IH.
Qed.

Lemma mood_values_unknown (mood : string) :
  ~ valid_mood mood -> mood_values mood = Raise (KeyError mood).
Proof.
  intros H. unfold mood_values, valid_mood in *. simpl in H.
  destruct (String.eqb mood "happy") eqn:E1;
    [apply String.eqb_eq in E1; subst; tauto |].
  destruct (String.eqb mood "neutral") eqn:E2;
    [apply String.eqb_eq in E2; subst; tauto |].
  destruct (String.eqb mood "sad") eqn:E3;
    [apply String.eqb_eq in E3; subst; tauto |].
  reflexivity.
Qed.

Lemma tally_votes_unknown (pre : list Vote) (v : Vote) (post : list Vote) :
  moods_valid pre ->
  ~ valid_mood (vote_mood v) ->
  forall ts tw,
    tally_votes ts tw (pre ++ v :: post) = Raise (KeyError (vote_mood v)).
Proof.
  induction 1 as [| u pre Hu _ IH]; intros Hv ts tw; simpl.
  - rewrite (mood_values_unknown _ Hv). reflexivity.
  - destruct (mood_values_anchor _ Hu) as (a & -> & _). simpl. apply IH, Hv.
Qed.

(** The aggregator returns for any votes whose moods are happy, neutral
    or sad, whatever their confidences; a vote with any other mood
    makes it raise a [KeyError] for the first such mood, even when that
    vote weighs nothing. *)
Theorem calculate_final_mood_key_error (votes : list Vote) :
  (moods_valid votes ->
   exists mood score, _calculate_final_mood votes = Ok (mood, score))
  /\ (forall pre v post,
        votes = (pre ++ v :: post)%list ->
        moods_valid pre ->
        ~ valid_mood (vote_mood v) ->
        _calculate_final_mood votes = Raise (KeyError (vote_mood v))).
Proof.
  split.
  - intros Hvalid.
    destruct (tally_votes_moods_valid votes Hvalid 0%Q 0%Q) as (s & w & Ht).
    unfold _calculate_final_mood. rewrite Ht. simpl.
    destruct (Qeq_bool w 0); [eauto |].
    destruct (Qle_bool 67 (s / w)); [eauto |].
    destruct (Qle_bool 34 (s / w)); eauto.
  - intros pre v post -> Hpre Hv.
    unfold _calculate_final_mood.
    rewrite (tally_votes_unknown pre v post Hpre Hv). reflexivity.
Qed.

Example unknown_mood_raises :
  _calculate_final_mood unknown_mood_votes = Raise (KeyError "angry").
Proof. reflexivity. Qed.

Lemma sum_weighted_unanimous (votes : list Vote) (mood : string) :
  Forall (fun v => vote_mood v = mood) votes ->
  (sum_weighted votes == anchor mood * sum_confidence votes)%Q.
Proof.
  induction 1 as [| v votes Hv _ IH]; simpl; [lra |].
  rewrite Hv, IH. lra.
Qed.




(** ** The reasoning of a decoded vote *)

Lemma reasoning_line_not_vote (line : string) :
  is_reasoning_line line = true -> is_vote_line line = false.
Proof.
  unfold is_vote_line, is_reasoning_line, has_label, Py.startswith.
  destruct (Py.strip (Py.lower line)) as [| a s];
    cbn [String.prefix]; [discriminate |].
  destruct (ascii_dec "r" a) as [<- | _]; [| intros H; discriminate H].
  intros _. destruct (ascii_dec "v" "r") as [E | _]; [discriminate E | reflexivity].
Qed.

Lemma reasoning_line_not_confidence (line : string) :
  is_reasoning_line line = true -> is_confidence_line line = false.
Proof.
  unfold is_confidence_line, is_reasoning_line, has_label, Py.startswith.
  destruct (Py.strip (Py.lower line)) as [| a s];
    cbn [String.prefix]; [discriminate |].
  destruct (ascii_dec "r" a) as [<- | _]; [| intros H; discriminate H].
  intros _. destruct (ascii_dec "c" "r") as [E | _]; [discriminate E | reflexivity].
Qed.

(** When the loop gets through all lines, the reasoning it leaves is
    the value of the last Reasoning line. *)
Lemma parse_vote_lines_reasoning (lines : list string) :
  forall st,
    snd (parse_vote_lines st lines) = None ->
    l_reasoning (fst (parse_vote_lines st lines)) =
    match last_where is_reasoning_line lines with
    | Some line => line_value line
    | None => l_reasoning st
    end.
Proof.
  induction lines as [| line rest IH]; intros st Hok; [reflexivity |].
  cbn [parse_vote_lines] in *. rewrite parse_vote_line_cases in *.
  rewrite last_where_cons.
  destruct (is_vote_line line) eqn:Hv.
  - rewrite (IH _ Hok). cbn [l_reasoning].
    destruct (last_where is_reasoning_line rest); [reflexivity |].
    destruct (is_reasoning_line line) eqn:Hr; [| reflexivity].
    rewrite (reasoning_line_not_vote _ Hr) in Hv. discriminate.
  - destruct (is_confidence_line line) eqn:Hc.
    + destruct (confidence_of_value (line_value line)) as [c |];
        [| discriminate Hok].
      rewrite (IH _ Hok). cbn [l_reasoning].
      destruct (last_where is_reasoning_line rest); [reflexivity |].
      destruct (is_reasoning_line line) eqn:Hr; [| reflexivity].
      rewrite (reasoning_line_not_confidence _ Hr) in Hc. discriminate.
    + destruct (is_reasoning_line line) eqn:Hr.
      * rewrite (IH _ Hok). cbn [l_reasoning].
        destruct (last_where is_reasoning_line rest); reflexivity.
      * rewrite (IH _ Hok).
        destruct (last_where is_reasoning_line rest); reflexivity.
Qed.

Lemma parse_vote_reasoning (role response : string) :
  reasoning (_parse_vote role response) =
    match parse_vote_raises response with
    | Some _ => response
    | None =>
        match last_where is_reasoning_line (vote_lines response) with
        | Some line =>
            if Py.is_empty (line_value line) then response
            else line_value line
        | None => response
        end
    end.
Proof.
  unfold _parse_vote, parse_vote_raises. fold (vote_lines response).
  pose proof (parse_vote_lines_reasoning (vote_lines response) vote_defaults)
    as Hr.
  destruct (parse_vote_lines vote_defaults (vote_lines response))
    as [st raised].
  cbn [fst snd reasoning] in *.
  destruct raised as [e |].
  - destruct response; reflexivity.
  - rewrite (Hr eq_refl). cbn [l_reasoning vote_defaults].
    destruct (last_where is_reasoning_line (vote_lines response));
      reflexivity.
Qed.

(** The reasoning of a decoded vote is the stripped value of the last
    Reasoning line when no line makes the decoder raise and that value
    is not empty; in every other case it is the whole raw response.
    So it is empty only for an empty response. *)
Theorem parse_vote_reasoning_spec (role response : string) :
  reasoning (_parse_vote role response) =
    match parse_vote_raises response with
    | Some _ => response
    | None =>
        match last_where is_reasoning_line (vote_lines response) with
        | Some line =>
            if Py.is_empty (line_value line) then response
            else line_value line
        | None => response
        end
    end
  /\ (reasoning (_parse_vote role response) = "" <-> response = "").
Proof.
  split; [apply parse_vote_reasoning |]. split.
  - rewrite parse_vote_reasoning. intros H.
    destruct (parse_vote_raises response); [exact H |].
    destruct (last_where is_reasoning_line (vote_lines response)) as [line |];
      [| exact H].
    destruct (line_value line) eqn:E; [exact H | discriminate H].
  - intros ->. reflexivity.
Qed.

(** ** Decoding a vote written in the prompt's format *)

Lemma split_append (sep : ascii) (a b : string) :
  has_char sep a = false ->
  Py.split sep (a ++ String sep b) = a :: Py.split sep b.
Proof.
  induction a as [| c a IH]; intros H; cbn [append Py.split].
  - rewrite Ascii.eqb_refl. reflexivity.
  - cbn [has_char] in H. apply orb_false_iff in H. destruct H as [Hc Ha].
    rewrite Hc, (IH Ha). reflexivity.
Qed.

Lemma split_no_sep (sep : ascii) (a : string) :
  has_char sep a = false -> Py.split sep a = [a].
Proof.
  induction a as [| c a IH]; intros H; cbn [Py.split]; [reflexivity |].
  cbn [has_char] in H. apply orb_false_iff in H. destruct H as [Hc Ha].
  rewrite Hc, (IH Ha). reflexivity.
Qed.

Lemma split1_no_sep (sep : ascii) (a : string) :
  has_char sep a = false -> Py.split1 sep a = [a].
Proof.
  induction a as [| c a IH]; intros H; cbn [Py.split1]; [reflexivity |].
  cbn [has_char] in H. apply orb_false_iff in H. destruct H as [Hc Ha].
  rewrite Hc, (IH Ha). reflexivity.
Qed.

Lemma has_char_append (c : ascii) (a b : string) :
  has_char c (a ++ b) = (has_char c a || has_char c b)%bool.
Proof.
  induction a as [| x a IH]; cbn [append has_char]; [reflexivity |].
  rewrite IH. apply orb_assoc.
Qed.

Lemma isdigit_facts (c : ascii) :
  Py.isdigit c = true ->
  Py.isspace c = false /\ Ascii.eqb c Py.nl_char = false
  /\ Ascii.eqb c "." = false.
Proof.
  destruct c as [[] [] [] [] [] [] [] []]; vm_compute; intros H;
    try discriminate H; repeat split.
Qed.

Lemma all_digits_facts (d : string) :
  Py.all_digits d = true ->
  has_char Py.nl_char d = false
  /\ has_char "." d = false
  /\ Py.lstrip d = d
  /\ Py.rstrip d = d
  /\ Py.filter_chars digit_or_period d = d.
Proof.
  induction d as [| c d IH]; intros H; [repeat split |].
  cbn [Py.all_digits] in H. apply andb_true_iff in H. destruct H as [Hc Hd].
  destruct (isdigit_facts c Hc) as (Hsp & Hnl & Hdot).
  destruct (IH Hd) as (H1 & H2 & H3 & H4 & H5).
  cbn [has_char Py.lstrip Py.rstrip Py.filter_chars].
  unfold digit_or_period at 1. rewrite Hc, Hsp, Hnl, Hdot, H1, H2, H4, H5.
  repeat split.
Qed.

Lemma float_of_digits (d : string) :
  Py.all_digits d = true -> d <> "" ->
  Py.float d = Ok (inject_Z (Py.digits_value 0 d)).
Proof.
  intros Hd Hne. destruct (all_digits_facts d Hd) as (_ & Hdot & _).
  unfold Py.float. rewrite (split1_no_sep _ _ Hdot), Hd.
  destruct d; [contradiction | reflexivity].
Qed.

Lemma expert_role_parse_vote (role response : string) :
  expert_role (_parse_vote role response) = role.
Proof.
  unfold _parse_vote.
  destruct (parse_vote_lines vote_defaults (Py.split Py.nl_char response)).
  reflexivity.
Qed.

Lemma confidence_line_not_vote (line : string) :
  is_confidence_line line = true -> is_vote_line line = false.
Proof.
  intros Hc. destruct (is_vote_line line) eqn:Hv; [| reflexivity].
  rewrite (vote_line_not_confidence _ Hv) in Hc. discriminate.
Qed.

Lemma vote_line_facts (word : string) :
  In word mood_words ->
  has_char Py.nl_char ("Vote: " ++ word) = false
  /\ is_vote_line ("Vote: " ++ word) = true
  /\ mood_of_value (line_value ("Vote: " ++ word)) = Py.lower word.
Proof.
  intros [<- | [<- | [<- | []]]]; vm_compute; repeat split.
Qed.

(** Evaluate the character tests on the literal characters of a goal. *)
Ltac eval_char_tests :=
  repeat match goal with
         | |- context [Py.lower_char (Ascii ?a ?b ?c ?d ?e ?f ?g ?h)] =>
             let v := eval vm_compute in
                        (Py.lower_char (Ascii a b c d e f g h)) in
             change (Py.lower_char (Ascii a b c d e f g h)) with v
         | |- context [Py.isspace (Ascii ?a ?b ?c ?d ?e ?f ?g ?h)] =>
             let v := eval vm_compute in
                        (Py.isspace (Ascii a b c d e f g h)) in
             change (Py.isspace (Ascii a b c d e f g h)) with v
         end.

(** A line that starts with a label written in any letter case carries
    the label. *)
Ltac label_of_literal_prefix label :=
  unfold has_label, Py.startswith, Py.strip, Py.lower;
  cbn [append Py.map_chars]; eval_char_tests;
  cbn [Py.lstrip]; cbn [Py.rstrip]; eval_char_tests; cbn [andb];
  apply (prefix_append label).

Lemma split1_append (sep : ascii) (a b : string) :
  has_char sep a = false ->
  Py.split1 sep (a ++ String sep b) = [a; b].
Proof.
  induction a as [| c a IH]; intros H; cbn [append Py.split1].
  - rewrite Ascii.eqb_refl. reflexivity.
  - cbn [has_char] in H. apply orb_false_iff in H. destruct H as [Hc Ha].
    rewrite Hc, (IH Ha). reflexivity.
Qed.

Lemma line_value_append (label rest : string) :
  has_char ":" label = false ->
  line_value (label ++ String ":" rest) = Py.strip rest.
Proof.
  intros H. unfold line_value, after_colon.
  rewrite (split1_append _ _ _ H). reflexivity.
Qed.

Lemma confidence_line_facts (d : string) :
  Py.all_digits d = true ->
  has_char Py.nl_char ("Confidence: " ++ d) = false
  /\ is_confidence_line ("Confidence: " ++ d) = true
  /\ line_value ("Confidence: " ++ d) = d.
Proof.
  intros Hd. destruct (all_digits_facts d Hd) as (Hnl & _ & Hl & Hr & _).
  split; [| split].
  - rewrite has_char_append, Hnl. reflexivity.
  - unfold is_confidence_line. label_of_literal_prefix "confidence:".
  - change ("Confidence: " ++ d) with ("Confidence" ++ String ":" (String " " d)).
    rewrite line_value_append by reflexivity.
    unfold Py.strip. cbn [Py.lstrip]. eval_char_tests. cbv iota.
    rewrite Hl, Hr. reflexivity.
Qed.

Lemma reasoning_line_facts (r : string) :
  has_char Py.nl_char r = false ->
  has_char Py.nl_char ("Reasoning: " ++ r) = false
  /\ is_reasoning_line ("Reasoning: " ++ r) = true
  /\ line_value ("Reasoning: " ++ r) = Py.strip r.
Proof.
  intros Hnl. split; [| split].
  - rewrite has_char_append, Hnl. reflexivity.
  - unfold is_reasoning_line. label_of_literal_prefix "reasoning:".
  - change ("Reasoning: " ++ r) with ("Reasoning" ++ String ":" (String " " r)).
    rewrite line_value_append by reflexivity.
    unfold Py.strip. cbn [Py.lstrip]. eval_char_tests. cbv iota.
    reflexivity.
Qed.

Lemma format_vote_lines (word d r : string) :
  In word mood_words ->
  Py.all_digits d = true ->
  has_char Py.nl_char r = false ->
  vote_lines (format_vote word d r)
  = ["Vote: " ++ word; "Confidence: " ++ d; "Reasoning: " ++ r].
Proof.
  intros Hw Hd Hr.
  destruct (vote_line_facts word Hw) as (H1 & _).
  destruct (confidence_line_facts d Hd) as (H2 & _).
  destruct (reasoning_line_facts r Hr) as (H3 & _).
  unfold vote_lines, format_vote, text.
  change (Py.join Py.nl
            ["Vote: " ++ word; "Confidence: " ++ d; "Reasoning: " ++ r])
    with (("Vote: " ++ word)
          ++ String Py.nl_char
               (("Confidence: " ++ d)
                ++ String Py.nl_char ("Reasoning: " ++ r))).
  rewrite (split_append _ _ _ H1), (split_append _ _ _ H2),
    (split_no_sep _ _ H3).
  reflexivity.
Qed.

(** A vote written as the voting prompt asks (one of the words Happy,
    Neutral, Sad; a confidence in decimal digits; a one-line reasoning
    that is not blank) decodes to that vote: the word in lower case, the
    number clamped to [0,100] over 100, the reasoning trimmed. *)
Theorem parse_vote_round_trip_format (role word d r : string) :
  In word mood_words ->
  Py.all_digits d = true -> d <> "" ->
  has_char Py.nl_char r = false -> Py.strip r <> "" ->
  expert_role (_parse_vote role (format_vote word d r)) = role
  /\ vote_mood (_parse_vote role (format_vote word d r)) = Py.lower word
  /\ confidence (_parse_vote role (format_vote word d r))
     = (clamp 0 100 (inject_Z (Py.digits_value 0 d)) / 100)%Q
  /\ reasoning (_parse_vote role (format_vote word d r)) = Py.strip r.
Proof.
  intros Hw Hd Hne Hr Hblank.
  destruct (vote_line_facts word Hw) as (_ & Hv1 & Hm1).
  destruct (confidence_line_facts d Hd) as (_ & Hc2 & Hval2).
  destruct (reasoning_line_facts r Hr) as (_ & Hr3 & Hval3).
  pose proof (format_vote_lines word d r Hw Hd Hr) as Hlines.
  destruct (all_digits_facts d Hd) as (_ & _ & _ & _ & Hfilter).
  assert (Hconf : confidence_of_value d
                  = Some (clamp 0 100 (inject_Z (Py.digits_value 0 d)) / 100)%Q).
  { unfold confidence_of_value.
    rewrite Hfilter, (float_of_digits d Hd Hne). reflexivity. }
  assert (Hu1 : unparseable_line ("Vote: " ++ word) = false).
  { unfold unparseable_line. rewrite (vote_line_not_confidence _ Hv1).
    reflexivity. }
  assert (Hu2 : unparseable_line ("Confidence: " ++ d) = false).
  { unfold unparseable_line. rewrite Hc2, Hval2, Hconf. reflexivity. }
  assert (Hu3 : unparseable_line ("Reasoning: " ++ r) = false).
  { unfold unparseable_line. rewrite (reasoning_line_not_confidence _ Hr3).
    reflexivity. }
  assert (Hraise : parse_vote_raises (format_vote word d r) = None).
  { apply (proj2 (parse_vote_raises_iff (format_vote word d r))).
    rewrite Hlines. cbn [existsb]. rewrite Hu1, Hu2, Hu3. reflexivity. }
  split; [apply expert_role_parse_vote |]. split; [| split].
  - rewrite parse_vote_mood. unfold decoded_mood.
    rewrite Hlines. cbn [parsed_prefix]. rewrite Hu1, Hu2, Hu3.
    rewrite !last_where_cons. unfold last_where at 1. cbn [rev find].
    rewrite (reasoning_line_not_vote _ Hr3), (confidence_line_not_vote _ Hc2),
      Hv1.
    exact Hm1.
  - rewrite parse_vote_confidence. unfold decoded_confidence.
    rewrite Hlines. cbn [parsed_prefix]. rewrite Hu1, Hu2, Hu3.
    rewrite !last_where_cons. unfold last_where at 1. cbn [rev find].
    rewrite (reasoning_line_not_confidence _ Hr3), Hc2, Hval2, Hconf.
    reflexivity.
  - rewrite parse_vote_reasoning, Hraise, Hlines.
    rewrite !last_where_cons. unfold last_where at 1. cbn [rev find].
    rewrite Hr3, Hval3.
    destruct (Py.strip r); [contradiction | reflexivity].
Qed.

Lemma parse_vote_round_trip_format_witness :
  In "Happy" mood_words
  /\ Py.all_digits "85" = true /\ "85" <> ""
  /\ has_char Py.nl_char "strong growth" = false
  /\ Py.strip "strong growth" <> ""
  /\ vote_mood (_parse_vote "Economic Analyst"
                            (format_vote "Happy" "85" "strong growth"))
     = "happy".
Proof.
  assert (H1 : In "Happy" mood_words) by (left; reflexivity).
  assert (H2 : Py.all_digits "85" = true) by reflexivity.
  assert (H3 : "85" <> "") by discriminate.
  assert (H4 : has_char Py.nl_char "strong growth" = false) by reflexivity.
  assert (H5 : Py.strip "strong growth" <> "") by discriminate.
  split; [exact H1 |]. split; [exact H2 |]. split; [exact H3 |].
  split; [exact H4 |]. split; [exact H5 |].
  destruct (parse_vote_round_trip_format
              "Economic Analyst" "Happy" "85" "strong growth"
              H1 H2 H3 H4 H5) as (_ & Hm & _).
  exact Hm.
Defined.

(** ** Counting the turns and the analyses of a run *)

Lemma triple_post {A} P (m : M A)
    (Q Q' : A -> PanelDiscussionStrandsV2 -> Prop) E :
  triple P m Q E -> (forall a s, Q a s -> Q' a s) -> triple P m Q' E.
Proof.
  intros H HQ. apply (triple_weaken P P m Q Q' E E H); auto.
Qed.

Section Accounting.

Variable roster : list string.
Variable agents : list (string * ExpertAgent).
Variable I : PanelDiscussionStrandsV2 -> Prop.
Hypothesis I_stable : stable I.

Local Abbreviation Acc := (accounts I roster agents).
Local Abbreviation R := (List.length roster).

Lemma acc_add_transcript (sp c : string) (rn : option Z) (t a : nat) :
  triple (Acc t a) (_add_transcript sp c rn) (fun _ => Acc (S t) a) any_exit.
Proof.
  intros s (Hinv & Ht & Ha).
  pose proof (add_transcript_triple roster agents I I_stable sp c rn s Hinv)
    as H.
  rewrite add_transcript_run in *. split; [exact H |].
  cbn [self_transcripts self_analyses set_transcripts set_turn_order].
  rewrite length_app. cbn [List.length]. split; [lia | exact Ha].
Qed.

Lemma acc_append_analysis (x : ExpertAnalysis) (t a : nat) :
  triple (Acc t a) (append_analysis x) (fun _ => Acc t (S a)) any_exit.
Proof.
  intros s (Hinv & Ht & Ha).
  pose proof (append_analysis_triple roster agents I I_stable x s Hinv) as H.
  rewrite append_analysis_run in *. split; [exact H |].
  cbn [self_transcripts self_analyses set_analyses].
  rewrite length_app. cbn [List.length]. split; [exact Ht | lia].
Qed.

Lemma acc_get_recent_discussion (n t a : nat) :
  triple (Acc t a) (_get_recent_discussion n) (fun _ => Acc t a) any_exit.
Proof. intros s Hs. exact Hs. Qed.

Lemma acc_respond (x : ExpertAgent) (prompt : string) (t a : nat) :
  triple (Acc t a) (respond x prompt) (fun _ => Acc t a) any_exit.
Proof.
  intros s (Hinv & Ht & Ha).
  pose proof (respond_triple roster agents I I_stable x prompt s Hinv) as H.
  unfold respond in *. split; [exact H |]. split; assumption.
Qed.

Lemma acc_agent_of (key : string) (t a : nat) :
  triple (Acc t a) (agent_of key) (fun _ => Acc t a) any_exit.
Proof.
  intros s Hs. unfold agent_of, bind, gets, lift.
  destruct (dict_get (self_agents s) key); [exact Hs | exact Logic.I].
Qed.

Lemma acc_gets_roles (t a : nat) :
  triple (Acc t a) (gets self_expert_roles)
         (fun r s => Acc t a s /\ r = roster) any_exit.
Proof. intros s Hs. split; [exact Hs |]. apply Hs. Qed.

Lemma acc_first_role (t a : nat) :
  triple (Acc t a) (lift (Py.item roster 0)) (fun _ => Acc t a) any_exit.
Proof.
  intros s Hs. unfold lift. destruct (Py.item roster 0); [exact Hs | exact Logic.I].
Qed.

(** A loop whose body adds one turn and one analysis. *)
Lemma acc_for_each (l : list string) (body : string -> M unit) :
  (forall x t a, In x l ->
     triple (Acc t a) (body x) (fun _ => Acc (S t) (S a)) any_exit) ->
  forall t a,
    triple (Acc t a) (for_each l body)
           (fun _ => Acc (t + List.length l) (a + List.length l)) any_exit.
Proof.
  induction l as [| x l IH]; intros Hbody t a; cbn [for_each List.length].
  - apply triple_ret. intros s Hs. rewrite !Nat.add_0_r. exact Hs.
  - eapply triple_bind.
    + apply Hbody. left. reflexivity.
    + intros ?. eapply triple_post.
      * apply IH. intros y t' a' Hy. apply Hbody. right. exact Hy.
      * intros ? s Hs. cbv beta in Hs.
        replace (t + S (List.length l))%nat
          with (S t + List.length l)%nat by lia.
        replace (a + S (List.length l))%nat
          with (S a + List.length l)%nat by lia.
        exact Hs.
Qed.

Ltac acc_prim m :=
  lazymatch m with
  | _add_transcript _ _ _ => apply acc_add_transcript
  | append_analysis _ => apply acc_append_analysis
  | _get_recent_discussion _ => apply acc_get_recent_discussion
  | respond _ _ => apply acc_respond
  | agent_of _ => apply acc_agent_of
  | lift (Py.item _ 0) => apply acc_first_role
  end.

Ltac acc_step :=
  lazymatch goal with
  | |- triple _ (bind ?m _) _ _ => eapply triple_bind; [acc_prim m | intros ?]
  | |- triple _ ?m _ _ => acc_prim m
  end.

Lemma acc_moderator_introduce (cc tp context : string) (t a : nat) :
  triple (Acc t a) (_moderator_introduce cc tp context)
         (fun _ => Acc (S t) a) any_exit.
Proof.
  unfold _moderator_introduce. acc_step. acc_step. acc_step.
  apply triple_ret. auto.
Qed.

Lemma acc_collect_first_round (cc tp context : string) (round_number : Z)
    (t a : nat) :
  triple (Acc t a) (_collect_round_analyses cc tp context round_number true)
         (fun _ => Acc (t + 1 + R) (a + R)) any_exit.
Proof.
  unfold _collect_round_analyses.
  eapply triple_bind; [apply acc_gets_roles |].
  intros roles. apply triple_assume. intros ->.
  apply triple_bind with (R := fun _ => Acc t a).
  { acc_step. apply triple_ret. auto. }
  intros q. acc_step.
  eapply triple_post.
  - apply acc_for_each. intros role t' a' Hrole.
    apply triple_bind with (R := fun _ => Acc t' a').
    { apply triple_ret. auto. }
    intros prompt. acc_step. acc_step. acc_step. acc_step.
  - intros ? s Hs. cbv beta in Hs.
    replace (t + 1 + R)%nat with (S t + R)%nat by lia. exact Hs.
Qed.

Lemma acc_conduct_round (cc tp : string) (round_number : Z)
    (targets : list string) (t a : nat) :
  triple (Acc t a)
         (_conduct_dynamic_debate_round cc tp round_number targets)
         (fun _ =>
            Acc (t + 1 + List.length (match targets with
                                      | [] => roster
                                      | _ => targets
                                      end))
                (a + List.length (match targets with
                                  | [] => roster
                                  | _ => targets
                                  end)))
         any_exit.
Proof.
  unfold _conduct_dynamic_debate_round.
  eapply triple_bind; [apply acc_gets_roles |].
  intros roles. apply triple_assume. intros ->.
  acc_step. acc_step. acc_step. acc_step.
  eapply triple_post.
  - apply acc_for_each. intros role t' a' Hrole.
    acc_step. acc_step. acc_step. acc_step. acc_step.
  - intros ? s Hs. cbv beta in Hs.
    match goal with
    | |- Acc (t + 1 + ?n)%nat _ _ =>
        replace (t + 1 + n)%nat with (S t + n)%nat by lia
    end.
    exact Hs.
Qed.

(** Round 1 returns only over a roster that is not empty: the
    moderator's opening question names its first role. *)
Lemma collect_first_round_needs_roster (cc tp context : string)
    (round_number : Z) (t a : nat) :
  triple (Acc t a) (_collect_round_analyses cc tp context round_number true)
         (fun _ _ => roster <> []) any_exit.
Proof.
  intros s ((_ & Hr & _) & _). unfold _collect_round_analyses.
  cbv [bind gets]. rewrite Hr.
  destruct roster as [| role0 rest]; [exact Logic.I |].
  match goal with
  | |- match ?run with _ => _ end =>
      destruct run as [[? | ?] ?]; [discriminate | exact Logic.I]
  end.
Qed.

Lemma acc_moderator_decide_followup (cc tp : string) (round_number : Z)
    (t a : nat) :
  triple (Acc t a) (_moderator_decide_followup cc tp round_number)
         (fun res s => Acc t a s /\ (List.length (snd res) <= R)%nat)
         any_exit.
Proof.
  unfold _moderator_decide_followup. acc_step.
  eapply triple_bind; [apply acc_gets_roles |].
  intros roles. apply triple_assume. intros ->.
  acc_step. acc_step. apply triple_ret.
  intros s Hs. split; [exact Hs | apply parse_followup_length].
Qed.

Hypothesis roster_not_empty : roster <> [].

(** One pass of the debate loop either stops, changing nothing, or adds
    the moderator's question and between one and [R] answers, each with
    its analysis. *)
Lemma acc_debate_body (cc tp : string) (round_num : Z) (t a : nat) :
  triple (Acc t a) (debate_body cc tp round_num)
         (fun goes_on s =>
            if goes_on
            then exists k, (1 <= k <= R)%nat /\ Acc (t + 1 + k) (a + k) s
            else Acc t a s)
         any_exit.
Proof.
  unfold debate_body.
  eapply triple_bind; [apply acc_moderator_decide_followup |].
  intros [should targets]. cbn [snd].
  intros s (Hs & Hlen).
  destruct should; cbn [negb].
  - pose proof (acc_conduct_round cc tp round_num targets t a s Hs) as H.
    unfold bind. destruct (_conduct_dynamic_debate_round _ _ _ _ s)
      as [[[] | e] s1]; [| exact Logic.I].
    cbn [ret].
    exists (List.length (match targets with [] => roster | _ => targets end)).
    split; [| exact H].
    destruct targets as [| x targets'].
    + destruct roster; [contradiction | cbn [List.length]; lia].
    + split; [cbn [List.length]; lia | exact Hlen].
  - exact Hs.
Qed.

(** The debate loop over [d] rounds adds [d] questions and between [d]
    and [R * d] answers with their analyses. *)
Lemma acc_debate_loop (cc tp : string) (max_rounds : Z) :
  forall (n : nat) (round_num : Z) (t a : nat),
    Z.to_nat (max_rounds + 1 - round_num) = n ->
    triple (Acc t a) (debate_loop cc tp max_rounds round_num)
           (fun r s =>
              round_num <= r <= Z.max round_num (max_rounds + 1)
              /\ exists k,
                   (Z.to_nat (r - round_num) <= k
                    <= R * Z.to_nat (r - round_num))%nat
                   /\ Acc (t + Z.to_nat (r - round_num) + k) (a + k) s)
           any_exit.
Proof.
  induction n as [| n IH]; intros round_num t a Hn s Hs;
    rewrite debate_loop_step;
    destruct (round_num <=? max_rounds) eqn:Hle;
    try (apply Z.leb_le in Hle; lia);
    try (split; [lia |]; exists 0%nat; rewrite Z.sub_diag;
         cbn [Z.to_nat]; rewrite !Nat.add_0_r, Nat.mul_0_r;
         split; [lia | exact Hs]).
  apply Z.leb_le in Hle.
  pose proof (acc_debate_body cc tp round_num t a s Hs) as Hbody.
  destruct (debate_body cc tp round_num s) as [[[|] | e] s1];
    [| | exact Logic.I].
  - destruct Hbody as (k1 & Hk1 & Hs1).
    assert (Hn' : Z.to_nat (max_rounds + 1 - (round_num + 1)) = n) by lia.
    pose proof (IH (round_num + 1) _ _ Hn' s1 Hs1) as Hrec.
    destruct (debate_loop cc tp max_rounds (round_num + 1) s1)
      as [[r | e] s2]; [| exact Logic.I].
    destruct Hrec as (Hr & k2 & Hk2 & Hs2).
    split; [lia |]. exists (k1 + k2)%nat.
    replace (Z.to_nat (r - round_num))
      with (S (Z.to_nat (r - (round_num + 1)))) by lia.
    split; [nia |].
    replace (t + S (Z.to_nat (r - (round_num + 1))) + (k1 + k2))%nat
      with (t + 1 + k1 + Z.to_nat (r - (round_num + 1)) + k2)%nat by lia.
    replace (a + (k1 + k2))%nat with (a + k1 + k2)%nat by lia.
    exact Hs2.
  - split; [lia |]. exists 0%nat. rewrite Z.sub_diag.
    cbn [Z.to_nat]. rewrite !Nat.add_0_r, Nat.mul_0_r.
    split; [lia | exact Hbody].
Qed.

(** Voting adds the moderator's call and one statement per role, and
    returns one valid vote per role, in roster order. *)
Lemma acc_conduct_voting (cc : string) (t a : nat) :
  triple (Acc t a) (_conduct_voting cc)
         (fun votes s =>
            Acc (t + 1 + R) a s
            /\ map expert_role votes = roster
            /\ Forall valid_vote votes)
         any_exit.
Proof.
  unfold _conduct_voting. acc_step. acc_step.
  eapply triple_bind; [apply acc_gets_roles |].
  intros roles. apply triple_assume. intros ->.
  assert (Hfold : forall (l : list string) (votes : list Vote) (t' : nat)
                         (body : list Vote -> string -> M (list Vote)),
    (forall vs role t'',
        triple (Acc t'' a) (body vs role)
               (fun vs' s => Acc (S t'') a s
                             /\ exists v, vs' = (vs ++ [v])%list
                                          /\ expert_role v = role
                                          /\ valid_vote v)
               any_exit) ->
    triple (Acc t' a) (for_fold l votes body)
           (fun vs' s =>
              Acc (t' + List.length l) a s
              /\ exists new, vs' = (votes ++ new)%list
                             /\ map expert_role new = l
                             /\ Forall valid_vote new)
           any_exit).
  { induction l as [| role l IH]; intros votes t' body Hbody;
      cbn [for_fold List.length].
    - apply triple_ret. intros s Hs. rewrite Nat.add_0_r.
      split; [exact Hs |]. exists []. rewrite app_nil_r.
      repeat split. constructor.
    - eapply triple_bind; [apply Hbody |].
      intros vs'. intros s (Hs & v & -> & Hrole & Hvalid).
      pose proof (IH (votes ++ [v])%list (S t') body Hbody s Hs) as H.
      destruct (for_fold l (votes ++ [v])%list body s) as [[vs2 | e] s2];
        [| exact Logic.I].
      destruct H as (Hs2 & new & -> & Hmap & Hall).
      split.
      + replace (t' + S (List.length l))%nat
          with (S t' + List.length l)%nat by lia.
        exact Hs2.
      + exists (v :: new). rewrite <- app_assoc. cbn [app map].
        rewrite Hrole, Hmap. repeat split. constructor; assumption. }
  eapply triple_post.
  - apply Hfold. intros vs role t''.
    acc_step. acc_step.
    eapply triple_bind; [apply acc_add_transcript |].
    intros ?. apply triple_ret. intros s Hs. split; [exact Hs |].
    eexists. split; [reflexivity |].
    split; [apply expert_role_parse_vote | apply parse_vote_valid].
  - intros vs' s (Hs & new & -> & Hmap & Hall). cbn [app].
    split; [| split; assumption].
    replace (t + 1 + R)%nat with (S t + R)%nat by lia. exact Hs.
Qed.

(** The conclusion is appended as the last turn, a moderator turn
    outside any round, numbered by the turn counter. *)
Lemma acc_moderator_conclude (cc mood : string) (score : Q) (t a : nat) :
  triple (Acc t a) (_moderator_conclude cc mood score)
         (fun concl s =>
            Acc (S t) a s
            /\ last_turn_is (moderator_turn concl (self_turn_order s))
                            (self_transcripts s))
         any_exit.
Proof.
  unfold _moderator_conclude. acc_step. acc_step. acc_step.
  apply triple_bind with
    (R := fun _ s =>
            Acc (S t) a s
            /\ last_turn_is (moderator_turn a2 (self_turn_order s))
                            (self_transcripts s)).
  - intros s Hs.
    pose proof (acc_add_transcript "Moderator" a2 None t a s Hs) as H.
    rewrite add_transcript_run in *. split; [exact H |].
    eexists. reflexivity.
  - intros ?. apply triple_ret. auto.
Qed.

End Accounting.

Lemma triple_both {A} P (m : M A)
    (Q Q' : A -> PanelDiscussionStrandsV2 -> Prop) :
  triple P m Q any_exit -> triple P m Q' any_exit ->
  triple P m (fun a s => Q a s /\ Q' a s) any_exit.
Proof.
  intros H H' s Hs. specialize (H s Hs). specialize (H' s Hs).
  destruct (m s) as [[a | e] s1]; [split; assumption | exact Logic.I].
Qed.

Lemma triple_exists {A X} (P : X -> PanelDiscussionStrandsV2 -> Prop)
    (m : M A) Q E :
  (forall x, triple (P x) m Q E) ->
  triple (fun s => exists x, P x s) m Q E.
Proof. intros H s [x Hx]. exact (H x s Hx). Qed.

Lemma log_with_first_stable (h : Transcript) : stable (log_with_first h).
Proof.
  destruct log_inv_stable as (Hadd & Han & Hcall).
  split; [| split].
  - intros sp c rn s [Hlog Hfirst]. split; [apply Hadd, Hlog |].
    rewrite add_transcript_run. unfold first_turn_is in *. cbn.
    destruct (self_transcripts s); [discriminate | exact Hfirst].
  - intros a s [Hlog Hfirst]. split; [apply Han, Hlog | exact Hfirst].
  - intros c s [Hlog Hfirst]. split; [apply Hcall, Hlog | exact Hfirst].
Qed.

(** From the fresh state, the introduction is turn 1 of the
    transcript. *)
Lemma introduce_opens (roster : list string)
    (agents : list (string * ExpertAgent)) (cc tp context : string) :
  triple (fun s => config roster agents s /\ fresh s)
         (_moderator_introduce cc tp context)
         (fun intro s =>
            accounts (log_with_first (moderator_turn intro 1))
                     roster agents 1 0 s)
         any_exit.
Proof.
  intros s ((Hr & Ha) & Ht & Han & Hn).
  destruct s as [mid ts an n roles ags calls].
  cbn in Hr, Ha, Ht, Han, Hn. subst.
  cbv [_moderator_introduce agent_of bind gets lift ret self_agents].
  destruct (dict_get agents "moderator") as [m | e]; [| exact Logic.I].
  cbv [respond _add_transcript bind gets modify ret
       set_transcripts set_turn_order log_call
       self_agents self_expert_roles self_transcripts self_turn_order
       self_analyses history].
  repeat split.
Qed.

(** The account of a run that returns. *)
Lemma start_discussion_account (roster : list string)
    (agents : list (string * ExpertAgent)) (today cc tp : string)
    (data : option CountryData) (max_rounds : Z) :
  triple (config roster agents)
         (start_discussion today cc tp data max_rounds)
         (fun res _ => run_account roster res) any_exit.
Proof.
  unfold start_discussion.
  apply triple_bind with
    (R := fun _ s => config roster agents s /\ self_transcripts s = []).
  { intros s Hs. simpl. split; [exact Hs | reflexivity]. }
  intros ?.
  apply triple_bind with
    (R := fun _ s => config roster agents s /\ self_transcripts s = []
                     /\ self_analyses s = []).
  { intros s (Hc & Ht). simpl. repeat split; try apply Hc; assumption. }
  intros ?.
  apply triple_bind with (R := fun _ s => config roster agents s /\ fresh s).
  { intros s (Hc & Ht & Ha). simpl. split; [exact Hc |].
    repeat split; assumption. }
  intros ?.
  eapply triple_bind; [apply introduce_opens |].
  intros intro.
  pose proof (log_with_first_stable (moderator_turn intro 1)) as Hst.
  eapply triple_bind;
    [apply triple_both;
       [apply (acc_collect_first_round _ _ _ Hst)
       | apply collect_first_round_needs_roster] |].
  intros ?. cbv beta. apply triple_assume. intros Hne.
  eapply triple_bind;
    [apply (acc_debate_loop _ _ _ Hst Hne cc tp max_rounds _ 2 _ _ eq_refl) |].
  intros r.
  apply triple_pre with
    (P := fun s => exists k,
            accounts (log_with_first (moderator_turn intro 1)) roster agents
                     (1 + 1 + List.length roster + Z.to_nat (r - 2) + k)
                     (0 + List.length roster + k) s
            /\ (2 <= r <= Z.max 2 (max_rounds + 1)
                /\ (Z.to_nat (r - 2) <= k
                    <= List.length roster * Z.to_nat (r - 2))%nat)).
  2: { intros s (Hr & k & Hk & Hs). exists k. auto. }
  apply triple_exists. intros k. apply triple_assume. intros (Hr & Hk).
  eapply triple_bind; [apply (acc_conduct_voting _ _ _ Hst) |].
  intros vs. apply triple_assume. intros (Hroles & Hvalid).
  destruct (calculate_final_mood_total vs Hvalid) as (mood & score & Hcalc).
  eapply triple_bind; [apply (triple_lift_ok _ _ _ _ Hcalc) |].
  intros [mood' score']. apply triple_assume. intros Hms.
  injection Hms as -> ->.
  eapply triple_bind; [apply (acc_moderator_conclude _ _ _ Hst) |].
  intros concl.
  eapply triple_bind; [apply triple_gets |].
  intros ts.
  eapply triple_bind; [apply triple_gets |].
  intros an.
  apply triple_ret.
  intros s (((Hacc & Hlast) & Hts) & Han).
  destruct Hacc as (([Hlog Hfirst] & _) & Hlen & Hlen_an).
  subst ts an. unfold run_account, later_rounds.
  cbn [votes final_mood final_score debate_rounds transcripts analyses
       introduction conclusion total_turns].
  split; [exact Hroles |]. split; [exact Hvalid |]. split; [exact Hcalc |].
  split; [lia |]. split; [reflexivity |]. split; [| split].
  - exists k. replace (r - 1 - 1) with (r - 2) by lia.
    split; [exact Hk |]. split; [rewrite Hlen; lia | rewrite Hlen_an; lia].
  - exact Hfirst.
  - destruct Hlog as [Hcount _]. rewrite <- Hcount. exact Hlast.
Qed.

Lemma run_account_of_run (s s' : PanelDiscussionStrandsV2)
    (today cc tp : string) (data : option CountryData) (max_rounds : Z)
    (res : PanelResult) :
  start_discussion today cc tp data max_rounds s = (Ok res, s') ->
  run_account (self_expert_roles s) res.
Proof.
  intros Hrun.
  pose proof (start_discussion_account (self_expert_roles s) (self_agents s)
                today cc tp data max_rounds s (conj eq_refl eq_refl)) as H.
  rewrite Hrun in H. exact H.
Qed.

(** ** The result of a run *)



(** The turns of a result add up: one per analysis, one per vote, one
    moderator's question per round, and three more (the introduction,
    the call for votes and the conclusion). Round 1 gives one analysis
    per role, every later round at least one and at most one per
    role. *)
Theorem start_discussion_turn_account (s s' : PanelDiscussionStrandsV2)
    (today cc tp : string) (data : option CountryData) (max_rounds : Z)
    (res : PanelResult) :
  start_discussion today cc tp data max_rounds s = (Ok res, s') ->
  total_turns res
  = Z.of_nat (List.length (analyses res)) + Z.of_nat (List.length (votes res))
    + debate_rounds res + 3
  /\ Z.of_nat (List.length (self_expert_roles s)) + (debate_rounds res - 1)
     <= Z.of_nat (List.length (analyses res))
     <= Z.of_nat (List.length (self_expert_roles s)) * debate_rounds res.
Proof.
  intros Hrun.
  destruct (run_account_of_run _ _ _ _ _ _ _ _ Hrun)
    as (Hroles & _ & _ & Hrounds & Htotal & (k & Hk & Hts & Han) & _).
  assert (Hvotes : List.length (votes res)
                   = List.length (self_expert_roles s)).
  { rewrite <- Hroles. symmetry. apply length_map. }
  unfold later_rounds in *.
  rewrite Htotal, Hts, Han, Hvotes. nia.
Qed.

Lemma start_discussion_turn_account_witness :
  sample_run 5 = (Ok (result_of (sample_run 5)), snd (sample_run 5))
  /\ total_turns (result_of (sample_run 5))
     = Z.of_nat (List.length (analyses (result_of (sample_run 5))))
       + Z.of_nat (List.length (votes (result_of (sample_run 5))))
       + debate_rounds (result_of (sample_run 5)) + 3.
Proof.
  split; [exact sample_run_returns |].
  destruct (start_discussion_turn_account
              _ _ _ _ _ _ _ _ sample_run_returns) as (H1 & _).
  exact H1.
Defined.

(** The transcript of a result opens with the moderator's introduction
    as turn 1 and closes with the moderator's conclusion as turn
    [total_turns], the introduction and the conclusion that the result
    reports. *)
Theorem start_discussion_opens_and_closes (s s' : PanelDiscussionStrandsV2)
    (today cc tp : string) (data : option CountryData) (max_rounds : Z)
    (res : PanelResult) :
  start_discussion today cc tp data max_rounds s = (Ok res, s') ->
  hd_error (transcripts res) = Some (moderator_turn (introduction res) 1)
  /\ last_turn_is (moderator_turn (conclusion res) (total_turns res))
                  (transcripts res).
Proof.
  intros Hrun.
  destruct (run_account_of_run _ _ _ _ _ _ _ _ Hrun)
    as (_ & _ & _ & _ & _ & _ & Hfirst & Hlast).
  split; [exact Hfirst | exact Hlast].
Qed.

Lemma start_discussion_opens_and_closes_witness :
  sample_run 5 = (Ok (result_of (sample_run 5)), snd (sample_run 5))
  /\ hd_error (transcripts (result_of (sample_run 5)))
     = Some (moderator_turn (introduction (result_of (sample_run 5))) 1).
Proof.
  split; [exact sample_run_returns |].
  destruct (start_discussion_opens_and_closes
              _ _ _ _ _ _ _ _ sample_run_returns) as (H1 & _).
  exact H1.
Defined.

(** The panel the factory builds, over any completion service and for
    any inputs, runs to a result: three votes, of the Economic Analyst,
    the Social Welfare Specialist and the Environmental Scientist in
    this order, and at least 10 and at most
    [10 + 4 * (max 1 max_rounds - 1)] turns. *)
Theorem factory_panel_run (backend : Backend) (model_id : string)
    (today cc tp : string) (data : option CountryData) (max_rounds : Z) :
  exists res p',
    start_discussion today cc tp data max_rounds
      (create_panel_discussion_strands_v2 backend model_id) = (Ok res, p')
    /\ map expert_role (votes res)
       = ["Economic Analyst"; "Social Welfare Specialist";
          "Environmental Scientist"]
    /\ 10 <= total_turns res <= 10 + 4 * (Z.max 1 max_rounds - 1).
Proof.
  destruct (start_discussion_returns
              (create_panel_discussion_strands_v2 backend model_id)
              today cc tp data max_rounds (init_well_formed backend model_id))
    as (res & p' & Hrun & _ & _ & _ & _ & Hrounds).
  exists res, p'. split; [exact Hrun |].
  destruct (run_account_of_run _ _ _ _ _ _ _ _ Hrun)
    as (Hroles & _ & _ & _ & Htotal & (k & Hk & Hts & _) & _).
  split; [exact Hroles |].
  change (List.length
            (self_expert_roles
               (create_panel_discussion_strands_v2 backend model_id)))
    with 3%nat in Hk, Hts.
  unfold later_rounds in *. rewrite Htotal, Hts. lia.
Qed.

(** ** The context of a run *)

Lemma join_cons_not_empty (sep x : string) (l : list string) :
  x <> EmptyString -> Py.join sep (x :: l) <> EmptyString.
Proof.
  intros Hx. destruct x as [| c x]; [contradiction |].
  destruct l; simpl; discriminate.
Qed.

(** The context given to the experts is never the empty string, and of
    the news of a country only the first five items count. *)
Theorem build_context_spec (country_code : string) :
  (forall country_data,
      _build_context country_code country_data <> EmptyString)
  /\ (forall d items,
        news d = Some items ->
        _build_context country_code (Some d)
        = _build_context country_code (Some (with_news (firstn 5 items) d))).
Proof.
  split.
  - intros [d |]; unfold _build_context; [| simpl; discriminate].
    destruct (country_data_falsy (Some d)); [simpl; discriminate |].
    destruct (news d) as [items |]; destruct (weather d) as [w |];
      cbn [app]; try apply join_cons_not_empty; discriminate.
  - intros d items Hnews. unfold _build_context, country_data_falsy, with_news.
    cbn [news weather other_keys]. rewrite Hnews, firstn_firstn.
    reflexivity.
Qed.

Example build_context_sixth_headline_dropped :
  _build_context "JP" (Some sample_country)
  = Py.join Py.nl
      ["Recent News Headlines:"; "- a"; "- b"; "- c"; "- d"; "- e"].
Proof. vm_compute. reflexivity. Qed.

(** ** A run while the completion service is down *)

Lemma triple_any_exit {A} P (m : M A) Q E :
  triple P m Q E -> triple P m Q any_exit.
Proof.
  intros H. apply (triple_weaken P P m Q Q E any_exit H); auto.
  intros e s _. exact Logic.I.
Qed.

(** A line that starts with a bracket carries no label. *)
Lemma has_label_bracket (c : ascii) (label rest : string) :
  c <> "["%char ->
  has_label (String c label) (String "[" rest) = false.
Proof.
  intros Hc. unfold has_label, Py.strip, Py.lower.
  cbn [Py.map_chars]. eval_char_tests.
  cbn [Py.lstrip]. eval_char_tests. cbv iota.
  cbn [Py.rstrip]. eval_char_tests. cbn [andb].
  unfold Py.startswith. cbn [String.prefix].
  destruct (ascii_dec c "["); [contradiction | reflexivity].
Qed.

Lemma sentinel_one_line (r : string) :
  has_char Py.nl_char r = false ->
  Py.split Py.nl_char (error_sentinel r) = [error_sentinel r].
Proof.
  intros Hr. apply split_no_sep. unfold error_sentinel.
  rewrite !has_char_append, Hr. reflexivity.
Qed.

(** The marker of a failed call decodes to the default vote, with the
    marker as its reasoning. *)
Lemma parse_vote_sentinel (role r : string) :
  has_char Py.nl_char r = false ->
  _parse_vote role (error_sentinel r)
  = {| expert_role := role; vote_mood := "neutral"; confidence := 0.5%Q;
       reasoning := error_sentinel r |}.
Proof.
  intros Hr. unfold _parse_vote. rewrite (sentinel_one_line r Hr).
  cbn [parse_vote_lines]. unfold parse_vote_line.
  change (Py.startswith "vote:" (Py.strip (Py.lower (error_sentinel r))))
    with (has_label "vote:" (error_sentinel r)).
  change (Py.startswith "confidence:"
            (Py.strip (Py.lower (error_sentinel r))))
    with (has_label "confidence:" (error_sentinel r)).
  change (Py.startswith "reasoning:"
            (Py.strip (Py.lower (error_sentinel r))))
    with (has_label "reasoning:" (error_sentinel r)).
  unfold error_sentinel. cbn [append].
  rewrite !has_label_bracket by discriminate.
  reflexivity.
Qed.

(** The marker of a failed moderator call decodes to: stop. *)
Lemma parse_followup_sentinel (roster : list string) (r : string) :
  has_char Py.nl_char r = false ->
  parse_followup roster (error_sentinel r) = (false, []).
Proof.
  intros Hr. rewrite parse_followup_fold. cbv zeta.
  unfold routing_lines_of. rewrite (sentinel_one_line r Hr).
  assert (Hc : existsb is_continue_line [error_sentinel r] = false).
  { unfold is_continue_line, error_sentinel. cbn [append existsb].
    rewrite has_label_bracket by discriminate. reflexivity. }
  assert (Ht : existsb is_target_line [error_sentinel r] = false).
  { unfold is_target_line, error_sentinel. cbn [append existsb].
    rewrite has_label_bracket by discriminate. reflexivity. }
  rewrite (routing_fold_no_target roster _ Ht).
  rewrite (continue_of_no_continue _ _ Hc). reflexivity.
Qed.

(** Votes that all say neutral give the verdict neutral at 50,
    whatever their weights. *)
Lemma calculate_final_mood_all_neutral (votes : list Vote) (mood : string)
    (score : Q) :
  Forall valid_vote votes ->
  Forall (fun v => vote_mood v = "neutral") votes ->
  _calculate_final_mood votes = Ok (mood, score) ->
  mood = "neutral" /\ (score == 50)%Q.
Proof.
  intros Hvalid Hsame.
  destruct (tally_votes_sums votes Hvalid 0%Q 0%Q) as (s & w & Htally & Hs & Hw).
  pose proof (sum_weighted_unanimous votes "neutral" Hsame) as Hsum.
  pose proof (sum_confidence_nonneg votes Hvalid) as Hc0.
  unfold _calculate_final_mood. rewrite Htally. simpl.
  destruct (Qeq_bool w 0) eqn:Hz.
  - intros E. injection E as <- <-. split; [reflexivity | lra].
  - apply Qeq_bool_neq in Hz.
    assert (Hscore : (s / w == 50)%Q).
    { assert (E : (s == 50 * w)%Q).
      { rewrite Hs, Hw, Hsum. unfold anchor. simpl. lra. }
      rewrite E. field. exact Hz. }
    assert (H67 : Qle_bool 67 (s / w) = false)
      by (apply Qle_bool_false_lt; rewrite Hscore; lra).
    assert (H34 : Qle_bool 34 (s / w) = true)
      by (apply Qle_bool_iff; rewrite Hscore; lra).
    rewrite H67, H34. intros E. injection E as <- <-.
    split; [reflexivity | exact Hscore].
Qed.

Section Outage.

Variable roster : list string.
Variable agents : list (string * ExpertAgent).
Hypothesis service_down : outage agents.

Local Abbreviation Cfg := (inv no_inv roster agents).

Lemma out_agent_of (key : string) :
  triple Cfg (agent_of key)
         (fun x s => Cfg s
                     /\ (always_fails x
                         /\ has_char Py.nl_char (role x) = false))
         any_exit.
Proof.
  intros s Hs. unfold agent_of, bind, gets, lift.
  destruct Hs as [HI [Hr Ha]]. rewrite Ha.
  destruct (dict_get agents key) as [x | e] eqn:Hget; [| exact Logic.I].
  split; [split; [exact HI | split; assumption] |].
  apply (service_down key x Hget).
Qed.

Lemma out_respond (x : ExpertAgent) (prompt : string) :
  always_fails x ->
  triple Cfg (respond x prompt)
         (fun r s => Cfg s /\ r = error_sentinel (role x)) any_exit.
Proof.
  intros Hfail s Hs.
  pose proof (respond_triple roster agents no_inv no_inv_stable x prompt s Hs)
    as H.
  unfold respond in *. destruct (Hfail (history s) prompt) as [e He].
  rewrite He. split; [exact H | reflexivity].
Qed.

Ltac out_keep :=
  lazymatch goal with
  | |- triple _ (_add_transcript _ _ _) _ _ =>
      apply (triple_any_exit _ _ _ _
               (add_transcript_triple roster agents no_inv no_inv_stable _ _ _))
  | |- triple _ (_get_recent_discussion _) _ _ =>
      apply (triple_any_exit _ _ _ _
               (get_recent_discussion_triple roster agents no_inv _))
  | |- triple _ (gets self_expert_roles) _ _ =>
      apply (triple_any_exit _ _ _ _ (gets_roles_triple roster agents no_inv))
  end.

Lemma out_moderator_decide_followup (cc tp : string) (round_number : Z) :
  triple Cfg (_moderator_decide_followup cc tp round_number)
         (fun res s => Cfg s /\ res = (false, [])) any_exit.
Proof.
  unfold _moderator_decide_followup.
  eapply triple_bind; [out_keep |]. intros recent.
  eapply triple_bind; [out_keep |].
  intros roles. apply triple_assume. intros ->.
  eapply triple_bind; [apply out_agent_of |].
  intros m. apply triple_assume. intros [Hfail Hline].
  eapply triple_bind; [apply (out_respond m _ Hfail) |].
  intros response. apply triple_assume. intros ->.
  apply triple_ret. intros s Hs. split; [exact Hs |].
  apply parse_followup_sentinel, Hline.
Qed.

(** The debate loop stops at its first pass. *)
Lemma out_debate_loop (cc tp : string) (max_rounds round_num : Z) :
  triple Cfg (debate_loop cc tp max_rounds round_num)
         (fun r s => Cfg s /\ r = round_num) any_exit.
Proof.
  intros s Hs. rewrite debate_loop_step.
  destruct (round_num <=? max_rounds); [| split; [exact Hs | reflexivity]].
  pose proof (out_moderator_decide_followup cc tp round_num s Hs) as H.
  unfold debate_body, bind.
  destruct (_moderator_decide_followup cc tp round_num s)
    as [[[should targets] | e] s1]; [| exact Logic.I].
  destruct H as [Hs1 E]. injection E as -> ->. cbn.
  split; [exact Hs1 | reflexivity].
Qed.

Lemma out_conduct_voting (cc : string) :
  triple Cfg (_conduct_voting cc)
         (fun votes s => Cfg s /\ Forall abstention votes) any_exit.
Proof.
  unfold _conduct_voting.
  eapply triple_bind; [out_keep |]. intros ?.
  eapply triple_bind; [out_keep |]. intros recent.
  eapply triple_bind; [out_keep |].
  intros roles. apply triple_assume. intros ->.
  apply triple_pre with (P := fun s => Cfg s /\ Forall abstention []).
  - apply (triple_for_fold (fun votes s => Cfg s /\ Forall abstention votes)).
    intros votes voter Hvoter. apply triple_assume. intros Hvotes.
    eapply triple_bind; [apply out_agent_of |].
    intros x. apply triple_assume. intros [Hfail Hline].
    eapply triple_bind; [apply (out_respond x _ Hfail) |].
    intros response. apply triple_assume. intros ->.
    eapply triple_bind; [out_keep |]. intros ?.
    apply triple_ret. intros s Hs. split; [exact Hs |].
    apply Forall_app. split; [exact Hvotes |].
    constructor; [| constructor].
    rewrite (parse_vote_sentinel voter (role x) Hline).
    repeat split. eexists. reflexivity.
  - intros s Hs. split; [exact Hs | constructor].
Qed.

Lemma out_start_discussion (today cc tp : string)
    (data : option CountryData) (max_rounds : Z) :
  triple (config roster agents)
         (start_discussion today cc tp data max_rounds)
         (fun res _ => debate_rounds res = 1 /\ Forall abstention (votes res))
         any_exit.
Proof.
  unfold start_discussion.
  apply triple_bind with (R := fun _ => Cfg).
  { intros s Hs. split; [exact Logic.I | exact Hs]. }
  intros ?.
  apply triple_bind with (R := fun _ => Cfg).
  { intros s Hs. exact Hs. }
  intros ?.
  apply triple_bind with (R := fun _ => Cfg).
  { intros s Hs. exact Hs. }
  intros ?.
  eapply triple_bind;
    [apply (triple_any_exit _ _ _ _
              (moderator_introduce_triple roster agents no_inv no_inv_stable
                                          _ _ _)) |].
  intros intro.
  eapply triple_bind;
    [apply (triple_any_exit _ _ _ _
              (collect_round_analyses_triple roster agents no_inv
                                             no_inv_stable _ _ _ _ _)) |].
  intros ?.
  eapply triple_bind; [apply out_debate_loop |].
  intros r. apply triple_assume. intros ->.
  eapply triple_bind; [apply out_conduct_voting |].
  intros vs. apply triple_assume. intros Hvs.
  intros s Hs. unfold bind, lift.
  destruct (_calculate_final_mood vs) as [[mood score] | e];
    [| exact Logic.I].
  destruct (_moderator_conclude cc mood score s) as [[concl | e] s1];
    [| exact Logic.I].
  cbn. split; [reflexivity | exact Hvs].
Qed.

End Outage.

(** The agents of the panel the factory builds: the moderator and one
    per role, each built over the given completion service. *)
Lemma init_agents (backend : Backend) (model_id key : string)
    (x : ExpertAgent) :
  dict_get (self_agents (create_panel_discussion_strands_v2 backend model_id))
           key = Ok x ->
  exists r instruction,
    x = ExpertAgent_init backend r instruction model_id
    /\ In r ("Moderator"
             :: self_expert_roles
                  (create_panel_discussion_strands_v2 backend model_id)).
Proof.
  remember (self_agents (create_panel_discussion_strands_v2 backend model_id))
    as d eqn:Hd.
  cbv [create_panel_discussion_strands_v2 PanelDiscussionStrandsV2_init
       self_agents fold_left expert_instructions] in Hd.
  vm_compute dict_set in Hd.
  subst d. cbn [dict_get].
  repeat match goal with
         | |- context [String.eqb ?k key] => destruct (String.eqb k key)
         end;
    intros E; try discriminate E; injection E as <-;
    eexists _, _; (split; [reflexivity |]); cbn; tauto.
Qed.

Lemma failing_panel_outage : outage (self_agents failing_panel).
Proof.
  intros key x Hget.
  destruct (init_agents _ _ _ _ Hget) as (r & instruction & -> & Hr).
  split.
  - intros calls prompt. eexists. reflexivity.
  - cbn in Hr. destruct Hr as [<- | [<- | [<- | [<- | []]]]]; reflexivity.
Qed.

Lemma failing_run_returns :
  failing_run = (Ok (result_of failing_run), snd failing_run).
Proof. vm_compute. reflexivity. Qed.

(** While the completion service is down (every call of every agent
    raises), a run that returns reports one round, one default vote per
    role (neutral, confidence 0.5, the error marker as reasoning), the
    verdict neutral at 50, and [4 + 2 * len(roster)] turns: the outage
    shows only in the texts. *)
Theorem start_discussion_outage (s s' : PanelDiscussionStrandsV2)
    (today cc tp : string) (data : option CountryData) (max_rounds : Z)
    (res : PanelResult) :
  outage (self_agents s) ->
  start_discussion today cc tp data max_rounds s = (Ok res, s') ->
  final_mood res = "neutral"
  /\ (final_score res == 50)%Q
  /\ debate_rounds res = 1
  /\ total_turns res = 4 + 2 * Z.of_nat (List.length (self_expert_roles s))
  /\ List.length (votes res) = List.length (self_expert_roles s)
  /\ Forall abstention (votes res).
Proof.
  intros Hdown Hrun.
  pose proof (out_start_discussion (self_expert_roles s) (self_agents s) Hdown
                today cc tp data max_rounds s (conj eq_refl eq_refl)) as Hout.
  rewrite Hrun in Hout. destruct Hout as [Hrounds Habs].
  destruct (run_account_of_run _ _ _ _ _ _ _ _ Hrun)
    as (Hroles & Hvalid & Hcalc & _ & Htotal & (k & Hk & Hts & _) & _).
  assert (Hneutral : Forall (fun v => vote_mood v = "neutral") (votes res)).
  { eapply Forall_impl; [| exact Habs]. intros v Hv. apply Hv. }
  destruct (calculate_final_mood_all_neutral _ _ _ Hvalid Hneutral Hcalc)
    as [Hmood Hscore].
  split; [exact Hmood |]. split; [exact Hscore |]. split; [exact Hrounds |].
  split; [| split; [| exact Habs]].
  - unfold later_rounds in *. rewrite Hrounds in *.
    change (Z.to_nat (1 - 1)) with 0%nat in *.
    rewrite Nat.mul_0_r in Hk. rewrite Htotal, Hts. lia.
  - rewrite <- Hroles. symmetry. apply length_map.
Qed.

Lemma start_discussion_outage_witness :
  outage (self_agents failing_panel)
  /\ failing_run = (Ok (result_of failing_run), snd failing_run)
  /\ final_mood (result_of failing_run) = "neutral"
  /\ debate_rounds (result_of failing_run) = 1.
Proof.
  split; [exact failing_panel_outage |].
  split; [exact failing_run_returns |].
  destruct (start_discussion_outage _ _ _ _ _ _ _ _
              failing_panel_outage failing_run_returns)
    as (H1 & _ & H3 & _).
  split; [exact H1 | exact H3].
Defined.

(** ** The entries of a run *)

Lemma entries_ok_mono (roster : list string) (b b' : Z)
    (ts : list Transcript) (an : list ExpertAnalysis) :
  b <= b' -> entries_ok roster b ts an -> entries_ok roster b' ts an.
Proof.
  intros Hb (Ht & Ha & Hrec). split; [| split; [| exact Hrec]].
  - eapply Forall_impl; [| exact Ht]. intros t [Hsp Hrn].
    split; [exact Hsp |]. unfold round_ok in *.
    destruct (round_number t); [lia | exact Logic.I].
  - eapply Forall_impl; [| exact Ha]. intros a [Hrole Hrn].
    split; [exact Hrole | lia].
Qed.

Section Entries.

Variable roster : list string.
Variable agents : list (string * ExpertAgent).

Local Abbreviation Ent := (entries roster agents).

Lemma ent_add_transcript (sp c : string) (rn : option Z) (b : Z) :
  speaker_ok roster sp -> round_ok b rn ->
  triple (Ent b) (_add_transcript sp c rn) (fun _ => Ent b) any_exit.
Proof.
  intros Hsp Hrn s (Hc & Ht & Ha & Hrec). rewrite add_transcript_run.
  split; [exact Hc |]. cbn [self_transcripts self_analyses set_transcripts
                             set_turn_order].
  split; [| split; [exact Ha |]].
  - apply Forall_app. split; [exact Ht |].
    constructor; [split; assumption | constructor].
  - eapply Forall_impl; [| exact Hrec]. intros a Hex.
    apply Exists_app. left. exact Hex.
Qed.

(** An analysis and the turn that records it. *)
Lemma ent_record (voice content : string) (rn b : Z) :
  In voice roster -> 1 <= rn <= b ->
  triple (Ent b)
         (bind (append_analysis {| ea_expert_role := voice;
                                   analysis_text := content;
                                   ea_round_number := rn |})
               (fun _ => _add_transcript voice content (Some rn)))
         (fun _ => Ent b) any_exit.
Proof.
  intros Hin Hrn s (Hc & Ht & Ha & Hrec). unfold bind.
  rewrite append_analysis_run, add_transcript_run.
  split; [exact Hc |]. cbn [self_transcripts self_analyses set_transcripts
                             set_turn_order set_analyses self_turn_order].
  split; [| split].
  - apply Forall_app. split; [exact Ht |].
    constructor; [| constructor]. split; [right; exact Hin | exact Hrn].
  - apply Forall_app. split; [exact Ha |].
    constructor; [split; assumption | constructor].
  - apply Forall_app. split.
    + eapply Forall_impl; [| exact Hrec]. intros a Hex.
      apply Exists_app. left. exact Hex.
    + constructor; [| constructor]. apply Exists_app. right.
      constructor. repeat split.
Qed.

Lemma ent_get_recent_discussion (n : nat) (b : Z) :
  triple (Ent b) (_get_recent_discussion n) (fun _ => Ent b) any_exit.
Proof. intros s Hs. exact Hs. Qed.

Lemma ent_respond (x : ExpertAgent) (prompt : string) (b : Z) :
  triple (Ent b) (respond x prompt) (fun _ => Ent b) any_exit.
Proof. intros s Hs. exact Hs. Qed.

Lemma ent_agent_of (key : string) (b : Z) :
  triple (Ent b) (agent_of key) (fun _ => Ent b) any_exit.
Proof.
  intros s Hs. unfold agent_of, bind, gets, lift.
  destruct (dict_get (self_agents s) key); [exact Hs | exact Logic.I].
Qed.

Lemma ent_gets_roles (b : Z) :
  triple (Ent b) (gets self_expert_roles)
         (fun r s => Ent b s /\ r = roster) any_exit.
Proof. intros s Hs. split; [exact Hs |]. apply Hs. Qed.

Lemma ent_first_role (b : Z) :
  triple (Ent b) (lift (Py.item roster 0)) (fun _ => Ent b) any_exit.
Proof.
  intros s Hs. unfold lift.
  destruct (Py.item roster 0); [exact Hs | exact Logic.I].
Qed.

Ltac ent_prim m :=
  lazymatch m with
  | _add_transcript "Moderator" _ _ =>
      apply ent_add_transcript; [left; reflexivity | assumption || exact Logic.I]
  | _get_recent_discussion _ => apply ent_get_recent_discussion
  | respond _ _ => apply ent_respond
  | agent_of _ => apply ent_agent_of
  | lift (Py.item _ 0) => apply ent_first_role
  end.

Ltac ent_step :=
  lazymatch goal with
  | |- triple _ (bind (append_analysis _) _) _ _ =>
      apply ent_record; assumption
  | |- triple _ (bind ?m _) _ _ => eapply triple_bind; [ent_prim m | intros ?]
  | |- triple _ ?m _ _ => ent_prim m
  end.

Lemma ent_moderator_introduce (cc tp context : string) (b : Z) :
  triple (Ent b) (_moderator_introduce cc tp context) (fun _ => Ent b)
         any_exit.
Proof.
  unfold _moderator_introduce. ent_step. ent_step. ent_step.
  apply triple_ret. auto.
Qed.

Lemma ent_collect_round_analyses (cc tp context : string)
    (round_number : Z) (is_first : bool) (b : Z) :
  1 <= round_number <= b ->
  triple (Ent b)
         (_collect_round_analyses cc tp context round_number is_first)
         (fun _ => Ent b) any_exit.
Proof.
  intros Hrn. assert (Hok : round_ok b (Some round_number)) by exact Hrn.
  unfold _collect_round_analyses.
  eapply triple_bind; [apply ent_gets_roles |].
  intros roles. apply triple_assume. intros ->.
  apply triple_bind with (R := fun _ => Ent b).
  { destruct is_first; ent_step; apply triple_ret; auto. }
  intros q. ent_step.
  apply triple_for_each. intros voice Hvoice.
  apply triple_bind with (R := fun _ => Ent b).
  { destruct is_first; [| ent_step]; apply triple_ret; auto. }
  intros prompt. ent_step. ent_step. ent_step.
Qed.

Lemma ent_moderator_decide_followup (cc tp : string) (round_number b : Z) :
  triple (Ent b) (_moderator_decide_followup cc tp round_number)
         (fun res s => Ent b s /\ incl (snd res) roster) any_exit.
Proof.
  unfold _moderator_decide_followup. ent_step.
  eapply triple_bind; [apply ent_gets_roles |].
  intros roles. apply triple_assume. intros ->.
  ent_step. ent_step. apply triple_ret.
  intros s Hs. split; [exact Hs | apply parse_followup_incl].
Qed.

Lemma ent_conduct_round (cc tp : string) (round_number : Z)
    (targets : list string) (b : Z) :
  incl targets roster -> 1 <= round_number <= b ->
  triple (Ent b) (_conduct_dynamic_debate_round cc tp round_number targets)
         (fun _ => Ent b) any_exit.
Proof.
  intros Hincl Hrn.
  assert (Hok : round_ok b (Some round_number)) by exact Hrn.
  unfold _conduct_dynamic_debate_round.
  eapply triple_bind; [apply ent_gets_roles |].
  intros roles. apply triple_assume. intros ->.
  ent_step. ent_step. ent_step. ent_step.
  apply triple_for_each. intros voice Hvoice.
  assert (Hin : In voice roster).
  { destruct targets; [exact Hvoice | apply Hincl, Hvoice]. }
  ent_step. ent_step. ent_step. ent_step.
Qed.

Lemma ent_conduct_voting (cc : string) (b : Z) :
  triple (Ent b) (_conduct_voting cc) (fun _ => Ent b) any_exit.
Proof.
  unfold _conduct_voting. ent_step. ent_step.
  eapply triple_bind; [apply ent_gets_roles |].
  intros roles. apply triple_assume. intros ->.
  apply (triple_for_fold (fun _ => Ent b)).
  intros votes voice Hvoice. ent_step. ent_step.
  eapply triple_bind;
    [apply ent_add_transcript; [right; exact Hvoice | exact Logic.I] |].
  intros ?. apply triple_ret. auto.
Qed.

Lemma ent_moderator_conclude (cc mood : string) (score : Q) (b : Z) :
  triple (Ent b) (_moderator_conclude cc mood score) (fun _ => Ent b)
         any_exit.
Proof.
  unfold _moderator_conclude. ent_step. ent_step. ent_step. ent_step.
  apply triple_ret. auto.
Qed.

(** The debate loop entered at [round_num] with every entry below it
    ends at some [r] with every entry below [r]. *)
Lemma ent_debate_loop (cc tp : string) (max_rounds : Z) :
  forall (n : nat) (round_num : Z),
    Z.to_nat (max_rounds + 1 - round_num) = n ->
    2 <= round_num ->
    triple (Ent (round_num - 1)) (debate_loop cc tp max_rounds round_num)
           (fun r s => Ent (r - 1) s) any_exit.
Proof.
  induction n as [| n IH]; intros round_num Hn H2 s Hs;
    rewrite debate_loop_step;
    destruct (round_num <=? max_rounds) eqn:Hle;
    try (apply Z.leb_le in Hle; lia);
    try exact Hs.
  apply Z.leb_le in Hle.
  pose proof (ent_moderator_decide_followup cc tp round_num _ s Hs) as Hdec.
  unfold debate_body, bind.
  destruct (_moderator_decide_followup cc tp round_num s)
    as [[[should targets] | e] s1]; [| exact Logic.I].
  destruct Hdec as [Hs1 Hincl]. cbn [snd] in Hincl.
  destruct should; cbn [negb]; [| exact Hs1].
  assert (Hs1' : Ent round_num s1).
  { destruct Hs1 as [Hc Hok]. split; [exact Hc |].
    apply (entries_ok_mono roster (round_num - 1)); [lia | exact Hok]. }
  assert (Hrn : 1 <= round_num <= round_num) by lia.
  pose proof (ent_conduct_round cc tp round_num targets round_num Hincl Hrn
                                s1 Hs1') as Hround.
  destruct (_conduct_dynamic_debate_round cc tp round_num targets s1)
    as [[[] | e] s2]; [| exact Logic.I].
  cbn [ret].
  assert (Hn' : Z.to_nat (max_rounds + 1 - (round_num + 1)) = n) by lia.
  assert (H2' : 2 <= round_num + 1) by lia.
  replace round_num with (round_num + 1 - 1) in Hround at 1 by lia.
  exact (IH (round_num + 1) Hn' H2' s2 Hround).
Qed.

Lemma ent_start_discussion (today cc tp : string)
    (data : option CountryData) (max_rounds : Z) :
  triple (config roster agents)
         (start_discussion today cc tp data max_rounds)
         (fun res _ => entries_ok roster (debate_rounds res)
                                  (transcripts res) (analyses res))
         any_exit.
Proof.
  unfold start_discussion.
  apply triple_bind with
    (R := fun _ s => config roster agents s /\ self_transcripts s = []).
  { intros s Hs. simpl. split; [exact Hs | reflexivity]. }
  intros ?.
  apply triple_bind with (R := fun _ => Ent 1).
  { intros s (Hc & Ht). split; [exact Hc |]. cbn. rewrite Ht.
    repeat split; constructor. }
  intros ?.
  apply triple_bind with (R := fun _ => Ent 1).
  { intros s Hs. exact Hs. }
  intros ?.
  eapply triple_bind; [apply ent_moderator_introduce |].
  intros intro.
  eapply triple_bind; [apply ent_collect_round_analyses; lia |].
  intros ?.
  eapply triple_bind;
    [apply (ent_debate_loop cc tp max_rounds _ 2 eq_refl); lia |].
  intros r.
  eapply triple_bind; [apply ent_conduct_voting |].
  intros vs.
  intros s Hs. unfold bind at 1. unfold lift.
  destruct (_calculate_final_mood vs) as [[mood score] | e];
    [| exact Logic.I].
  revert s Hs.
  change (triple (Ent (r - 1))
            (concl <- _moderator_conclude cc mood score ;;
             ts <- gets self_transcripts ;;
             an <- gets self_analyses ;;
             ret {| country_code := cc; topic := tp; final_mood := mood;
                    final_score := score; introduction := intro;
                    conclusion := concl; discussion_date := today;
                    total_turns := Z.of_nat (List.length ts);
                    debate_rounds := r - 1; analyses := an; votes := vs;
                    transcripts := ts |})
            (fun res _ => entries_ok roster (debate_rounds res)
                                     (transcripts res) (analyses res))
            any_exit).
  eapply triple_bind; [apply ent_moderator_conclude |].
  intros concl.
  eapply triple_bind; [apply triple_gets |].
  intros ts.
  eapply triple_bind; [apply triple_gets |].
  intros an.
  apply triple_ret.
  intros s (([_ Hok] & ->) & ->). exact Hok.
Qed.

End Entries.

(** Every entry of a result is in order: each turn is spoken by the
    Moderator or a role of the roster, each analysis is of a role of
    the roster, the round number of a turn or of an analysis lies
    between 1 and [debate_rounds], and every analysis is recorded in
    the transcript by a turn with its role, its text and its round. *)
Theorem start_discussion_entries (s s' : PanelDiscussionStrandsV2)
    (today cc tp : string) (data : option CountryData) (max_rounds : Z)
    (res : PanelResult) :
  start_discussion today cc tp data max_rounds s = (Ok res, s') ->
  Forall (turn_ok (self_expert_roles s) (debate_rounds res))
         (transcripts res)
  /\ Forall (analysis_ok (self_expert_roles s) (debate_rounds res))
            (analyses res)
  /\ Forall (fun a => Exists (recorded a) (transcripts res)) (analyses res).
Proof.
  intros Hrun.
  pose proof (ent_start_discussion (self_expert_roles s) (self_agents s)
                today cc tp data max_rounds s (conj eq_refl eq_refl)) as H.
  rewrite Hrun in H. exact H.
Qed.

Lemma start_discussion_entries_witness :
  sample_run 5 = (Ok (result_of (sample_run 5)), snd (sample_run 5))
  /\ Forall (analysis_ok (self_expert_roles sample_panel)
                         (debate_rounds (result_of (sample_run 5))))
            (analyses (result_of (sample_run 5))).
Proof.
  split; [exact sample_run_returns |].
  destruct (start_discussion_entries _ _ _ _ _ _ _ _ sample_run_returns)
    as (_ & H2 & _).
  exact H2.
Defined.

(** ** The completion calls of a run *)

Section Calls.

Variable roster : list string.
Variable agents : list (string * ExpertAgent).

Local Abbreviation Cnt := (counts roster agents).
Local Abbreviation R := (List.length roster).

Lemma cnt_eq (a a' c c' : nat) (s : PanelDiscussionStrandsV2) :
  a = a' -> c = c' -> Cnt a c s -> Cnt a' c' s.
Proof. intros -> ->. auto. Qed.

Lemma cnt_add_transcript (sp content : string) (rn : option Z) (a c : nat) :
  triple (Cnt a c) (_add_transcript sp content rn) (fun _ => Cnt a c)
         any_exit.
Proof. intros s Hs. rewrite add_transcript_run. exact Hs. Qed.

Lemma cnt_append_analysis (x : ExpertAnalysis) (a c : nat) :
  triple (Cnt a c) (append_analysis x) (fun _ => Cnt (S a) c) any_exit.
Proof.
  intros s (Hc & Ha & Hcalls). rewrite append_analysis_run.
  split; [exact Hc |]. split; [| exact Hcalls].
  cbn [self_analyses set_analyses]. rewrite length_app, Ha.
  cbn [List.length]. lia.
Qed.

Lemma cnt_get_recent_discussion (n a c : nat) :
  triple (Cnt a c) (_get_recent_discussion n) (fun _ => Cnt a c) any_exit.
Proof. intros s Hs. exact Hs. Qed.

Lemma cnt_respond (x : ExpertAgent) (prompt : string) (a c : nat) :
  triple (Cnt a c) (respond x prompt) (fun _ => Cnt a (S c)) any_exit.
Proof.
  intros s (Hc & Ha & Hcalls). unfold respond.
  split; [exact Hc |]. split; [exact Ha |].
  cbn [history log_call List.length]. rewrite Hcalls. reflexivity.
Qed.

Lemma cnt_agent_of (key : string) (a c : nat) :
  triple (Cnt a c) (agent_of key) (fun _ => Cnt a c) any_exit.
Proof.
  intros s Hs. unfold agent_of, bind, gets, lift.
  destruct (dict_get (self_agents s) key); [exact Hs | exact Logic.I].
Qed.

Lemma cnt_gets_roles (a c : nat) :
  triple (Cnt a c) (gets self_expert_roles)
         (fun r s => Cnt a c s /\ r = roster) any_exit.
Proof. intros s Hs. split; [exact Hs |]. apply Hs. Qed.

Lemma cnt_first_role (a c : nat) :
  triple (Cnt a c) (lift (Py.item roster 0)) (fun _ => Cnt a c) any_exit.
Proof.
  intros s Hs. unfold lift.
  destruct (Py.item roster 0); [exact Hs | exact Logic.I].
Qed.

(** A loop whose body makes one call and adds one analysis. *)
Lemma cnt_for_each (l : list string) (body : string -> M unit) :
  (forall x a c, In x l ->
     triple (Cnt a c) (body x) (fun _ => Cnt (S a) (S c)) any_exit) ->
  forall a c,
    triple (Cnt a c) (for_each l body)
           (fun _ => Cnt (a + List.length l) (c + List.length l)) any_exit.
Proof.
  induction l as [| x l IH]; intros Hbody a c; cbn [for_each List.length].
  - apply triple_ret. intros s Hs.
    apply (cnt_eq a _ c _ s); [lia | lia | exact Hs].
  - eapply triple_bind.
    + apply Hbody. left. reflexivity.
    + intros ?. eapply triple_post.
      * apply IH. intros y a' c' Hy. apply Hbody. right. exact Hy.
      * intros ? s Hs. cbv beta in Hs.
        eapply cnt_eq; [| | exact Hs]; lia.
Qed.

Ltac cnt_prim m :=
  lazymatch m with
  | _add_transcript _ _ _ => apply cnt_add_transcript
  | append_analysis _ => apply cnt_append_analysis
  | _get_recent_discussion _ => apply cnt_get_recent_discussion
  | respond _ _ => apply cnt_respond
  | agent_of _ => apply cnt_agent_of
  | lift (Py.item _ 0) => apply cnt_first_role
  end.

Ltac cnt_step :=
  lazymatch goal with
  | |- triple _ (bind ?m _) _ _ => eapply triple_bind; [cnt_prim m | intros ?]
  | |- triple _ ?m _ _ => cnt_prim m
  end.

Lemma cnt_moderator_introduce (cc tp context : string) (a c : nat) :
  triple (Cnt a c) (_moderator_introduce cc tp context)
         (fun _ => Cnt a (S c)) any_exit.
Proof.
  unfold _moderator_introduce. cnt_step. cnt_step. cnt_step.
  apply triple_ret. auto.
Qed.

Lemma cnt_collect_first_round (cc tp context : string) (round_number : Z)
    (a c : nat) :
  triple (Cnt a c) (_collect_round_analyses cc tp context round_number true)
         (fun _ => Cnt (a + R) (c + R)) any_exit.
Proof.
  unfold _collect_round_analyses.
  eapply triple_bind; [apply cnt_gets_roles |].
  intros roles. apply triple_assume. intros ->.
  apply triple_bind with (R := fun _ => Cnt a c).
  { cnt_step. apply triple_ret. auto. }
  intros q. cnt_step.
  apply cnt_for_each. intros voice a' c' Hvoice.
  apply triple_bind with (R := fun _ => Cnt a' c').
  { apply triple_ret. auto. }
  intros prompt. cnt_step. cnt_step. cnt_step. cnt_step.
Qed.

Lemma cnt_conduct_round (cc tp : string) (round_number : Z)
    (targets : list string) (a c : nat) :
  triple (Cnt a c) (_conduct_dynamic_debate_round cc tp round_number targets)
         (fun _ s =>
            let k := List.length (match targets with
                                  | [] => roster
                                  | _ => targets
                                  end) in
            Cnt (a + k) (c + 1 + k) s)
         any_exit.
Proof.
  unfold _conduct_dynamic_debate_round.
  eapply triple_bind; [apply cnt_gets_roles |].
  intros roles. apply triple_assume. intros ->.
  cnt_step. cnt_step. cnt_step. cnt_step.
  eapply triple_post.
  - apply cnt_for_each. intros voice a' c' Hvoice.
    cnt_step. cnt_step. cnt_step. cnt_step. cnt_step.
  - intros ? s Hs. cbv beta zeta in *.
    eapply cnt_eq; [| | exact Hs]; lia.
Qed.

Lemma cnt_moderator_decide_followup (cc tp : string) (round_number : Z)
    (a c : nat) :
  triple (Cnt a c) (_moderator_decide_followup cc tp round_number)
         (fun res s => Cnt a (S c) s /\ (List.length (snd res) <= R)%nat)
         any_exit.
Proof.
  unfold _moderator_decide_followup. cnt_step.
  eapply triple_bind; [apply cnt_gets_roles |].
  intros roles. apply triple_assume. intros ->.
  cnt_step. cnt_step. apply triple_ret.
  intros s Hs. split; [exact Hs | apply parse_followup_length].
Qed.

(** One pass of the debate loop makes one call and stops, or makes two
    calls and one more per answer. *)
Lemma cnt_debate_body (cc tp : string) (round_num : Z) (a c : nat) :
  triple (Cnt a c) (debate_body cc tp round_num)
         (fun goes_on s =>
            if goes_on
            then exists k, Cnt (a + k) (c + 2 + k) s
            else Cnt a (c + 1) s)
         any_exit.
Proof.
  unfold debate_body.
  eapply triple_bind; [apply cnt_moderator_decide_followup |].
  intros [should targets]. cbn [snd].
  intros s (Hs & _).
  destruct should; cbn [negb].
  - pose proof (cnt_conduct_round cc tp round_num targets a (S c) s Hs) as H.
    unfold bind. destruct (_conduct_dynamic_debate_round _ _ _ _ s)
      as [[[] | e] s1]; [| exact Logic.I].
    cbn [ret]. cbv zeta in H.
    exists (List.length (match targets with [] => roster | _ => targets end)).
    eapply cnt_eq; [| | exact H]; lia.
  - cbn [ret]. eapply cnt_eq; [| | exact Hs]; lia.
Qed.

(** The debate loop over [d] rounds makes two calls per round and one
    per answer, and one more when the moderator ends it before
    [max_rounds] is reached. *)
Lemma cnt_debate_loop_exit (max_rounds round_num : Z) (a c : nat)
    (s : PanelDiscussionStrandsV2) :
  (round_num <=? max_rounds) = false ->
  Cnt a c s ->
  round_num <= round_num
  /\ exists k,
       Cnt (a + k)
           (c + 2 * Z.to_nat (round_num - round_num) + k
            + closing_call max_rounds (round_num - 1)) s.
Proof.
  intros Hle Hs. apply Z.leb_gt in Hle. split; [lia |]. exists 0%nat.
  unfold closing_call.
  destruct (round_num - 1 <? max_rounds) eqn:Hlt;
    [apply Z.ltb_lt in Hlt; lia |].
  rewrite Z.sub_diag. eapply cnt_eq; [| | exact Hs]; lia.
Qed.

Lemma cnt_debate_loop (cc tp : string) (max_rounds : Z) :
  forall (n : nat) (round_num : Z) (a c : nat),
    Z.to_nat (max_rounds + 1 - round_num) = n ->
    triple (Cnt a c) (debate_loop cc tp max_rounds round_num)
           (fun r s =>
              round_num <= r
              /\ exists k,
                   Cnt (a + k)
                       (c + 2 * Z.to_nat (r - round_num) + k
                        + closing_call max_rounds (r - 1)) s)
           any_exit.
Proof.
  induction n as [| n IH]; intros round_num a c Hn s Hs;
    rewrite debate_loop_step;
    destruct (round_num <=? max_rounds) eqn:Hle;
    try (apply cnt_debate_loop_exit; assumption).
  - apply Z.leb_le in Hle. lia.
  - apply Z.leb_le in Hle.
    pose proof (cnt_debate_body cc tp round_num a c s Hs) as Hbody.
    destruct (debate_body cc tp round_num s) as [[[|] | e] s1];
      [| | exact Logic.I].
    + destruct Hbody as (k1 & Hs1).
      assert (Hn' : Z.to_nat (max_rounds + 1 - (round_num + 1)) = n) by lia.
      pose proof (IH (round_num + 1) _ _ Hn' s1 Hs1) as Hrec.
      destruct (debate_loop cc tp max_rounds (round_num + 1) s1)
        as [[r | e] s2]; [| exact Logic.I].
      destruct Hrec as (Hr & k2 & Hs2).
      split; [lia |]. exists (k1 + k2)%nat.
      eapply cnt_eq; [| | exact Hs2]; lia.
    + split; [lia |]. exists 0%nat. unfold closing_call.
      destruct (round_num - 1 <? max_rounds) eqn:Hlt;
        [| apply Z.ltb_ge in Hlt; lia].
      rewrite Z.sub_diag. eapply cnt_eq; [| | exact Hbody]; lia.
Qed.

Lemma cnt_conduct_voting (cc : string) (a c : nat) :
  triple (Cnt a c) (_conduct_voting cc)
         (fun votes s => Cnt a (c + List.length votes) s) any_exit.
Proof.
  unfold _conduct_voting. cnt_step. cnt_step.
  eapply triple_bind; [apply cnt_gets_roles |].
  intros roles. apply triple_assume. intros ->.
  apply triple_pre with
    (P := fun s => Cnt a (c + List.length ([] : list Vote)) s).
  - apply (triple_for_fold
             (fun (votes : list Vote) s => Cnt a (c + List.length votes) s)).
    intros votes voice Hvoice. cnt_step. cnt_step. cnt_step.
    apply triple_ret. intros s Hs. rewrite length_app. cbn [List.length].
    eapply cnt_eq; [| | exact Hs]; lia.
  - intros s Hs. cbn [List.length]. eapply cnt_eq; [| | exact Hs]; lia.
Qed.

Lemma cnt_moderator_conclude (cc mood : string) (score : Q) (a c : nat) :
  triple (Cnt a c) (_moderator_conclude cc mood score)
         (fun _ => Cnt a (S c)) any_exit.
Proof.
  unfold _moderator_conclude. cnt_step. cnt_step. cnt_step. cnt_step.
  apply triple_ret. auto.
Qed.

Lemma cnt_start_discussion (today cc tp : string)
    (data : option CountryData) (max_rounds : Z) (c : nat) :
  triple (fun s => config roster agents s /\ List.length (history s) = c)
         (start_discussion today cc tp data max_rounds)
         (fun res s =>
            List.length (history s)
            = (c + List.length (analyses res) + List.length (votes res)
               + 2 * Z.to_nat (debate_rounds res)
               + closing_call max_rounds (debate_rounds res))%nat)
         any_exit.
Proof.
  unfold start_discussion.
  apply triple_bind with
    (R := fun _ s => config roster agents s /\ List.length (history s) = c).
  { intros s Hs. exact Hs. }
  intros ?.
  apply triple_bind with (R := fun _ => Cnt 0 c).
  { intros s (Hc & Hcalls). split; [exact Hc |]. split; [reflexivity |].
    exact Hcalls. }
  intros ?.
  apply triple_bind with (R := fun _ => Cnt 0 c).
  { intros s Hs. exact Hs. }
  intros ?.
  eapply triple_bind; [apply cnt_moderator_introduce |].
  intros intro.
  eapply triple_bind; [apply cnt_collect_first_round |].
  intros ?.
  eapply triple_bind; [apply (cnt_debate_loop cc tp max_rounds _ 2 _ _ eq_refl) |].
  intros r.
  apply triple_pre with
    (P := fun s => exists k,
            Cnt (0 + R + k)
                (S c + R + 2 * Z.to_nat (r - 2) + k
                 + closing_call max_rounds (r - 1)) s /\ 2 <= r).
  2: { intros s (Hr & k & Hs). exists k. auto. }
  apply triple_exists. intros k. apply triple_assume. intros Hr.
  eapply triple_bind; [apply cnt_conduct_voting |].
  intros vs.
  intros s Hs. unfold bind at 1. unfold lift.
  destruct (_calculate_final_mood vs) as [[mood score] | e];
    [| exact Logic.I].
  pose proof (cnt_moderator_conclude cc mood score _ _ s Hs) as Hconcl.
  unfold bind.
  destruct (_moderator_conclude cc mood score s) as [[concl | e] s1];
    [| exact Logic.I].
  cbn. destruct Hconcl as (_ & Han & Hcalls).
  rewrite Hcalls, Han. lia.
Qed.

End Calls.

(** The completion calls of a run are accounted for by its result: one
    per analysis, one per vote, two per round (in round 1 the
    introduction and the conclusion, in a later round the moderator's
    decision and question), and one more when the moderator ends the
    debate before [max_rounds] is reached. *)
Theorem start_discussion_call_count (s s' : PanelDiscussionStrandsV2)
    (today cc tp : string) (data : option CountryData) (max_rounds : Z)
    (res : PanelResult) :
  start_discussion today cc tp data max_rounds s = (Ok res, s') ->
  List.length (history s')
  = (List.length (history s)
     + List.length (analyses res) + List.length (votes res)
     + 2 * Z.to_nat (debate_rounds res)
     + closing_call max_rounds (debate_rounds res))%nat.
Proof.
  intros Hrun.
  pose proof (cnt_start_discussion (self_expert_roles s) (self_agents s)
                today cc tp data max_rounds (List.length (history s)) s
                (conj (conj eq_refl eq_refl) eq_refl)) as H.
  rewrite Hrun in H. exact H.
Qed.

Lemma start_discussion_call_count_witness :
  sample_run 5 = (Ok (result_of (sample_run 5)), snd (sample_run 5))
  /\ List.length (history (snd (sample_run 5)))
     = (List.length (history sample_panel)
        + List.length (analyses (result_of (sample_run 5)))
        + List.length (votes (result_of (sample_run 5)))
        + 2 * Z.to_nat (debate_rounds (result_of (sample_run 5)))
        + closing_call 5 (debate_rounds (result_of (sample_run 5))))%nat.
Proof.
  split; [exact sample_run_returns |].
  exact (start_discussion_call_count _ _ _ _ _ _ _ _ sample_run_returns).
Defined.

Example sample_run_calls :
  List.length (history (snd (sample_run 5))) = 15%nat
  /\ List.length (analyses (result_of (sample_run 5))) = 5%nat
  /\ debate_rounds (result_of (sample_run 5)) = 3.
Proof. vm_compute. repeat split; reflexivity. Qed.

(** ** The percentage of a voting statement *)

Lemma percent_check_all :
  forallb (fun k => percent_check (Z.of_nat k)) (seq 0 101) = true.
Proof. vm_compute. reflexivity. Qed.

(** A confidence stated as a whole number [n] of 0..100 is announced
    in the voting statement as [n] percent in exact arithmetic; on
    binary64 numbers it is announced as [n] as well, except for 29, 57
    and 58, which are announced as 28, 56 and 57:
    [int(0.57 * 100)] is 56. *)
Theorem vote_percent_binary64_spec (n : Z) :
  0 <= n <= 100 ->
  Py.int (Py.min 100 (Py.max 0 (inject_Z n)) / 100 * 100)%Q = n
  /\ vote_percent_binary64 (confidence_binary64 (float_of_int n))
     = Some (announced_percent n).
Proof.
  intros Hn. pose proof percent_check_all as Hall.
  rewrite forallb_forall in Hall.
  assert (Hin : In (Z.to_nat n) (seq 0 101)) by (apply in_seq; lia).
  specialize (Hall _ Hin). rewrite Z2Nat.id in Hall by lia.
  unfold percent_check in Hall. apply andb_true_iff in Hall.
  destruct Hall as [Hexact Hfloat]. split.
  - apply Z.eqb_eq, Hexact.
  - destruct (vote_percent_binary64 _) as [v |]; [| discriminate].
    apply Z.eqb_eq in Hfloat. rewrite Hfloat. reflexivity.
Qed.

Lemma vote_percent_binary64_spec_witness :
  0 <= 57 <= 100
  /\ vote_percent_binary64 (confidence_binary64 (float_of_int 57)) = Some 56.
Proof.
  split; [lia |].
  exact (proj2 (vote_percent_binary64_spec 57 ltac:(lia))).
Defined.

(** ** The shape of a run *)

Section Shape.

Variable roster : list string.
Variable agents : list (string * ExpertAgent).

Local Abbreviation Sh := (shape roster agents).

Lemma sh_eq (tl tl' : list (string * option Z)) (al al' : list (string * Z))
    (s : PanelDiscussionStrandsV2) :
  tl = tl' -> al = al' -> Sh tl al s -> Sh tl' al' s.
Proof. intros -> ->. auto. Qed.

Lemma sh_add_transcript (sp content : string) (rn : option Z) tl al :
  triple (Sh tl al) (_add_transcript sp content rn)
         (fun _ => Sh (tl ++ [(sp, rn)]) al) any_exit.
Proof.
  intros s (Hc & Ht & Ha). rewrite add_transcript_run.
  split; [exact Hc |]. split; [| exact Ha].
  cbn [self_transcripts set_transcripts]. unfold slots in *.
  rewrite map_app, Ht. reflexivity.
Qed.

Lemma sh_append_analysis (x : ExpertAnalysis) tl al :
  triple (Sh tl al) (append_analysis x)
         (fun _ => Sh tl (al ++ [(ea_expert_role x, ea_round_number x)]))
         any_exit.
Proof.
  intros s (Hc & Ht & Ha). rewrite append_analysis_run.
  split; [exact Hc |]. split; [exact Ht |].
  cbn [self_analyses set_analyses]. unfold analysis_slots in *.
  rewrite map_app, Ha. reflexivity.
Qed.

Lemma sh_get_recent_discussion (n : nat) tl al :
  triple (Sh tl al) (_get_recent_discussion n) (fun _ => Sh tl al) any_exit.
Proof. intros s Hs. exact Hs. Qed.

Lemma sh_respond (x : ExpertAgent) (prompt : string) tl al :
  triple (Sh tl al) (respond x prompt) (fun _ => Sh tl al) any_exit.
Proof. intros s Hs. exact Hs. Qed.

Lemma sh_agent_of (key : string) tl al :
  triple (Sh tl al) (agent_of key) (fun _ => Sh tl al) any_exit.
Proof.
  intros s Hs. unfold agent_of, bind, gets, lift.
  destruct (dict_get (self_agents s) key); [exact Hs | exact Logic.I].
Qed.

Lemma sh_gets_roles tl al :
  triple (Sh tl al) (gets self_expert_roles)
         (fun r s => Sh tl al s /\ r = roster) any_exit.
Proof. intros s Hs. split; [exact Hs |]. apply Hs. Qed.

Lemma sh_first_role tl al :
  triple (Sh tl al) (lift (Py.item roster 0))
         (fun _ s => Sh tl al s /\ roster <> []) any_exit.
Proof.
  intros s Hs. unfold lift, Py.item.
  destruct roster; [exact Logic.I |]. split; [exact Hs | discriminate].
Qed.

(** A loop in which each voice answers once in round [rn]. *)
Lemma sh_for_each (rn : Z) (l : list string) (body : string -> M unit) :
  (forall x tl al, In x l ->
     triple (Sh tl al) (body x)
            (fun _ => Sh (tl ++ [(x, Some rn)]) (al ++ [(x, rn)])) any_exit) ->
  forall tl al,
    triple (Sh tl al) (for_each l body)
           (fun _ => Sh (tl ++ answer_slots (Some rn) l)
                        (al ++ answer_analyses rn l)) any_exit.
Proof.
  induction l as [| x l IH]; intros Hbody tl al; cbn [for_each].
  - apply triple_ret. intros s Hs.
    apply (sh_eq tl _ al _ s); [| | exact Hs];
      cbn; rewrite app_nil_r; reflexivity.
  - eapply triple_bind.
    + apply Hbody. left. reflexivity.
    + intros ?. eapply triple_post.
      * apply IH. intros y tl' al' Hy. apply Hbody. right. exact Hy.
      * intros ? s Hs. cbv beta in Hs.
        eapply sh_eq; [| | exact Hs];
          cbn; rewrite <- app_assoc; reflexivity.
Qed.

Ltac sh_prim m :=
  lazymatch m with
  | _add_transcript _ _ _ => apply sh_add_transcript
  | append_analysis _ => apply sh_append_analysis
  | _get_recent_discussion _ => apply sh_get_recent_discussion
  | respond _ _ => apply sh_respond
  | agent_of _ => apply sh_agent_of
  end.

Ltac sh_step :=
  lazymatch goal with
  | |- triple _ (bind ?m _) _ _ => eapply triple_bind; [sh_prim m | intros ?]
  | |- triple _ ?m _ _ => sh_prim m
  end.

Lemma sh_moderator_introduce (cc tp context : string) tl al :
  triple (Sh tl al) (_moderator_introduce cc tp context)
         (fun _ => Sh (tl ++ [("Moderator", None)]) al) any_exit.
Proof.
  unfold _moderator_introduce. sh_step. sh_step. sh_step.
  apply triple_ret. auto.
Qed.

Lemma sh_collect_first_round (cc tp context : string) (rn : Z) tl al :
  triple (Sh tl al) (_collect_round_analyses cc tp context rn true)
         (fun _ s => Sh (tl ++ round_slots rn roster)
                        (al ++ answer_analyses rn roster) s
                     /\ roster <> [])
         any_exit.
Proof.
  unfold _collect_round_analyses.
  eapply triple_bind; [apply sh_gets_roles |].
  intros roles. apply triple_assume. intros ->.
  apply triple_bind with (R := fun _ s => Sh tl al s /\ roster <> []).
  { eapply triple_bind; [apply sh_first_role |].
    intros ?. apply triple_ret. auto. }
  intros q. apply triple_assume. intros Hne.
  sh_step.
  eapply triple_post.
  - apply (sh_for_each rn). intros voice tl' al' Hvoice.
    apply triple_bind with (R := fun _ => Sh tl' al').
    { apply triple_ret. auto. }
    intros prompt. sh_step. sh_step. sh_step. sh_step.
  - intros ? s Hs. cbv beta in Hs. split; [| exact Hne].
    eapply sh_eq; [| | exact Hs];
      unfold round_slots; rewrite <- ?app_assoc; reflexivity.
Qed.

Lemma sh_conduct_round (cc tp : string) (rn : Z) (targets : list string)
    tl al :
  triple (Sh tl al) (_conduct_dynamic_debate_round cc tp rn targets)
         (fun _ s =>
            let voices := match targets with
                          | [] => roster
                          | _ => targets
                          end in
            Sh (tl ++ round_slots rn voices)
               (al ++ answer_analyses rn voices) s)
         any_exit.
Proof.
  unfold _conduct_dynamic_debate_round.
  eapply triple_bind; [apply sh_gets_roles |].
  intros roles. apply triple_assume. intros ->.
  sh_step. sh_step. sh_step. sh_step.
  eapply triple_post.
  - apply (sh_for_each rn). intros voice tl' al' Hvoice.
    sh_step. sh_step. sh_step. sh_step. sh_step.
  - intros ? s Hs. cbv beta zeta in *.
    eapply sh_eq; [| | exact Hs];
      unfold round_slots; rewrite <- ?app_assoc; reflexivity.
Qed.

Lemma sh_moderator_decide_followup (cc tp : string) (rn : Z) tl al :
  triple (Sh tl al) (_moderator_decide_followup cc tp rn)
         (fun res s => Sh tl al s
                       /\ (incl (snd res) roster
                           /\ (List.length (snd res)
                               <= List.length roster)%nat))
         any_exit.
Proof.
  unfold _moderator_decide_followup. sh_step.
  eapply triple_bind; [apply sh_gets_roles |].
  intros roles. apply triple_assume. intros ->.
  sh_step. sh_step. apply triple_ret.
  intros s Hs. split; [exact Hs |].
  split; [apply parse_followup_incl | apply parse_followup_length].
Qed.

Hypothesis roster_not_empty : roster <> [].

Lemma sh_debate_body (cc tp : string) (rn : Z) tl al :
  triple (Sh tl al) (debate_body cc tp rn)
         (fun goes_on s =>
            if goes_on
            then exists voices,
                   voices_ok roster voices
                   /\ Sh (tl ++ round_slots rn voices)
                         (al ++ answer_analyses rn voices) s
            else Sh tl al s)
         any_exit.
Proof.
  unfold debate_body.
  eapply triple_bind; [apply sh_moderator_decide_followup |].
  intros [should targets]. cbn [snd].
  intros s (Hs & Hincl & Hlen).
  destruct should; cbn [negb]; [| exact Hs].
  pose proof (sh_conduct_round cc tp rn targets tl al s Hs) as H.
  unfold bind. destruct (_conduct_dynamic_debate_round _ _ _ _ s)
    as [[[] | e] s1]; [| exact Logic.I].
  cbn [ret]. cbv zeta in H.
  exists (match targets with [] => roster | _ => targets end).
  split; [| exact H].
  destruct targets as [| x targets'].
  - split; [exact roster_not_empty |].
    split; [apply incl_refl | apply Nat.le_refl].
  - split; [discriminate |]. split; assumption.
Qed.

Lemma sh_debate_loop (cc tp : string) (max_rounds : Z) :
  forall (n : nat) (round_num : Z) tl al,
    Z.to_nat (max_rounds + 1 - round_num) = n ->
    triple (Sh tl al) (debate_loop cc tp max_rounds round_num)
           (fun r s =>
              exists rounds,
                r = round_num + Z.of_nat (List.length rounds)
                /\ Forall (voices_ok roster) rounds
                /\ Sh (tl ++ later_slots round_num rounds)
                      (al ++ later_analyses round_num rounds) s)
           any_exit.
Proof.
  assert (Hstop : forall round_num tl al s,
             Sh tl al s ->
             exists rounds,
               round_num = round_num + Z.of_nat (List.length rounds)
               /\ Forall (voices_ok roster) rounds
               /\ Sh (tl ++ later_slots round_num rounds)
                     (al ++ later_analyses round_num rounds) s).
  { intros round_num tl al s Hs. exists []. cbn.
    split; [lia |]. split; [constructor |].
    rewrite !app_nil_r. exact Hs. }
  induction n as [| n IH]; intros round_num tl al Hn s Hs;
    rewrite debate_loop_step;
    destruct (round_num <=? max_rounds) eqn:Hle;
    try (apply Hstop; assumption).
  - apply Z.leb_le in Hle. lia.
  - apply Z.leb_le in Hle.
    pose proof (sh_debate_body cc tp round_num tl al s Hs) as Hbody.
    destruct (debate_body cc tp round_num s) as [[[|] | e] s1];
      [| apply Hstop; exact Hbody | exact Logic.I].
    destruct Hbody as (voices & Hvoices & Hs1).
    assert (Hn' : Z.to_nat (max_rounds + 1 - (round_num + 1)) = n) by lia.
    pose proof (IH (round_num + 1) _ _ Hn' s1 Hs1) as Hrec.
    destruct (debate_loop cc tp max_rounds (round_num + 1) s1)
      as [[r | e] s2]; [| exact Logic.I].
    destruct Hrec as (rounds & Hr & Hrounds & Hs2).
    exists (voices :: rounds).
    split; [cbn [List.length]; lia |].
    split; [constructor; assumption |].
    eapply sh_eq; [| | exact Hs2];
      cbn [later_slots later_analyses]; rewrite <- ?app_assoc; reflexivity.
Qed.

(** A loop with an accumulator in which each voice speaks once,
    outside any round. *)
Lemma sh_for_fold {B} (l : list string) (body : B -> string -> M B) :
  (forall acc x tl al,
     triple (Sh tl al) (body acc x)
            (fun _ => Sh (tl ++ [(x, None)]) al) any_exit) ->
  forall acc tl al,
    triple (Sh tl al) (for_fold l acc body)
           (fun _ => Sh (tl ++ answer_slots None l) al) any_exit.
Proof.
  induction l as [| x l IH]; intros Hbody acc tl al; cbn [for_fold].
  - apply triple_ret. intros s Hs.
    eapply sh_eq; [| | exact Hs]; cbn; rewrite ?app_nil_r; reflexivity.
  - eapply triple_bind; [apply Hbody |].
    intros acc'. eapply triple_post; [apply (IH Hbody) |].
    intros ? s Hs. cbv beta in Hs.
    eapply sh_eq; [| | exact Hs]; cbn; rewrite <- ?app_assoc; reflexivity.
Qed.

Lemma sh_conduct_voting (cc : string) tl al :
  triple (Sh tl al) (_conduct_voting cc)
         (fun _ => Sh (tl ++ [("Moderator", None)] ++ answer_slots None roster)
                      al)
         any_exit.
Proof.
  unfold _conduct_voting. sh_step. sh_step.
  eapply triple_bind; [apply sh_gets_roles |].
  intros roles. apply triple_assume. intros ->.
  eapply triple_post.
  - apply sh_for_fold. intros votes voice tl' al'.
    sh_step. sh_step.
    eapply triple_bind; [apply sh_add_transcript |].
    intros ?. apply triple_ret. auto.
  - intros ? s Hs. cbv beta in Hs.
    eapply sh_eq; [| | exact Hs]; rewrite <- ?app_assoc; reflexivity.
Qed.

Lemma sh_moderator_conclude (cc mood : string) (score : Q) tl al :
  triple (Sh tl al) (_moderator_conclude cc mood score)
         (fun _ => Sh (tl ++ [("Moderator", None)]) al) any_exit.
Proof.
  unfold _moderator_conclude. sh_step. sh_step. sh_step. sh_step.
  apply triple_ret. auto.
Qed.

End Shape.

Lemma sh_start_discussion (roster : list string)
    (agents : list (string * ExpertAgent)) (today cc tp : string)
    (data : option CountryData) (max_rounds : Z) :
  triple (config roster agents)
         (start_discussion today cc tp data max_rounds)
         (fun res _ =>
            exists rounds,
              debate_rounds res = 1 + Z.of_nat (List.length rounds)
              /\ Forall (voices_ok roster) rounds
              /\ slots (transcripts res) = run_slots roster rounds
              /\ analysis_slots (analyses res) = run_analyses roster rounds)
         any_exit.
Proof.
  unfold start_discussion.
  apply triple_bind with
    (R := fun _ s => config roster agents s /\ self_transcripts s = []).
  { intros s Hs. simpl. split; [exact Hs | reflexivity]. }
  intros ?.
  apply triple_bind with (R := fun _ => shape roster agents [] []).
  { intros s (Hc & Ht). split; [exact Hc |]. cbn. rewrite Ht.
    split; reflexivity. }
  intros ?.
  apply triple_bind with (R := fun _ => shape roster agents [] []).
  { intros s Hs. exact Hs. }
  intros ?.
  eapply triple_bind; [apply sh_moderator_introduce |].
  intros intro.
  eapply triple_bind; [apply sh_collect_first_round |].
  intros ?. cbv beta. apply triple_assume. intros Hne.
  eapply triple_bind;
    [apply (sh_debate_loop roster agents Hne cc tp max_rounds _ 2 _ _ eq_refl) |].
  intros r. cbv beta. apply triple_exists. intros rounds.
  apply triple_pre with
    (P := fun s =>
            shape roster agents
              ((([] ++ [("Moderator", None)]) ++ round_slots 1 roster)
               ++ later_slots 2 rounds)
              (([] ++ answer_analyses 1 roster) ++ later_analyses 2 rounds) s
            /\ (r = 2 + Z.of_nat (List.length rounds)
                /\ Forall (voices_ok roster) rounds)).
  2: { intros s (Hr & Hrounds & Hs). auto. }
  apply triple_assume. intros (Hr & Hrounds).
  eapply triple_bind; [apply sh_conduct_voting |].
  intros vs.
  intros s Hs. unfold bind at 1. unfold lift.
  destruct (_calculate_final_mood vs) as [[mood score] | e];
    [| exact Logic.I].
  pose proof (sh_moderator_conclude roster agents cc mood score _ _ s Hs)
    as Hconcl.
  unfold bind.
  destruct (_moderator_conclude cc mood score s) as [[concl | e] s1];
    [| exact Logic.I].
  cbn [gets ret debate_rounds transcripts analyses].
  destruct Hconcl as (_ & Hts & Han).
  exists rounds. split; [lia |]. split; [exact Hrounds |].
  split.
  - rewrite Hts. unfold run_slots. cbn [app]. rewrite <- ?app_assoc.
    reflexivity.
  - rewrite Han. reflexivity.
Qed.

(** The shape of a result. Its transcript is, in this order: the
    moderator's introduction; round 1, the moderator's question and one
    answer per role in roster order; each later round, the moderator's
    question and the answers of the voices of that round; the
    moderator's call for votes and one voting statement per role in
    roster order; the moderator's conclusion. The turns of a round
    carry its number, the others none. The analyses are the answers of
    the rounds in the same order, and [debate_rounds] is the number of
    rounds. The voices of a later round are roles of the roster, at
    least one and at most as many as the roster has. *)
Theorem start_discussion_shape (s s' : PanelDiscussionStrandsV2)
    (today cc tp : string) (data : option CountryData) (max_rounds : Z)
    (res : PanelResult) :
  start_discussion today cc tp data max_rounds s = (Ok res, s') ->
  exists rounds,
    debate_rounds res = 1 + Z.of_nat (List.length rounds)
    /\ Forall (voices_ok (self_expert_roles s)) rounds
    /\ slots (transcripts res) = run_slots (self_expert_roles s) rounds
    /\ analysis_slots (analyses res)
       = run_analyses (self_expert_roles s) rounds.
Proof.
  intros Hrun.
  pose proof (sh_start_discussion (self_expert_roles s) (self_agents s)
                today cc tp data max_rounds s (conj eq_refl eq_refl)) as H.
  rewrite Hrun in H. exact H.
Qed.

Lemma start_discussion_shape_witness :
  sample_run 5 = (Ok (result_of (sample_run 5)), snd (sample_run 5))
  /\ exists rounds,
       debate_rounds (result_of (sample_run 5))
       = 1 + Z.of_nat (List.length rounds)
       /\ Forall (voices_ok (self_expert_roles sample_panel)) rounds
       /\ slots (transcripts (result_of (sample_run 5)))
          = run_slots (self_expert_roles sample_panel) rounds
       /\ analysis_slots (analyses (result_of (sample_run 5)))
          = run_analyses (self_expert_roles sample_panel) rounds.
Proof.
  split; [exact sample_run_returns |].
  exact (start_discussion_shape _ _ _ _ _ _ _ _ sample_run_returns).
Defined.

Example sample_run_shape :
  slots (transcripts (result_of (sample_run 5)))
  = run_slots (self_expert_roles sample_panel)
              [["Economic Analyst"]; ["Economic Analyst"]]
  /\ analysis_slots (analyses (result_of (sample_run 5)))
     = run_analyses (self_expert_roles sample_panel)
                    [["Economic Analyst"]; ["Economic Analyst"]].
Proof. vm_compute. split; reflexivity. Qed.

(** ** The cost of a run *)

(** What a run costs is bounded by its inputs: with [R] roles and
    [M = max(1, max_rounds)] it makes at most [(R + 2) * M + R]
    completion calls and at most [4 + 2 * R + (R + 1) * (M - 1)]
    turns. For the panel of the factory and the default of five rounds
    this is 28 calls and 26 turns. *)
Theorem start_discussion_cost_bound (s s' : PanelDiscussionStrandsV2)
    (today cc tp : string) (data : option CountryData) (max_rounds : Z)
    (res : PanelResult) :
  start_discussion today cc tp data max_rounds s = (Ok res, s') ->
  let R := Z.of_nat (List.length (self_expert_roles s)) in
  let M := Z.max 1 max_rounds in
  Z.of_nat (List.length (history s')) - Z.of_nat (List.length (history s))
  <= (R + 2) * M + R
  /\ total_turns res <= 4 + 2 * R + (R + 1) * (M - 1).
Proof.
  intros Hrun. cbv zeta.
  pose proof (cnt_start_discussion (self_expert_roles s) (self_agents s)
                today cc tp data max_rounds (List.length (history s)) s
                (conj (conj eq_refl eq_refl) eq_refl)) as Hcalls.
  rewrite Hrun in Hcalls.
  pose proof (start_discussion_triple (self_expert_roles s) (self_agents s)
                no_inv no_inv_stable no_inv_fresh
                today cc tp data max_rounds s (conj eq_refl eq_refl)) as Hpost.
  rewrite Hrun in Hpost.
  destruct Hpost as (_ & _ & _ & _ & _ & Hrounds).
  destruct (run_account_of_run _ _ _ _ _ _ _ _ Hrun)
    as (Hroles & _ & _ & _ & Htotal & (k & Hk & Hts & Han) & _).
  assert (Hvotes : List.length (votes res)
                   = List.length (self_expert_roles s)).
  { rewrite <- Hroles. symmetry. apply length_map. }
  unfold later_rounds in *. unfold closing_call in Hcalls.
  destruct (debate_rounds res <? max_rounds) eqn:Hlt;
    [apply Z.ltb_lt in Hlt | apply Z.ltb_ge in Hlt];
    split; try (rewrite Htotal, Hts; nia);
    rewrite Hcalls, Han, Hvotes; nia.
Qed.

Lemma start_discussion_cost_bound_witness :
  sample_run 5 = (Ok (result_of (sample_run 5)), snd (sample_run 5))
  /\ total_turns (result_of (sample_run 5))
     <= 4 + 2 * Z.of_nat (List.length (self_expert_roles sample_panel))
        + (Z.of_nat (List.length (self_expert_roles sample_panel)) + 1)
          * (Z.max 1 5 - 1).
Proof.
  split; [exact sample_run_returns |].
  destruct (start_discussion_cost_bound _ _ _ _ _ _ _ _ sample_run_returns)
    as (_ & H).
  exact H.
Defined.

(** ** What a run leaves alone *)

Lemma same_panel_stable (p : PanelDiscussionStrandsV2) :
  stable (same_panel p).
Proof.
  split; [| split].
  - intros sp c rn s Hs. rewrite add_transcript_run. exact Hs.
  - intros a s Hs. rewrite append_analysis_run. exact Hs.
  - intros c s [Hm [new Hh]]. split; [exact Hm |].
    exists (c :: new). cbn [history log_call]. rewrite Hh. reflexivity.
Qed.

Lemma start_discussion_keeps (p : PanelDiscussionStrandsV2)
    (today cc tp : string) (data : option CountryData) (max_rounds : Z) :
  triple (fun s => s = p)
         (start_discussion today cc tp data max_rounds)
         (fun res s =>
            inv (same_panel p) (self_expert_roles p) (self_agents p) s
            /\ (transcripts res = self_transcripts s
                /\ analyses res = self_analyses s))
         (fun _ s =>
            inv (same_panel p) (self_expert_roles p) (self_agents p) s).
Proof.
  pose proof (same_panel_stable p) as Hst.
  set (roster := self_expert_roles p). set (agents := self_agents p).
  assert (Hexc : forall (e : exn) s,
             exc (same_panel p) roster agents e s ->
             inv (same_panel p) roster agents s).
  { intros e s [H _]. exact H. }
  unfold start_discussion.
  apply triple_bind with (R := fun _ => inv (same_panel p) roster agents).
  { intros s ->. split; [| split; reflexivity].
    split; [reflexivity |]. exists []. reflexivity. }
  intros ?.
  apply triple_bind with (R := fun _ => inv (same_panel p) roster agents).
  { intros s Hs. exact Hs. }
  intros ?.
  apply triple_bind with (R := fun _ => inv (same_panel p) roster agents).
  { intros s Hs. exact Hs. }
  intros ?.
  eapply triple_weaken with
    (P := inv (same_panel p) roster agents)
    (Q := fun res s =>
            inv (same_panel p) roster agents s
            /\ (transcripts res = self_transcripts s
                /\ analyses res = self_analyses s))
    (E := exc (same_panel p) roster agents);
    [| auto | auto | exact Hexc].
  eapply triple_bind;
    [apply (moderator_introduce_triple roster agents _ Hst) |].
  intros intro.
  eapply triple_bind;
    [apply (collect_round_analyses_triple roster agents _ Hst) |].
  intros ?.
  eapply triple_bind;
    [apply (debate_loop_triple roster agents _ Hst cc tp max_rounds _ 2
                               eq_refl) |].
  intros round_num. apply triple_assume. intros Hround.
  eapply triple_bind; [apply (conduct_voting_triple roster agents _ Hst) |].
  intros vs. apply triple_assume. intros Hvotes.
  destruct (calculate_final_mood_total vs Hvotes) as (mood & score & Hcalc).
  eapply triple_bind; [apply (triple_lift_ok _ _ _ _ Hcalc) |].
  intros [mood' score']. apply triple_assume. intros Hms.
  eapply triple_bind;
    [apply (moderator_conclude_triple roster agents _ Hst) |].
  intros concl.
  eapply triple_bind; [apply triple_gets |].
  intros ts.
  eapply triple_bind; [apply triple_gets |].
  intros an.
  apply triple_ret.
  intros s (((Hs & _) & ->) & ->). split; [exact Hs |].
  split; reflexivity.
Qed.

(** A run changes nothing of the panel but its transcript, its
    analyses and its turn counter, whether it returns or raises: the
    roster, the agents and the model id are as before, and the
    completion calls made before are still the oldest of the log. When
    it returns, the transcript and the analyses of the result are those
    the panel holds. *)
Theorem start_discussion_frame (p : PanelDiscussionStrandsV2)
    (today cc tp : string) (data : option CountryData) (max_rounds : Z) :
  let run := start_discussion today cc tp data max_rounds p in
  self_expert_roles (snd run) = self_expert_roles p
  /\ self_agents (snd run) = self_agents p
  /\ self_model_id (snd run) = self_model_id p
  /\ (exists new, history (snd run) = (new ++ history p)%list)
  /\ match fst run with
     | Ok res =>
         transcripts res = self_transcripts (snd run)
         /\ analyses res = self_analyses (snd run)
     | Raise _ => True
     end.
Proof.
  cbv zeta.
  pose proof (start_discussion_keeps p today cc tp data max_rounds p eq_refl)
    as H.
  destruct (start_discussion today cc tp data max_rounds p) as [[res | e] s'];
    cbn [fst snd].
  - destruct H as (((Hm & Hh) & Hr & Ha) & Hres).
    repeat (split; [assumption |]). exact Hres.
  - destruct H as ((Hm & Hh) & Hr & Ha).
    repeat (split; [assumption |]). exact Logic.I.
Qed.

(** * The storage adapter *)

Lemma fold_option_map {A B C} (f : list B -> C -> option (list B))
    (h : A -> C) (g : A -> B) (l : list A) :
  (forall rows x, f rows (h x) = Some (rows ++ [g x])%list) ->
  forall rows,
    Rds.fold_option f (map h l) rows = Some (rows ++ map g l)%list.
Proof.
  intros Hf. induction l as [| x l IH]; intros rows;
    cbn [Rds.fold_option map].
  - rewrite app_nil_r. reflexivity.
  - rewrite Hf. cbn [Rds.option_bind]. rewrite IH, <- app_assoc.
    reflexivity.
Qed.

Lemma append_assoc (a b c : string) : ((a ++ b) ++ c = a ++ (b ++ c))%string.
Proof. induction a as [| ch a IH]; cbn; [reflexivity | rewrite IH; reflexivity]. Qed.

Lemma append_empty_r (a : string) : (a ++ "")%string = a.
Proof. induction a as [| ch a IH]; cbn; [reflexivity | rewrite IH; reflexivity]. Qed.

Lemma fold_option_join {A C} (f : string -> C -> option string)
    (h : A -> C) (g : A -> string) (l : list A) :
  (forall doc x, f doc (h x) = Some (doc ++ g x)%string) ->
  forall doc,
    Rds.fold_option f (map h l) doc
    = Some (doc ++ join_all (map g l))%string.
Proof.
  intros Hf. induction l as [| x l IH]; intros doc;
    cbn [Rds.fold_option map join_all].
  - rewrite append_empty_r. reflexivity.
  - rewrite Hf. cbn [Rds.option_bind]. rewrite IH, append_assoc.
    reflexivity.
Qed.

(** The four tables get the result as it is: every key that
    [_save_discussion], [_save_expert_analyses], [_save_votes] and
    [_save_transcript] read is a field of the result, so no default
    value is ever stored, there is one row per analysis, vote and turn,
    in order, and no writer raises while it reads. *)
Theorem save_panel_result_rows (py : Rds.Python) (today : string)
    (discussion_id : Z) (country_code : string) (res : PanelResult) :
  Rds._save_discussion py today (Rds.asdict res) country_code
  = Some (discussion_row country_code res)
  /\ Rds._save_expert_analyses py discussion_id (Rds.asdict res)
     = Some (map (analysis_row discussion_id) (analyses res))
  /\ Rds._save_votes py discussion_id (Rds.asdict res)
     = Some (map (vote_row discussion_id) (votes res))
  /\ Rds._save_transcript discussion_id (Rds.asdict res)
     = Some (map (transcript_row discussion_id) (transcripts res)).
Proof.
  split; [reflexivity |]. split; [| split].
  - unfold Rds._save_expert_analyses. cbn.
    rewrite (fold_option_map _ Rds.asdict_analysis
               (analysis_row discussion_id) (analyses res));
      [reflexivity | intros rows a; reflexivity].
  - unfold Rds._save_votes. cbn.
    rewrite (fold_option_map _ Rds.asdict_vote
               (vote_row discussion_id) (votes res));
      [reflexivity | intros rows v; reflexivity].
  - unfold Rds._save_transcript. cbn.
    rewrite (fold_option_map _ Rds.asdict_transcript
               (transcript_row discussion_id) (transcripts res));
      [reflexivity | intros rows t; reflexivity].
Qed.

(** The knowledge-base document does not get the discussion: the keys
    that [_save_to_s3_for_kb] reads for the introduction, the analyses,
    the conclusion and for the expert, the mood and the score of a vote
    are not fields of the result. Whatever the result, the document
    says N/A for the introduction and for the conclusion, has no
    analysis, and names every vote None with confidence None; of the
    result it shows only the final mood and score and the reasonings
    of the votes. *)
Theorem save_to_s3_for_kb_document (py : Rds.Python)
    (today s3_bucket country_code : string) (res : PanelResult) :
  Rds._save_to_s3_for_kb py today s3_bucket (Rds.asdict res) country_code
  = Some {| Rds.Bucket := s3_bucket;
            Rds.Key := "panel-discussions/" ++ country_code ++ "/" ++ today
                       ++ ".md";
            Rds.Body := kb_document today country_code res;
            Rds.ContentType := "text/markdown";
            Rds.Metadata :=
              [ ("country", country_code);
                ("mood", final_mood res);
                ("score", Rds.repr py (Rds.VFloat (final_score res)));
                ("date", today);
                ("type", "panel_discussion") ] |}.
Proof.
  unfold Rds._save_to_s3_for_kb.
  cbn [Rds.asdict Rds.getitem Rds.get Rds.lookup String.eqb Ascii.eqb
       Bool.eqb Rds.option_bind Rds.upper Rds.format_1f Rds.method_get
       Rds.items Rds.iter Rds.str fold_left].
  match goal with
  | |- context [Rds.fold_option ?f (map Rds.asdict_vote ?l) ?doc] =>
      rewrite (fold_option_join f Rds.asdict_vote kb_vote_lines l)
  end.
  - cbn [Rds.option_bind]. unfold kb_document.
    rewrite !append_assoc. reflexivity.
  - intros doc v.
    cbn [Rds.asdict_vote Rds.get Rds.lookup String.eqb Ascii.eqb
         Bool.eqb Rds.option_bind Rds.method_get Rds.str].
    unfold kb_vote_lines. rewrite !append_assoc. reflexivity.
Qed.

Example sample_run_kb_document :
  option_map Rds.Body
    (Rds._save_to_s3_for_kb sample_python "2025-06-01" "kb"
       (Rds.asdict (result_of (sample_run 5))) "JP")
  = Some (Py.join Py.nl
            [ "# Country Analysis: JP";
              "Date: 2025-06-01";
              "Overall Mood: HAPPY (100.0/100)";
              "";
              "## Introduction";
              "N/A";
              "";
              "## Expert Analyses";
              "";
              "## Conclusion";
              "N/A";
              "";
              "## Voting Results";
              "- **None**: None (confidence: None%)";
              "  Reasoning: strong growth";
              "- **None**: None (confidence: None%)";
              "  Reasoning: strong growth";
              "- **None**: None (confidence: None%)";
              "  Reasoning: strong growth";
              "" ]).
Proof. vm_compute. reflexivity. Qed.




